(** * password_manager_cli: TOTP engine, secret normaliser and credential stores

    A shallow embedding of the Go sources [mfa.go], [mpin.go], the password
    store and the command handlers of [main.go], together with the part of
    the Go standard library they call, followed by the properties of the
    specification that were checked against them.

    Conventions.
    - A Go [string] is an immutable byte sequence: it is a Rocq [string]
      (one [ascii] per byte).  A [[]byte] is a [list byte] with bytes as
      integers in [0, 256).
    - [int] and [int64] are 64-bit two's-complement integers held in [Z];
      every operation that can leave the range wraps explicitly.
    - A call returns an [outcome]: a value, a Go [error], or a run-time panic.
    - The process environment (clock, random source, home directory, files)
      is an explicit [World] threaded through the operations.
    - Writes to standard output do not influence any result or stored state
      and are left out.
    - The functions of the standard library are written after the library:
      unicode/utf8 and strings, encoding/base32 (RFC 4648), crypto/sha1
      (FIPS 180-4), crypto/hmac (RFC 2104), encoding/binary, fmt.  Part IV
      starts by running them on the published test vectors.  The Unicode
      case tables and the JSON codec are parameters of the development. *)

From Stdlib Require Import ZArith List String Ascii Lia.
From stdpp Require Import base decidable option list strings gmap countable.
Import ListNotations.
Local Open Scope string_scope.
Local Open Scope list_scope.
Local Open Scope Z_scope.

(* ===================================================================== *)
(** * Part I.  The Go run time and standard library                      *)
(* ===================================================================== *)

Module Go.

(** ** Outcomes, errors and panics *)

Inductive panic : Type :=
| DivideByZero            (* "runtime error: integer divide by zero" *)
| IndexOutOfRange         (* "runtime error: index out of range" *)
| SliceBoundsOutOfRange   (* "runtime error: slice bounds out of range" *)
| RandIntArgument.        (* "crypto/rand: argument to Int is <= 0" *)

(** Go errors are values printed through [Error()]; [Errorf msg cause] is
    [fmt.Errorf(msg ++ ": %v", cause)], [New msg] an error with no operand. *)
Inductive error : Type :=
| New (msg : string)
| Errorf (msg : string) (cause : error)
| CorruptInputError (pos : Z)            (* encoding/base32 *)
| SyntaxError (msg : string)             (* encoding/json *)
| UnmarshalTypeError                     (* encoding/json *)
| PathError (op path : string)           (* os *)
| RandError.                             (* crypto/rand reader failure *)

Inductive outcome (A : Type) : Type :=
| Ok (a : A)
| Err (e : error)
| Panic (p : panic).
Arguments Ok {A} a.
Arguments Err {A} e.
Arguments Panic {A} p.

#[global] Instance outcome_ret : MRet outcome := fun A a => Ok a.
#[global] Instance outcome_bind : MBind outcome := fun A B k m =>
  match m with
  | Ok a => k a
  | Err e => Err e
  | Panic p => Panic p
  end.

Definition is_panic {A} (o : outcome A) : bool :=
  match o with Panic _ => true | _ => false end.
Definition is_err {A} (o : outcome A) : bool :=
  match o with Err _ => true | _ => false end.

(** ** Fixed-width integers *)

(** Bytes and runes are integers; the names only document the intent. *)
Abbreviation byte := Z (only parsing).
Abbreviation rune := Z (only parsing).

Definition MinInt64 : Z := - 2 ^ 63.
Definition MaxInt64 : Z := 2 ^ 63 - 1.
Definition is_int64 (x : Z) : Prop := MinInt64 <= x <= MaxInt64.

(** Two's-complement wrap of a mathematical integer into [int64]. *)
Definition int64 (x : Z) : Z := (x + 2 ^ 63) mod 2 ^ 64 - 2 ^ 63.
Definition uint64 (x : Z) : Z := x mod 2 ^ 64.
Definition uint32 (x : Z) : Z := x mod 2 ^ 32.
Definition uint8 (x : Z) : Z := x mod 2 ^ 8.

(** [x / y] and [x % y] on signed integers: truncation towards zero, the
    remainder takes the sign of the dividend, and a zero divisor panics. *)
Definition quo (x y : Z) : outcome Z :=
  if y =? 0 then Panic DivideByZero else Ok (int64 (Z.quot x y)).
Definition rem (x y : Z) : outcome Z :=
  if y =? 0 then Panic DivideByZero else Ok (int64 (Z.rem x y)).

(** ** Byte slices *)

(** [b[i]] *)
Definition index (b : list byte) (i : Z) : outcome byte :=
  if (0 <=? i) && (i <? Z.of_nat (length b))
  then Ok (nth (Z.to_nat i) b 0)
  else Panic IndexOutOfRange.

(** [b[lo:hi]].  Go checks [hi] against the capacity, which is at least the
    length; checking against the length can only add panics. *)
Definition slice (b : list byte) (lo hi : Z) : outcome (list byte) :=
  if (0 <=? lo) && (lo <=? hi) && (hi <=? Z.of_nat (length b))
  then Ok (take (Z.to_nat (hi - lo)) (drop (Z.to_nat lo) b))
  else Panic SliceBoundsOutOfRange.

(** ** Strings as byte sequences *)

Definition byte_of_ascii (a : ascii) : byte := Z.of_N (N_of_ascii a).
Definition ascii_of_byte (b : byte) : ascii := ascii_of_N (Z.to_N (uint8 b)).

(** [[]byte(s)] and [string(b)] *)
Definition bytes (s : string) : list byte := map byte_of_ascii (list_ascii_of_string s).
Definition of_bytes (b : list byte) : string := string_of_list_ascii (map ascii_of_byte b).

(** [len(s)] *)
Definition len (s : string) : Z := Z.of_nat (String.length s).

(** ** unicode/utf8 *)

Definition RuneError : rune := 0xFFFD.
Definition MaxRune : rune := 0x10FFFF.
Definition RuneSelf : Z := 0x80.

(** The table [first] of utf8.go, as the triple (size, lowest, highest
    accepted second byte); size 0 marks an invalid leading byte. *)
Definition first (s0 : byte) : Z * byte * byte :=
  if s0 <? 0xC2 then (0, 0, 0)
  else if s0 <? 0xE0 then (2, 0x80, 0xBF)
  else if s0 =? 0xE0 then (3, 0xA0, 0xBF)
  else if s0 =? 0xED then (3, 0x80, 0x9F)
  else if s0 <? 0xF0 then (3, 0x80, 0xBF)
  else if s0 =? 0xF0 then (4, 0x90, 0xBF)
  else if s0 <? 0xF4 then (4, 0x80, 0xBF)
  else if s0 =? 0xF4 then (4, 0x80, 0x8F)
  else (0, 0, 0).

Definition continuation (b : byte) : bool := (0x80 <=? b) && (b <=? 0xBF).

(** utf8.DecodeRune: the first rune of [p] and its width in bytes. *)
Definition DecodeRune (p : list byte) : rune * nat :=
  match p with
  | [] => (RuneError, 0%nat)
  | s0 :: t =>
      if s0 <? RuneSelf then (s0, 1%nat)
      else
        let '(sz, lo, hi) := first s0 in
        if sz =? 0 then (RuneError, 1%nat)
        else
          match t with
          | [] => (RuneError, 1%nat)
          | s1 :: t1 =>
              if (s1 <? lo) || (hi <? s1) then (RuneError, 1%nat)
              else if sz <=? 2 then
                (Z.lor (Z.shiftl (Z.land s0 0x1F) 6) (Z.land s1 0x3F), 2%nat)
              else
                match t1 with
                | [] => (RuneError, 1%nat)
                | s2 :: t2 =>
                    if negb (continuation s2) then (RuneError, 1%nat)
                    else if sz <=? 3 then
                      (Z.lor (Z.lor (Z.shiftl (Z.land s0 0x0F) 12)
                                    (Z.shiftl (Z.land s1 0x3F) 6))
                             (Z.land s2 0x3F), 3%nat)
                    else
                      match t2 with
                      | [] => (RuneError, 1%nat)
                      | s3 :: _ =>
                          if negb (continuation s3) then (RuneError, 1%nat)
                          else
                            (Z.lor (Z.lor (Z.lor (Z.shiftl (Z.land s0 0x07) 18)
                                                 (Z.shiftl (Z.land s1 0x3F) 12))
                                          (Z.shiftl (Z.land s2 0x3F) 6))
                                   (Z.land s3 0x3F), 4%nat)
                      end
                end
          end
  end.

(** The runes that [for _, c := range s] yields, in order. *)
Fixpoint range_bytes (fuel : nat) (p : list byte) : list rune :=
  match fuel, p with
  | S fuel', _ :: _ =>
      let '(r, w) := DecodeRune p in r :: range_bytes fuel' (drop w p)
  | _, _ => []
  end.
Definition range (s : string) : list rune :=
  let p := bytes s in range_bytes (length p) p.

(** utf8.AppendRune: the UTF-8 encoding of [r]; surrogates and values out of
    range are written as U+FFFD. *)
Definition EncodeRune (r : rune) : list byte :=
  if (0 <=? r) && (r <=? 0x7F) then [r]
  else if (0 <=? r) && (r <=? 0x7FF) then
    [Z.lor 0xC0 (Z.shiftr r 6); Z.lor 0x80 (Z.land r 0x3F)]
  else
    let three (r : rune) :=
      [Z.lor 0xE0 (Z.shiftr r 12);
       Z.lor 0x80 (Z.land (Z.shiftr r 6) 0x3F);
       Z.lor 0x80 (Z.land r 0x3F)] in
    if (r <? 0) || (MaxRune <? r) || ((0xD800 <=? r) && (r <=? 0xDFFF))
    then three RuneError
    else if r <=? 0xFFFF then three r
    else
      [Z.lor 0xF0 (Z.shiftr r 18);
       Z.lor 0x80 (Z.land (Z.shiftr r 12) 0x3F);
       Z.lor 0x80 (Z.land (Z.shiftr r 6) 0x3F);
       Z.lor 0x80 (Z.land r 0x3F)].

(** [strings.Builder]: the accumulated bytes. *)
Definition Builder := string.
Definition WriteRune (b : Builder) (r : rune) : Builder := b +:+ of_bytes (EncodeRune r).

(** ** unicode and strings *)

(** The case tables of package unicode are data of the Go distribution.  They
    enter through [To(UpperCase, r)] for runes above [MaxASCII] only. *)
Class CaseTables := { To_UpperCase : rune -> rune }.

(** unicode.ToUpper *)
Definition unicode_ToUpper `{CaseTables} (r : rune) : rune :=
  if r <=? 0x7F then
    (if (0x61 <=? r) && (r <=? 0x7A) then r - (0x61 - 0x41) else r)
  else To_UpperCase r.

(** strings.Map: every rune of [s] is mapped and re-encoded, a negative
    result drops the rune. *)
Definition strings_Map (mapping : rune -> rune) (s : string) : string :=
  fold_left (fun b c => let r := mapping c in if 0 <=? r then WriteRune b r else b)
            (range s) "".

(** strings.ToUpper, with its fast path for strings of ASCII bytes. *)
Definition strings_ToUpper `{CaseTables} (s : string) : string :=
  let p := bytes s in
  if forallb (fun c => c <? RuneSelf) p then
    of_bytes (map (fun c => if (0x61 <=? c) && (c <=? 0x7A) then c - (0x61 - 0x41) else c) p)
  else strings_Map unicode_ToUpper s.

(** strings.Join *)
Fixpoint strings_Join (elems : list string) (sep : string) : string :=
  match elems with
  | [] => ""
  | [e] => e
  | e :: rest => e +:+ sep +:+ strings_Join rest sep
  end.

(** strings.ReplaceAll(s, " ", "") *)
Fixpoint remove_spaces (s : string) : string :=
  match s with
  | EmptyString => EmptyString
  | String c s' => if Ascii.eqb c " "%char then remove_spaces s' else String c (remove_spaces s')
  end.

(** ** encoding/base32, [StdEncoding] (RFC 4648 alphabet, padding [=]) *)

Definition padChar : byte := 0x3D.

Definition decodeMap (c : byte) : byte :=
  if (0x41 <=? c) && (c <=? 0x5A) then c - 0x41
  else if (0x32 <=? c) && (c <=? 0x37) then c - 0x32 + 26
  else 0xFF.

Definition stripNewlines (src : list byte) : list byte :=
  filter (fun c => c <> 0x0D /\ c <> 0x0A) src.

(** The padding check [for k := 0; k < 8-1-j; k++]: the first [k] with
    [len(src) > k && src[k] != padChar]. *)
Definition badPadding (j : Z) (src : list byte) : option nat :=
  find (fun k => (k <? length src)%nat && negb (nth k src 0 =? padChar))
       (seq 0 (Z.to_nat (8 - 1 - j))).

Inductive quantum : Type :=
| QErr (e : error)
| QOk (dbuf : list byte) (dlen : Z) (end_ : bool) (src : list byte).

(** The inner loop [for j := 0; j < 8; ] of [decode], with [n = 8 - j]
    iterations to go; [dbuf] holds the [j] values decoded so far (the
    remaining cells of the array are zero). *)
Fixpoint readQuantum (n : nat) (j : Z) (olen : Z) (src dbuf : list byte) : quantum :=
  match n with
  | O => QOk dbuf 8 false src
  | S n' =>
      match src with
      | [] => QErr (CorruptInputError (olen - 0 - j))
      | in_ :: src =>
          let lsrc := Z.of_nat (length src) in
          if (in_ =? padChar) && (2 <=? j) && (lsrc <? 8) then
            if lsrc + j <? 8 - 1 then QErr (CorruptInputError olen)
            else
              match badPadding j src with
              | Some k => QErr (CorruptInputError (olen - lsrc + Z.of_nat k - 1))
              | None =>
                  if (j =? 1) || (j =? 3) || (j =? 6)
                  then QErr (CorruptInputError (olen - lsrc - 1))
                  else QOk dbuf j true src
              end
          else
            let v := decodeMap in_ in
            if v =? 0xFF then QErr (CorruptInputError (olen - lsrc - 1))
            else readQuantum n' (j + 1) olen src (dbuf ++ [v])
      end
  end.

(** The [switch dlen] with its fall-through cases: the bytes of one quantum. *)
Definition pack (dbuf : list byte) (dlen : Z) : list byte :=
  let d (i : nat) := nth i dbuf 0 in
  let b4 := uint8 (Z.lor (Z.shiftl (d 6%nat) 5) (d 7%nat)) in
  let b3 := uint8 (Z.lor (Z.lor (Z.shiftl (d 4%nat) 7) (Z.shiftl (d 5%nat) 2)) (Z.shiftr (d 6%nat) 3)) in
  let b2 := uint8 (Z.lor (Z.shiftl (d 3%nat) 4) (Z.shiftr (d 4%nat) 1)) in
  let b1 := uint8 (Z.lor (Z.lor (Z.shiftl (d 1%nat) 6) (Z.shiftl (d 2%nat) 1)) (Z.shiftr (d 3%nat) 4)) in
  let b0 := uint8 (Z.lor (Z.shiftl (d 0%nat) 3) (Z.shiftr (d 1%nat) 2)) in
  if dlen =? 8 then [b0; b1; b2; b3; b4]
  else if dlen =? 7 then [b0; b1; b2; b3]
  else if dlen =? 5 then [b0; b1; b2]
  else if dlen =? 4 then [b0; b1]
  else if dlen =? 2 then [b0]
  else [].

(** The outer loop [for len(src) > 0 && !end].  Only the last quantum can be
    short, so the [n] bytes written are the concatenation of the quanta; the
    destination aliases the source in [DecodeString], but byte [5q + i] is
    written after source byte [8q + 7] was read. *)
Fixpoint decodeLoop (fuel : nat) (olen : Z) (src dst : list byte) : outcome (list byte) :=
  match fuel, src with
  | S fuel', _ :: _ =>
      match readQuantum 8 0 olen src [] with
      | QErr e => Err e
      | QOk dbuf dlen end_ src' =>
          let dst' := dst ++ pack dbuf dlen in
          if end_ then Ok dst' else decodeLoop fuel' olen src' dst'
      end
  | _, _ => Ok dst
  end.

(** base32.StdEncoding.DecodeString *)
Definition base32_DecodeString (s : string) : outcome (list byte) :=
  let src := stripNewlines (bytes s) in
  decodeLoop (length src) (Z.of_nat (length src)) src [].

(** ** encoding/binary, big endian *)

Definition be32 (w : Z) : list byte :=
  [Z.shiftr w 24 mod 256; Z.shiftr w 16 mod 256; Z.shiftr w 8 mod 256; w mod 256].

(** binary.BigEndian.PutUint64 into a fresh 8-byte buffer *)
Definition PutUint64 (v : Z) : list byte :=
  be32 (Z.shiftr v 32) ++ be32 v.

(** binary.BigEndian.Uint32, with its bounds check [_ = b[3]] *)
Definition Uint32 (b : list byte) : outcome Z :=
  match b with
  | b0 :: b1 :: b2 :: b3 :: _ =>
      Ok (Z.lor (Z.lor (Z.lor b3 (Z.shiftl b2 8)) (Z.shiftl b1 16)) (Z.shiftl b0 24))
  | _ => Panic IndexOutOfRange
  end.

(** ** crypto/sha1 and crypto/hmac (FIPS 180-4, RFC 2104) *)

Definition rotl32 (x n : Z) : Z :=
  Z.lor (uint32 (Z.shiftl x n)) (Z.shiftr x (32 - n)).

Definition word (b : list byte) : Z :=
  match b with
  | b0 :: b1 :: b2 :: b3 :: _ =>
      Z.lor (Z.lor (Z.lor b3 (Z.shiftl b2 8)) (Z.shiftl b1 16)) (Z.shiftl b0 24)
  | _ => 0
  end.

Fixpoint words (n : nat) (b : list byte) : list Z :=
  match n with
  | O => []
  | S n' => word b :: words n' (drop 4 b)
  end.

(** Message padding: the bit 1, zeros up to 56 modulo 64, the bit length. *)
Definition sha1_pad (msg : list byte) : list byte :=
  let l := Z.of_nat (length msg) in
  msg ++ [0x80] ++ repeat 0 (Z.to_nat ((55 - l) mod 64)) ++ PutUint64 (uint64 (8 * l)).

(** The message schedule: [n] more words after the ones in [w]. *)
Fixpoint schedule (n : nat) (w : list Z) : list Z :=
  match n with
  | O => w
  | S n' =>
      let t := length w in
      let x := Z.lxor (Z.lxor (nth (t - 3) w 0) (nth (t - 8) w 0))
                      (Z.lxor (nth (t - 14) w 0) (nth (t - 16) w 0)) in
      schedule n' (w ++ [rotl32 x 1])
  end.

Definition sha1_f (t : nat) (b c d : Z) : Z :=
  if (t <? 20)%nat then Z.lor (Z.land b c) (Z.land (Z.lxor b 0xFFFFFFFF) d)
  else if (t <? 40)%nat then Z.lxor (Z.lxor b c) d
  else if (t <? 60)%nat then Z.lor (Z.lor (Z.land b c) (Z.land b d)) (Z.land c d)
  else Z.lxor (Z.lxor b c) d.

Definition sha1_k (t : nat) : Z :=
  if (t <? 20)%nat then 0x5A827999
  else if (t <? 40)%nat then 0x6ED9EBA1
  else if (t <? 60)%nat then 0x8F1BBCDC
  else 0xCA62C1D6.

Definition sha1_state : Type := Z * Z * Z * Z * Z.

Definition sha1_round (s : sha1_state) (tw : nat * Z) : sha1_state :=
  let '(a, b, c, d, e) := s in
  let '(t, w) := tw in
  (uint32 (rotl32 a 5 + sha1_f t b c d + e + w + sha1_k t), a, rotl32 b 30, c, d).

Definition sha1_block (h : sha1_state) (blk : list byte) : sha1_state :=
  let w := schedule 64 (words 16 blk) in
  let '(a, b, c, d, e) := fold_left sha1_round (combine (seq 0 80) w) h in
  let '(h0, h1, h2, h3, h4) := h in
  (uint32 (h0 + a), uint32 (h1 + b), uint32 (h2 + c), uint32 (h3 + d), uint32 (h4 + e)).

Fixpoint sha1_blocks (n : nat) (h : sha1_state) (m : list byte) : sha1_state :=
  match n with
  | O => h
  | S n' => sha1_blocks n' (sha1_block h (take 64 m)) (drop 64 m)
  end.

Definition sha1_init : sha1_state :=
  (0x67452301, 0xEFCDAB89, 0x98BADCFE, 0x10325476, 0xC3D2E1F0).

(** sha1.Sum: always [sha1.Size = 20] bytes. *)
Definition sha1_Sum (msg : list byte) : list byte :=
  let p := sha1_pad msg in
  let '(h0, h1, h2, h3, h4) := sha1_blocks (length p / 64) sha1_init p in
  be32 h0 ++ be32 h1 ++ be32 h2 ++ be32 h3 ++ be32 h4.

(** [h := hmac.New(sha1.New, key); h.Write(msg); h.Sum(nil)] *)
Definition hmac_sha1 (key msg : list byte) : list byte :=
  let k0 := if (64 <? length key)%nat then sha1_Sum key else key in
  let k := k0 ++ repeat 0 (64 - length k0)%nat in
  sha1_Sum (map (Z.lxor 0x5C) k ++ sha1_Sum (map (Z.lxor 0x36) k ++ msg)).

(** ** encoding/hex *)

Definition hexdigit (d : Z) : ascii :=
  nth (Z.to_nat d) (list_ascii_of_string "0123456789abcdef") "0"%char.

(** hex.EncodeToString *)
Fixpoint hex_EncodeToString (b : list byte) : string :=
  match b with
  | [] => ""
  | x :: rest => String (hexdigit (x / 16)) (String (hexdigit (x mod 16)) (hex_EncodeToString rest))
  end.

(** ** fmt *)

Definition digit (d : Z) : ascii := ascii_of_byte (0x30 + d).

(** The decimal digits of [v >= 0], most significant first. *)
Fixpoint decimal (fuel : nat) (v : Z) (acc : string) : string :=
  match fuel with
  | O => acc
  | S fuel' =>
      let acc' := String (digit (v mod 10)) acc in
      if v / 10 =? 0 then acc' else decimal fuel' (v / 10) acc'
  end.

Fixpoint zeros (n : nat) : string :=
  match n with O => "" | S n' => String "0" (zeros n') end.

(** [fmt.Sprintf("%06d", v)] for an unsigned 32-bit [v]: at most ten digits,
    padded with zeros on the left to width six. *)
Definition Sprintf_06d (v : Z) : string :=
  let s := decimal 10 v "" in
  zeros (6 - String.length s) +:+ s.

(** ** The process environment *)

Record inode : Type := mkInode { data : list byte; readable : bool }.

Record World : Type := mkWorld {
  clock : Z;                    (* seconds since the epoch, time.Now().Unix() *)
  entropy : list Z;             (* what the calls of rand.Int will be served *)
  home : option string;         (* os.UserHomeDir *)
  mkdir_ok : bool;              (* whether os.MkdirAll succeeds *)
  write_ok : bool;              (* whether os.WriteFile succeeds *)
  write_fault : option nat;     (* where a failing write fails: at the open,
                                   or after the truncation and this many bytes *)
  fs : gmap string inode        (* the regular files, by path *)
}.

Definition set_fs (w : World) (m : gmap string inode) : World :=
  mkWorld (clock w) (entropy w) (home w) (mkdir_ok w) (write_ok w) (write_fault w) m.
Definition set_entropy (w : World) (e : list Z) : World :=
  mkWorld (clock w) e (home w) (mkdir_ok w) (write_ok w) (write_fault w) (fs w).

(** An operation on the environment: its outcome and the environment it
    leaves, also when it fails. *)
Definition IO (A : Type) : Type := World -> outcome A * World.

#[global] Instance IO_ret : MRet IO := fun A a w => (Ok a, w).
#[global] Instance IO_bind : MBind IO := fun A B k m w =>
  match m w with
  | (Ok a, w') => k a w'
  | (Err e, w') => (Err e, w')
  | (Panic p, w') => (Panic p, w')
  end.

Definition lift {A} (o : outcome A) : IO A := fun w => (o, w).
Definition fail {A} (e : error) : IO A := fun w => (Err e, w).

(** [if err != nil { return fmt.Errorf(msg ++ ": %v", err) }] *)
Definition wrap {A} (msg : string) (m : IO A) : IO A := fun w =>
  match m w with
  | (Err e, w') => (Err (Errorf msg e), w')
  | r => r
  end.

(** ** os, path/filepath, time, crypto/rand *)

Definition os_UserHomeDir : IO string := fun w =>
  match home w with
  | Some dir => (Ok dir, w)
  | None => (Err (New "$HOME is not defined"), w)
  end.

(** Directories are not part of [fs]; creating one either works or not. *)
Definition os_MkdirAll (path : string) : IO unit := fun w =>
  if mkdir_ok w then (Ok tt, w) else (Err (PathError "mkdir" path), w).

(** [_, err := os.Stat(path); os.IsNotExist(err)] *)
Definition os_Stat_IsNotExist (path : string) : IO bool := fun w =>
  (Ok (bool_decide (fs w !! path = None)), w).

Definition os_ReadFile (path : string) : IO (list byte) := fun w =>
  match fs w !! path with
  | Some f => if readable f then (Ok (data f), w) else (Err (PathError "open" path), w)
  | None => (Err (PathError "open" path), w)
  end.

(** os.WriteFile opens the file with O_WRONLY|O_CREATE|O_TRUNC, writes and
    closes.  It creates the file or replaces its contents; when it fails, it
    fails at the open, with the file as it was, or later, with the file
    truncated and holding the bytes written so far. *)
Definition os_WriteFile (path : string) (d : list byte) : IO unit := fun w =>
  let r := match fs w !! path with Some f => readable f | None => true end in
  if write_ok w then (Ok tt, set_fs w (<[path := mkInode d r]> (fs w)))
  else
    match write_fault w with
    | None => (Err (PathError "open" path), w)
    | Some k =>
        (Err (PathError "write" path), set_fs w (<[path := mkInode (take k d) r]> (fs w)))
    end.

(** filepath.Join on elements that are already clean. *)
Definition filepath_Join (elems : list string) : string := strings_Join elems "/".

Definition time_Now_Unix (w : World) : Z := clock w.

(** [rand.Int(rand.Reader, big.NewInt(max))]: a value in [0, max), or the
    reader's failure.  The library reads bytes from the reader, masks them
    and tries again until the candidate is below [max]; the embedding does
    not follow the bytes.  An entry of [entropy] stands for one call that
    is served: the call takes it and returns it reduced below [max], and a
    call with no entry left is one at which the reader fails. *)
Definition rand_Int (max : Z) : IO Z := fun w =>
  if max <=? 0 then (Panic RandIntArgument, w) else
  match entropy w with
  | v :: rest => (Ok (v mod max), set_entropy w rest)
  | [] => (Err RandError, w)
  end.

(** ** encoding/json *)

(** The codec of a storage type [T]: [json_Unmarshal] decodes into a value
    whose [Entries] is the empty slice, [json_MarshalIndent] cannot fail on
    records of strings and integers.  Decoding no input at all is the syntax
    error "unexpected end of JSON input". *)
Class JSON (T : Type) : Type := {
  json_Unmarshal : list byte -> outcome T;
  json_MarshalIndent : T -> list byte;
  json_Unmarshal_empty :
    json_Unmarshal [] = Err (SyntaxError "unexpected end of JSON input")
}.

End Go.

Import Go.

(* ===================================================================== *)
(** * Part II.  The program                                              *)
(* ===================================================================== *)

(** ** mfa.go *)

Module Mfa.

Record MFAEntry : Type := mkMFAEntry {
  Account : string;
  Name : string;
  Secret : string;
  Period : Z
}.

Record MFAStorage : Type := mkMFAStorage { Entries : list MFAEntry }.

Section Mfa.
Context `{CaseTables} `{JSON MFAStorage}.

Definition getConfigPath : IO string :=
  homeDir ← wrap "failed to get home directory" os_UserHomeDir;
  let configDir := filepath_Join [homeDir; ".config"; "mfa"] in
  _ ← wrap "failed to create config directory" (os_MkdirAll configDir);
  mret (filepath_Join [configDir; "secrets.json"]).

Definition loadMFAStorage : IO MFAStorage :=
  configPath ← getConfigPath;
  let storage := mkMFAStorage [] in
  notExist ← os_Stat_IsNotExist configPath;
  if notExist : bool then mret storage
  else
    data ← wrap "failed to read config file" (os_ReadFile configPath);
    if Z.of_nat (length data) =? 0 then mret storage
    else
      wrap "failed to parse config file" (lift (json_Unmarshal data)).

Definition saveMFAStorage (storage : MFAStorage) : IO unit :=
  configPath ← getConfigPath;
  let data := json_MarshalIndent storage in
  wrap "failed to write config file" (os_WriteFile configPath data).

(** The test [(char >= 'A' && char <= 'Z') || (char >= '2' && char <= '7')] *)
Definition isBase32Char (char : rune) : bool :=
  ((0x41 <=? char) && (char <=? 0x5A)) || ((0x32 <=? char) && (char <=? 0x37)).

Definition cleanSecret (secret : string) : string :=
  let secret := strings_ToUpper secret in
  let cleaned : Builder :=
    fold_left (fun (cleaned : Builder) (char : rune) =>
                 if isBase32Char char then WriteRune cleaned char else cleaned)
              (range secret) "" in
  let result := cleaned in
  match Z.rem (len result) 8 with
  | 2 => result +:+ "======"
  | 4 => result +:+ "===="
  | 5 => result +:+ "==="
  | 7 => result +:+ "="
  | _ => result
  end.

(** Lines 139 and 142: [counter := now / int64(period)] and
    [remaining := period - int(now%int64(period))]. *)
Definition timeCounter (now period : Z) : outcome Z := quo now period.
Definition remainingSeconds (now period : Z) : outcome Z :=
  r ← rem now period; mret (int64 (period - r)).

(** Lines 168-177 (and 247-249 of [testTOTP]): the dynamic truncation of
    RFC 4226, section 5.3. *)
Definition dynamicTruncation (hash : list byte) : outcome Z :=
  last ← index hash (Z.of_nat (length hash) - 1);
  let offset := Z.land last 0x0f in
  window ← slice hash offset (offset + 4);
  truncatedHash ← Uint32 window;
  mret (Z.land truncatedHash 0x7fffffff).

Definition generateTOTPWithOffset (w : World) (secret : string) (period : Z)
    (timeOffset : Z) : outcome (string * Z) :=
  let cleanedSecret := cleanSecret secret in
  match base32_DecodeString cleanedSecret with
  | Err err => Err (Errorf "invalid secret key after cleaning" err)
  | Panic p => Panic p
  | Ok key =>
      let now := int64 (time_Now_Unix w + timeOffset) in
      counter ← timeCounter now period;
      remaining ← remainingSeconds now period;
      let buf := PutUint64 (uint64 counter) in
      let hash := hmac_sha1 key buf in
      truncatedHash ← dynamicTruncation hash;
      let otp := Sprintf_06d (Z.rem truncatedHash 1000000) in
      mret (otp, remaining)
  end.

Definition generateTOTP (w : World) (secret : string) (period : Z) : outcome (string * Z) :=
  generateTOTPWithOffset w secret period 0.

(** [testTOTP] prints its values; the model returns the test counter and the
    expected code that it prints last. *)
Definition testTOTP : outcome (Z * string) :=
  let testSecret := "12345678901234567890" in
  let testPeriod := 30 in
  let testSecretBytes := bytes testSecret in
  let testTime := 59 in
  testCounter ← quo testTime testPeriod;
  let buf := PutUint64 (uint64 testCounter) in
  let hash := hmac_sha1 testSecretBytes buf in
  truncatedHash ← dynamicTruncation hash;
  let expectedOTP := Sprintf_06d (Z.rem truncatedHash 1000000) in
  mret (testCounter, expectedOTP).

Definition SetupMFA (account name secret : string) (period : Z) : IO unit :=
  _ ← lift testTOTP;
  _ ← wrap "invalid secret key - cannot generate TOTP"
         (fun w => (generateTOTP w secret period, w));
  storage ← loadMFAStorage;
  let newEntry := mkMFAEntry account name secret period in
  match list_find (fun entry => Account entry = account /\ Name entry = name)
                  (Entries storage) with
  | Some (i, _) => saveMFAStorage (mkMFAStorage (<[i := newEntry]> (Entries storage)))
  | None => saveMFAStorage (mkMFAStorage (Entries storage ++ [newEntry]))
  end.

Definition ListMFA : IO (list MFAEntry) :=
  storage ← loadMFAStorage; mret (Entries storage).

(** The loop of [generateTOTPCodes] over the remaining offsets: an error at
    one offset is printed and the loop goes on; the model returns what is
    printed, the offset with its code and remaining seconds. *)
Fixpoint totpCodesAt (w : World) (secret : string) (period : Z) (offsets : list Z)
    : outcome (list (Z * (string * Z))) :=
  match offsets with
  | [] => Ok []
  | offset :: rest =>
      match generateTOTPWithOffset w secret period offset with
      | Err _ => totpCodesAt w secret period rest
      | Panic p => Panic p
      | Ok code =>
          codes ← totpCodesAt w secret period rest;
          mret ((offset, code) :: codes)
      end
  end.

Definition generateTOTPCodes (w : World) (secret : string) (period : Z)
    : outcome (list (Z * (string * Z))) :=
  let offsets := [-60; -30; 0; 30; 60] in
  totpCodesAt w secret period offsets.

Definition GenerateMFA (account name : string) : IO (string * Z) :=
  storage ← loadMFAStorage;
  match list_find (fun entry => Account entry = account /\ Name entry = name)
                  (Entries storage) with
  | Some (_, entry) =>
      _ ← (fun w => (generateTOTPCodes w (Secret entry) (Period entry), w));
      wrap "failed to generate TOTP"
        (fun w => (generateTOTP w (Secret entry) (Period entry), w))
  | None =>
      fail (New ("MFA entry not found for account '" +:+ account
                 +:+ "' and name '" +:+ name +:+ "'"))
  end.

End Mfa.
End Mfa.

(** ** mpin.go *)

Module Mpin.

Record MPINEntry : Type := mkMPINEntry {
  Name : string;
  Account : string;
  PIN : string
}.

Record MPINConfig : Type := mkMPINConfig { Entries : list MPINEntry }.

Section Mpin.
Context `{JSON MPINConfig}.

Definition getMPINConfigPath : IO string :=
  homeDir ← wrap "failed to get home directory" os_UserHomeDir;
  let configDir := filepath_Join [homeDir; ".config"; "mpin"] in
  _ ← wrap "failed to create config directory" (os_MkdirAll configDir);
  mret (filepath_Join [configDir; "pins.json"]).

Definition loadMPINConfig : IO MPINConfig :=
  configPath ← getMPINConfigPath;
  let config := mkMPINConfig [] in
  notExist ← os_Stat_IsNotExist configPath;
  if notExist : bool then mret config
  else
    data ← wrap "failed to read config file" (os_ReadFile configPath);
    wrap "failed to parse config file" (lift (json_Unmarshal data)).

Definition saveMPINConfig (config : MPINConfig) : IO unit :=
  configPath ← getMPINConfigPath;
  let data := json_MarshalIndent config in
  wrap "failed to write config file" (os_WriteFile configPath data).

(** The loop [for i := 0; i < length; i++] of [generateMPIN], with [n]
    iterations to go and the digits written so far. *)
Fixpoint mpinDigits (n : nat) (pin : list byte) : IO (list byte) :=
  match n with
  | O => mret pin
  | S n' =>
      digit ← wrap "failed to generate random digit" (rand_Int 10);
      mpinDigits n' (pin ++ [uint8 (0x30 + digit)])
  end.

Definition generateMPIN (length : Z) : IO string :=
  if length <=? 0 then fail (New "PIN length must be positive")
  else
    pin ← mpinDigits (Z.to_nat length) [];
    mret (of_bytes pin).

Definition AddMPIN (name account : string) (length : Z) : IO unit :=
  if bool_decide (name = "" \/ account = "") then
    fail (New "name and account cannot be empty")
  else if length <=? 0 then
    fail (New "PIN length must be positive")
  else
    config ← loadMPINConfig;
    match list_find (fun entry => Name entry = name /\ Account entry = account)
                    (Entries config) with
    | Some (i, entry) =>
        pin ← generateMPIN length;
        saveMPINConfig
          (mkMPINConfig (<[i := mkMPINEntry (Name entry) (Account entry) pin]> (Entries config)))
    | None =>
        pin ← generateMPIN length;
        let newEntry := mkMPINEntry name account pin in
        saveMPINConfig (mkMPINConfig (Entries config ++ [newEntry]))
    end.

(** [GetMPIN] prints the PIN it finds; the model returns it. *)
Definition GetMPIN (name account : string) : IO string :=
  if bool_decide (name = "" \/ account = "") then
    fail (New "name and account cannot be empty")
  else
    config ← loadMPINConfig;
    match list_find (fun entry => Name entry = name /\ Account entry = account)
                    (Entries config) with
    | Some (_, entry) => mret (PIN entry)
    | None => fail (New ("MPIN not found for " +:+ name +:+ " (" +:+ account +:+ ")"))
    end.

(** [ListMPINs] prints the entries in stored order; the model returns them. *)
Definition ListMPINs : IO (list MPINEntry) :=
  config ← loadMPINConfig; mret (Entries config).

End Mpin.
End Mpin.

(** ** The password store (the source file next to mfa.go and mpin.go) *)

Module Pass.

Record PasswordEntry : Type := mkPasswordEntry {
  Name : string;
  Account : string;
  Password : string;
  Length : Z;
  Config : string
}.

Record PasswordStorage : Type := mkPasswordStorage { Entries : list PasswordEntry }.

Definition lowercase : string := "abcdefghijklmnopqrstuvwxyz".
Definition uppercase : string := "ABCDEFGHIJKLMNOPQRSTUVWXYZ".
Definition digits : string := "0123456789".
Definition allCharacters : string :=
  "abcdefghijklmnopqrstuvwxyzABCDEFGHIJKLMNOPQRSTUVWXYZ0123456789!@#$%^&*()_+-=[]{}|;:,.<>?".

(** Lines 90-109 of [generatePassword]: the character set built from the flags. *)
Definition flagCharset (useSmallAlpha useLargeAlpha useDigits : bool)
    (specialChars : string) : string :=
  let charset := "" in
  let charset := if useSmallAlpha then charset +:+ lowercase else charset in
  let charset := if useLargeAlpha then charset +:+ uppercase else charset in
  let charset := if useDigits then charset +:+ digits else charset in
  if bool_decide (specialChars <> "") then charset +:+ specialChars else charset.

(** Lines 116-120: with no character type at all, every type is used. *)
Definition passwordCharset (useSmallAlpha useLargeAlpha useDigits : bool)
    (specialChars : string) : string :=
  let charset := flagCharset useSmallAlpha useLargeAlpha useDigits specialChars in
  if bool_decide (charset = "") then allCharacters else charset.

(** Lines 153-170 of [AddPassword]: the description stored with the entry. *)
Definition configDescription (useSmallAlpha useLargeAlpha useDigits : bool)
    (specialChars : string) : string :=
  let configParts := [] in
  let configParts := if useSmallAlpha then configParts ++ ["lowercase"] else configParts in
  let configParts := if useLargeAlpha then configParts ++ ["uppercase"] else configParts in
  let configParts := if useDigits then configParts ++ ["digits"] else configParts in
  let configParts :=
    if bool_decide (specialChars <> "")
    then configParts ++ ["special(" +:+ specialChars +:+ ")"] else configParts in
  let config := strings_Join configParts ", " in
  if bool_decide (config = "") then "all (default)" else config.

Section Pass.
Context `{JSON PasswordStorage}.

Definition getPasswordConfigPath : IO string :=
  homeDir ← wrap "failed to get home directory" os_UserHomeDir;
  let configDir := filepath_Join [homeDir; ".config"; "pass"] in
  _ ← wrap "failed to create config directory" (os_MkdirAll configDir);
  mret (filepath_Join [configDir; "passwords.json"]).

Definition loadPasswordStorage : IO PasswordStorage :=
  configPath ← getPasswordConfigPath;
  let storage := mkPasswordStorage [] in
  notExist ← os_Stat_IsNotExist configPath;
  if notExist : bool then mret storage
  else
    data ← wrap "failed to read password config file" (os_ReadFile configPath);
    if Z.of_nat (length data) =? 0 then mret storage
    else
      wrap "failed to parse password config file" (lift (json_Unmarshal data)).

Definition savePasswordStorage (storage : PasswordStorage) : IO unit :=
  configPath ← getPasswordConfigPath;
  let data := json_MarshalIndent storage in
  wrap "failed to write password config file" (os_WriteFile configPath data).

(** The loop [for i := 0; i < length; i++] of [generatePassword]. *)
Fixpoint passwordChars (n : nat) (charset : string) (password : list byte) : IO (list byte) :=
  match n with
  | O => mret password
  | S n' =>
      randomIndex ← wrap "failed to generate random number" (rand_Int (len charset));
      c ← lift (index (bytes charset) randomIndex);
      passwordChars n' charset (password ++ [c])
  end.

Definition generatePassword (length : Z) (useSmallAlpha useLargeAlpha useDigits : bool)
    (specialChars : string) : IO string :=
  if length <=? 0 then fail (New "password length must be greater than 0")
  else
    let charset := passwordCharset useSmallAlpha useLargeAlpha useDigits specialChars in
    if len charset =? 0 then fail (New "no characters available for password generation")
    else
      password ← passwordChars (Z.to_nat length) charset [];
      mret (of_bytes password).

Definition AddPassword (name account : string) (length : Z)
    (useSmallAlpha useLargeAlpha useDigits : bool) (specialChars : string) : IO unit :=
  if bool_decide (name = "" \/ account = "") then
    fail (New "name and account are required")
  else
    password ← wrap "failed to generate password"
                 (generatePassword length useSmallAlpha useLargeAlpha useDigits specialChars);
    let config := configDescription useSmallAlpha useLargeAlpha useDigits specialChars in
    storage ← loadPasswordStorage;
    let newEntry := mkPasswordEntry name account password length config in
    match list_find (fun entry => Name entry = name /\ Account entry = account)
                    (Entries storage) with
    | Some (i, _) =>
        savePasswordStorage (mkPasswordStorage (<[i := newEntry]> (Entries storage)))
    | None =>
        savePasswordStorage (mkPasswordStorage (Entries storage ++ [newEntry]))
    end.

(** [GetPasswords] prints the entries in stored order; the model returns
    them. *)
Definition GetPasswords : IO (list PasswordEntry) :=
  storage ← wrap "error loading passwords" loadPasswordStorage;
  mret (Entries storage).

End Pass.
End Pass.

(** ** main.go: the handler of [add-pass] *)

Module Main.

(** The values of the flags after [fs.Parse]. *)
Record AddPassFlags : Type := mkAddPassFlags {
  flag_l : Z;            (* -l, default 16 *)
  flag_a : bool;         (* -a *)
  flag_A : bool;         (* -A *)
  flag_d : bool;         (* -d *)
  flag_s : string;       (* -s *)
  flag_name : string;    (* --name *)
  flag_account : string  (* --account *)
}.

Definition defaultSpecial : string := "!@#$%^&*()_+-=[]{}|;:,.<>?".

(** What [fs.Parse(os.Args[2:])] does on a flag set made with
    [flag.ExitOnError]: it returns with the values of the flags, or it ends
    the process, with status 2 at an argument it cannot parse and with
    status 0 at [-h] or [-help]. *)
Inductive Parse (F : Type) : Type :=
| Parsed (f : F)
| BadFlag
| HelpFlag.
Arguments Parsed {F} f.
Arguments BadFlag {F}.
Arguments HelpFlag {F}.

Definition afterParse {F : Type} (args : Parse F) (rest : F -> IO Z) : IO Z :=
  match args with
  | Parsed f => rest f
  | BadFlag => mret 2
  | HelpFlag => mret 0
  end.

(** The arguments that [handleAddPassword] passes to [AddPassword]
    (lines 124-138): the flags after the two adjustments. *)
Definition effectiveFlags (f : AddPassFlags) : bool * bool * bool * string :=
  let actualSpecialChars := flag_s f in
  let actualSpecialChars :=
    if bool_decide (flag_s f = "default") then defaultSpecial else actualSpecialChars in
  if negb (flag_a f) && negb (flag_A f) && negb (flag_d f) && bool_decide (flag_s f = "")
  then (true, true, true, defaultSpecial)
  else (flag_a f, flag_A f, flag_d f, actualSpecialChars).

Section Main.
Context `{JSON Pass.PasswordStorage}.

(** The value is the exit status of the process: that of [os.Exit], or 0
    at a normal return. *)
Definition handleAddPassword (args : Parse AddPassFlags) : IO Z :=
  afterParse args (fun f w =>
  if bool_decide (flag_name f = "" \/ flag_account f = "") then (Ok 1, w)
  else
    let '(smallAlpha, largeAlpha, digits, actualSpecialChars) := effectiveFlags f in
    match Pass.AddPassword (flag_name f) (flag_account f) (flag_l f)
            smallAlpha largeAlpha digits actualSpecialChars w with
    | (Err _, w') => (Ok 1, w')
    | (Ok _, w') => (Ok 0, w')
    | (Panic p, w') => (Panic p, w')
    end).

End Main.

(** The flags of the other commands after [fs.Parse]. *)
Record SetupMFAFlags : Type := mkSetupMFAFlags {
  setup_account : string;   (* --account *)
  setup_name : string;      (* --name *)
  setup_k : string;         (* -k *)
  setup_s : Z               (* -s, default 30 *)
}.

Record KeyFlags : Type := mkKeyFlags {
  key_name : string;        (* --name *)
  key_account : string      (* --account *)
}.

Record AddMPINFlags : Type := mkAddMPINFlags {
  mpin_l : Z;               (* -l, default 4 *)
  mpin_name : string;       (* --name *)
  mpin_account : string     (* --account *)
}.

(** [err := f(); if err != nil { fmt.Printf(...); os.Exit(1) }], then the
    normal return: the exit status of the process. *)
Definition exitOnError {A : Type} (m : IO A) : IO Z := fun w =>
  match m w with
  | (Ok _, w') => (Ok 0, w')
  | (Err _, w') => (Ok 1, w')
  | (Panic p, w') => (Panic p, w')
  end.

Section Handlers.
Context `{CaseTables} `{JSON Mfa.MFAStorage} `{JSON Pass.PasswordStorage}
        `{JSON Mpin.MPINConfig}.

Definition handleSetupMFA (args : Parse SetupMFAFlags) : IO Z :=
  afterParse args (fun f =>
  if bool_decide (setup_account f = "" \/ setup_name f = "" \/ setup_k f = "") then mret 1
  else exitOnError (Mfa.SetupMFA (setup_account f) (setup_name f) (setup_k f) (setup_s f))).

Definition handleList : IO Z := exitOnError Mfa.ListMFA.

Definition handleGenerate (args : Parse KeyFlags) : IO Z :=
  afterParse args (fun f =>
  if bool_decide (key_account f = "" \/ key_name f = "") then mret 1
  else exitOnError (Mfa.GenerateMFA (key_account f) (key_name f))).

Definition handleGetPasswords : IO Z := exitOnError Pass.GetPasswords.

Definition handleAddMPIN (args : Parse AddMPINFlags) : IO Z :=
  afterParse args (fun f =>
  if bool_decide (mpin_name f = "" \/ mpin_account f = "") then mret 1
  else exitOnError (Mpin.AddMPIN (mpin_name f) (mpin_account f) (mpin_l f))).

Definition handleGetMPIN (args : Parse KeyFlags) : IO Z :=
  afterParse args (fun f =>
  if bool_decide (key_name f = "" \/ key_account f = "") then mret 1
  else exitOnError (Mpin.GetMPIN (key_name f) (key_account f))).

Definition handleListMPINs : IO Z := exitOnError Mpin.ListMPINs.

End Handlers.
End Main.

(** ** The earlier revision of the TOTP engine kept at the end of main.go *)

Module Legacy.
Section Legacy.
Context `{CaseTables}.

Definition cleanSecret (secret : string) : string :=
  strings_ToUpper (remove_spaces secret).

Definition generateTOTP (w : World) (secret : string) (period : Z) : outcome (string * Z) :=
  let cleanedSecret := cleanSecret secret in
  match base32_DecodeString cleanedSecret with
  | Err err => Err (Errorf "invalid secret key" err)
  | Panic p => Panic p
  | Ok key =>
      let now := time_Now_Unix w in
      counter ← quo now period;
      r ← rem now period;
      let remaining := int64 (period - r) in
      let buf := PutUint64 (uint64 counter) in
      let hash := hmac_sha1 key buf in
      last ← index hash 19;
      let offset := Z.land last 0x0f in
      window ← slice hash offset (uint8 (offset + 4));
      v ← Uint32 window;
      let code := Z.land v 0x7fffffff in
      let otp := Sprintf_06d (Z.rem code 1000000) in
      mret (otp, remaining)
  end.

End Legacy.
End Legacy.

(* ===================================================================== *)
(** * Part III.  The specification's wording, and a sample environment   *)
(* ===================================================================== *)

Module Spec.

(** Section 4.1, Normalization: the canonical Base32 alphabet, the padding
    table, and the normal form of a secret. *)
Definition in_alphabet (c : rune) : bool :=
  existsb (Z.eqb c) (bytes "ABCDEFGHIJKLMNOPQRSTUVWXYZ234567").

Definition padding_table (remainder : Z) : nat :=
  if remainder =? 2 then 6
  else if remainder =? 4 then 4
  else if remainder =? 5 then 3
  else if remainder =? 7 then 1
  else 0.

Fixpoint pads (n : nat) : string :=
  match n with O => "" | S n' => String "=" (pads n') end.

(** The characters of a text are its Unicode scalar values, written in
    UTF-8 (RFC 3629): one to four bytes, a leading byte and continuation
    bytes that carry six bits each, in the shortest form, no surrogate and
    nothing above U+10FFFF.  A byte that begins no such form counts as one
    character, the replacement character U+FFFD. *)
Definition continuation_bits (b : option Z) : option Z :=
  match b with
  | Some b => if (0x80 <=? b) && (b <? 0xC0) then Some (b - 0x80) else None
  | None => None
  end.

Definition scalar_value (v : Z) : bool :=
  (v <? 0xD800) || ((0xDFFF <? v) && (v <=? 0x10FFFF)).

Definition character (p : list Z) : option (Z * nat) :=
  match p with
  | [] => None
  | b0 :: t =>
      if b0 <? 0x80 then Some (b0, 1%nat)
      else if b0 <? 0xC0 then None
      else if b0 <? 0xE0 then
        t1 ← continuation_bits (t !! 0%nat);
        let v := (b0 - 0xC0) * 64 + t1 in
        if 0x80 <=? v then Some (v, 2%nat) else None
      else if b0 <? 0xF0 then
        t1 ← continuation_bits (t !! 0%nat);
        t2 ← continuation_bits (t !! 1%nat);
        let v := (b0 - 0xE0) * 4096 + t1 * 64 + t2 in
        if (0x800 <=? v) && scalar_value v then Some (v, 3%nat) else None
      else if b0 <? 0xF8 then
        t1 ← continuation_bits (t !! 0%nat);
        t2 ← continuation_bits (t !! 1%nat);
        t3 ← continuation_bits (t !! 2%nat);
        let v := (b0 - 0xF0) * 262144 + t1 * 4096 + t2 * 64 + t3 in
        if (0x10000 <=? v) && scalar_value v then Some (v, 4%nat) else None
      else None
  end.

Fixpoint characters_of (fuel : nat) (p : list Z) : list Z :=
  match fuel, p with
  | S fuel', _ :: t =>
      match character p with
      | Some (v, n) => v :: characters_of fuel' (drop n p)
      | None => 0xFFFD :: characters_of fuel' t
      end
  | _, _ => []
  end.

Definition characters (s : string) : list Z :=
  characters_of (length (bytes s)) (bytes s).

(** Case folding to upper case: the letters a to z become A to Z, no other
    ASCII character changes, and a character outside ASCII becomes what the
    Unicode case tables give for it. *)
Definition upper `{CaseTables} (c : Z) : Z :=
  if (0x61 <=? c) && (c <=? 0x7A) then c - 0x20
  else if c <? 0x80 then c
  else To_UpperCase c.

(** Section 4.1, Normalization: the secret is folded to upper case and every
    character outside the alphabet is discarded. *)
Definition kept `{CaseTables} (secret : string) : list Z :=
  List.filter in_alphabet (map upper (characters secret)).

(** The data characters followed by the padding their number calls for. *)
Definition padded (data : list rune) : string :=
  of_bytes data +:+ pads (padding_table (Z.of_nat (length data) mod 8)).

Definition normalize `{CaseTables} (secret : string) : string :=
  padded (kept secret).

(** A canonical padded Base32 string: data characters of the alphabet, in a
    number that leaves a valid remainder, and the standard padding. *)
Definition canonical (s : string) : Prop :=
  exists data : list rune,
    Forall (fun c => in_alphabet c = true) data /\
    (let r := Z.of_nat (length data) mod 8 in r <> 1 /\ r <> 3 /\ r <> 6) /\
    s = padded data.

(** Section 3 and 4.2, upsert: [new] is [old] with the first entry that
    satisfies [same_key] replaced by [e] where it stood, or with [e] added
    at the end when there is none. *)
Definition upserted {E : Type} (same_key : E -> Prop) (e : E) (old new : list E) : Prop :=
  (exists (i : nat) (x : E),
      old !! i = Some x /\ same_key x /\
      (forall (j : nat) (y : E), old !! j = Some y -> same_key y -> (i <= j)%nat) /\
      length new = length old /\
      new !! i = Some e /\
      (forall j : nat, j <> i -> new !! j = old !! j))
  \/ (Forall (fun x => ~ same_key x) old /\ new = old ++ [e]).

End Spec.


(** Where each store keeps its file, below the home directory [h]. *)
Module Layout.
Definition mfa (h : string) : string :=
  filepath_Join [filepath_Join [h; ".config"; "mfa"]; "secrets.json"].
Definition pass (h : string) : string :=
  filepath_Join [filepath_Join [h; ".config"; "pass"]; "passwords.json"].
Definition mpin (h : string) : string :=
  filepath_Join [filepath_Join [h; ".config"; "mpin"]; "pins.json"].
End Layout.

(** Ranges of bytes used in the statements below. *)
Definition is_byte (b : Z) : Prop := 0 <= b < 256.
Definition is_ascii (c : Z) : Prop := 0 <= c < 0x80.
Definition is_digit (c : Z) : Prop := 0x30 <= c <= 0x39.

(** The world after [n] values were drawn from the random source. *)
Definition drawn (n : nat) (w : World) : World := set_entropy w (drop n (entropy w)).

(** The world after [d] was written to the readable file [path]. *)
Definition written (path : string) (d : list Z) (w : World) : World :=
  set_fs w (<[path := mkInode d true]> (fs w)).


(** What a load returns, read off the environment: [parse] is what is done
    with the bytes of a readable file. *)
Definition load_result {T : Type} (path : string -> string) (dir : string)
    (readmsg : string) (parse : list Z -> outcome T) (empty : T) (w : World)
    : outcome T * World :=
  match home w with
  | None => (Err (Errorf "failed to get home directory" (New "$HOME is not defined")), w)
  | Some h =>
      if mkdir_ok w then
        match fs w !! path h with
        | None => (Ok empty, w)
        | Some f =>
            if readable f then (parse (data f), w)
            else (Err (Errorf readmsg (PathError "open" (path h))), w)
        end
      else
        (Err (Errorf "failed to create config directory"
                (PathError "mkdir" (filepath_Join [h; ".config"; dir]))), w)
  end.

(** The guard [len(data) == 0] in front of [json.Unmarshal]. *)
Definition guarded {T : Type} `{JSON T} (parsemsg : string) (empty : T)
    (d : list Z) : outcome T :=
  if Z.of_nat (length d) =? 0 then Ok empty
  else match json_Unmarshal d with
       | Err e => Err (Errorf parsemsg e)
       | r => r
       end.

Definition unguarded {T : Type} `{JSON T} (parsemsg : string) (d : list Z) : outcome T :=
  match json_Unmarshal d with
  | Err e => Err (Errorf parsemsg e)
  | r => r
  end.

(** What a save of the bytes [d] does. *)
Definition save_result (path : string -> string) (dir : string) (writemsg : string)
    (d : list Z) (w : World) : outcome unit * World :=
  match home w with
  | None => (Err (Errorf "failed to get home directory" (New "$HOME is not defined")), w)
  | Some h =>
      if mkdir_ok w then
        let r := match fs w !! path h with
                 | Some f => readable f
                 | None => true
                 end in
        if write_ok w then
          (Ok tt, set_fs w (<[path h := mkInode d r]> (fs w)))
        else
          match write_fault w with
          | None => (Err (Errorf writemsg (PathError "open" (path h))), w)
          | Some k =>
              (Err (Errorf writemsg (PathError "write" (path h))),
               set_fs w (<[path h := mkInode (take k d) r]> (fs w)))
          end
      else
        (Err (Errorf "failed to create config directory"
                (PathError "mkdir" (filepath_Join [h; ".config"; dir]))), w)
  end.

(** The byte-wise upper case that [strings.ToUpper] applies to a string of
    ASCII bytes. *)
Definition upper_byte (c : Z) : Z :=
  if (0x61 <=? c) && (c <=? 0x7A) then c - (0x61 - 0x41) else c.

(** The runes that [EncodeRune] writes as themselves; any other is written
    as U+FFFD. *)
Definition valid_rune (r : Z) : bool :=
  (0 <=? r) && (r <=? MaxRune) && negb ((0xD800 <=? r) && (r <=? 0xDFFF)).

(** The world at another second of the clock. *)
Definition set_clock (w : World) (t : Z) : World :=
  mkWorld t (entropy w) (home w) (mkdir_ok w) (write_ok w) (write_fault w) (fs w).

(** Two worlds that differ at most in what is left of the random source and
    in the files. *)
Definition same_settings (w w' : World) : Prop :=
  clock w' = clock w /\ home w' = home w /\
  mkdir_ok w' = mkdir_ok w /\ write_ok w' = write_ok w /\
  write_fault w' = write_fault w.

(** Two worlds with the same settings and the same files. *)
Definition unchanged (w w' : World) : Prop := same_settings w w' /\ fs w' = fs w.

(** The files of [w'] are those of [w] after a write to the file at [path]
    below the home directory failed part of the way: the file is left with
    the first bytes of what was to be written. *)
Definition torn (path : string -> string) (w w' : World) : Prop :=
  exists (h : string) (d : list Z) (k : nat),
    home w = Some h /\ write_ok w = false /\ write_fault w = Some k /\
    fs w' = <[path h := mkInode (take k d) true]> (fs w).

(** What a mutating operation may do to the files.  When it returns normally
    the file at [path] below the home directory was written and no other;
    when it panics no file has changed; when it returns an error no file has
    changed either, unless the error is that of a write that failed part of
    the way. *)
Definition writes_only {A : Type} (path : string -> string) (w : World)
    (r : outcome A * World) : Prop :=
  same_settings w r.2 /\
  match r.1 with
  | Ok _ =>
      exists (h : string) (d : list Z),
        home w = Some h /\ fs r.2 = <[path h := mkInode d true]> (fs w)
  | Err _ => fs r.2 = fs w \/ torn path w r.2
  | Panic _ => fs r.2 = fs w
  end.

(** What a handler of a mutating command may do once its flags are parsed:
    it ends with exit status 0 after the file at [path] was written, or with
    exit status 1 and the files as [writes_only] allows at an error, or in a
    panic with no file touched; an error never escapes it. *)
Definition exits_cleanly (path : string -> string) (w : World)
    (r : outcome Z * World) : Prop :=
  same_settings w r.2 /\
  match r.1 with
  | Ok status =>
      (status = 0 /\
       exists (h : string) (d : list Z),
         home w = Some h /\ fs r.2 = <[path h := mkInode d true]> (fs w))
      \/ (status = 1 /\ (fs r.2 = fs w \/ torn path w r.2))
  | Err _ => False
  | Panic _ => fs r.2 = fs w
  end.

(** The bytes [d] decode to the collection they were encoded from. *)
Definition decodes_back (T : Type) `{JSON T} (d : list Z) : Prop :=
  forall s : T, json_MarshalIndent s = d -> json_Unmarshal d = Ok s.

(** The digit and the character that one random value selects. *)
Definition digit_of (v : Z) : Z := 0x30 + v mod 10.
Definition char_of (charset : string) (v : Z) : Z :=
  nth (Z.to_nat (v mod len charset)) (bytes charset) 0.

(** A concrete environment on which the operations can be run: the rows of
    the case tables that reach the ASCII letters, and a codec that writes a
    collection as the binary digits of its code number. *)
Module Sample.

Definition tables : CaseTables :=
  {| To_UpperCase := fun r =>
       if r =? 0x131 then 0x49 else if r =? 0x17F then 0x53 else r |}.

Fixpoint pos_bytes (p : positive) : list byte :=
  match p with
  | xH => [0x31]
  | xO q => 0x30 :: pos_bytes q
  | xI q => 0x31 :: pos_bytes q
  end.

Fixpoint bytes_pos (b : list byte) : option positive :=
  match b with
  | [] => None
  | c :: rest =>
      match rest with
      | [] => if c =? 0x31 then Some xH else None
      | _ =>
          match bytes_pos rest with
          | Some q =>
              if c =? 0x30 then Some (xO q)
              else if c =? 0x31 then Some (xI q) else None
          | None => None
          end
      end
  end.

Definition unmarshal {E T : Type} `{Countable E} (mk : list E -> T)
    (b : list byte) : outcome T :=
  match b with
  | [] => Err (SyntaxError "unexpected end of JSON input")
  | _ =>
      match bytes_pos b ≫= decode with
      | Some l => Ok (mk l)
      | None => Err (SyntaxError "invalid character")
      end
  end.

#[local] Instance mfa_entry_eq : EqDecision Mfa.MFAEntry.
Proof. solve_decision. Defined.
#[local] Instance mfa_entry_countable : Countable Mfa.MFAEntry.
Proof.
  refine (inj_countable'
            (fun e => (Mfa.Account e, Mfa.Name e, Mfa.Secret e, Mfa.Period e))
            (fun t => let '(a, n, s, p) := t in Mfa.mkMFAEntry a n s p) _).
  by intros [].
Defined.

#[local] Instance mpin_entry_eq : EqDecision Mpin.MPINEntry.
Proof. solve_decision. Defined.
#[local] Instance mpin_entry_countable : Countable Mpin.MPINEntry.
Proof.
  refine (inj_countable'
            (fun e => (Mpin.Name e, Mpin.Account e, Mpin.PIN e))
            (fun t => let '(n, a, p) := t in Mpin.mkMPINEntry n a p) _).
  by intros [].
Defined.

#[local] Instance pass_entry_eq : EqDecision Pass.PasswordEntry.
Proof. solve_decision. Defined.
#[local] Instance pass_entry_countable : Countable Pass.PasswordEntry.
Proof.
  refine (inj_countable'
            (fun e => (Pass.Name e, Pass.Account e, Pass.Password e, Pass.Length e, Pass.Config e))
            (fun t => let '(n, a, p, l, c) := t in Pass.mkPasswordEntry n a p l c) _).
  by intros [].
Defined.

Definition mfa_json : JSON Mfa.MFAStorage :=
  {| json_Unmarshal := unmarshal Mfa.mkMFAStorage;
     json_MarshalIndent := fun s => pos_bytes (encode (Mfa.Entries s));
     json_Unmarshal_empty := eq_refl |}.

Definition mpin_json : JSON Mpin.MPINConfig :=
  {| json_Unmarshal := unmarshal Mpin.mkMPINConfig;
     json_MarshalIndent := fun s => pos_bytes (encode (Mpin.Entries s));
     json_Unmarshal_empty := eq_refl |}.

Definition pass_json : JSON Pass.PasswordStorage :=
  {| json_Unmarshal := unmarshal Pass.mkPasswordStorage;
     json_MarshalIndent := fun s => pos_bytes (encode (Pass.Entries s));
     json_Unmarshal_empty := eq_refl |}.

(** A fresh home directory at second 59, with twelve random values ready. *)
Definition fresh : World :=
  mkWorld 59 [3; 141; 59; 26; 535; 89; 79; 323; 84; 62; 64; 33]
          (Some "/home/u") true true None ∅.

(** The same with one file in place. *)
Definition with_file (path : string) (d : list byte) : World :=
  set_fs fresh (<[path := mkInode d true]> ∅).

(** Two accounts in the MFA store. *)
Definition google : Mfa.MFAEntry := Mfa.mkMFAEntry "google" "a@b" "GEZDGNBVGY3TQOJQ" 30.
Definition github : Mfa.MFAEntry := Mfa.mkMFAEntry "github" "a@b" "MZXW6YTBOI======" 60.
Definition two_accounts : World :=
  with_file (Layout.mfa "/home/u")
    (@json_MarshalIndent _ mfa_json (Mfa.mkMFAStorage [google; github])).

(** The three files present, each of length zero. *)
Definition empty_files : World :=
  set_fs fresh
    (<[Layout.mpin "/home/u" := mkInode [] true]>
       (<[Layout.pass "/home/u" := mkInode [] true]>
          (<[Layout.mfa "/home/u" := mkInode [] true]> ∅))).

End Sample.

(** Boolean comparisons, in either orientation of the equation. *)
Ltac blia := first [lia | symmetry; lia].

(** One case analysis on the first test of the goal, the impossible case
    closed by arithmetic. *)
Ltac split_if :=
  match goal with
  | |- context [if ?b then _ else _] =>
      let E := fresh "E" in destruct b eqn:E; try (exfalso; lia)
  end.

(** Unfolding an operation up to the configuration directory. *)
Ltac io_cases w :=
  unfold mbind, IO_bind, mret, IO_ret, wrap, lift, fail,
    os_UserHomeDir, os_MkdirAll, os_Stat_IsNotExist, os_ReadFile, os_WriteFile;
  destruct (home w) as [h|]; [|reflexivity];
  destruct (mkdir_ok w); [|reflexivity];
  cbv beta iota zeta.

(* ===================================================================== *)
(** * Part IV.  Properties                                               *)
(* ===================================================================== *)

(** ** The library model on published test vectors *)

(** FIPS 180-4 examples for SHA-1. *)
Example sha1_abc :
  hex_EncodeToString (sha1_Sum (bytes "abc")) = "a9993e364706816aba3e25717850c26c9cd0d89d".
Proof. vm_compute. reflexivity. Qed.

Example sha1_empty :
  hex_EncodeToString (sha1_Sum []) = "da39a3ee5e6b4b0d3255bfef95601890afd80709".
Proof. vm_compute. reflexivity. Qed.

Example sha1_two_blocks :
  hex_EncodeToString
    (sha1_Sum (bytes "abcdbcdecdefdefgefghfghighijhijkijkljklmklmnlmnomnopnopq"))
  = "84983e441c3bd26ebaae4aa1f95129e5e54670f1".
Proof. vm_compute. reflexivity. Qed.

(** RFC 2202, HMAC-SHA1 test cases 1, 2 and 6 (a key longer than a block). *)
Example hmac_sha1_case1 :
  hex_EncodeToString (hmac_sha1 (repeat 0x0b 20) (bytes "Hi There"))
  = "b617318655057264e28bc0b6fb378c8ef146be00".
Proof. vm_compute. reflexivity. Qed.

Example hmac_sha1_case2 :
  hex_EncodeToString (hmac_sha1 (bytes "Jefe") (bytes "what do ya want for nothing?"))
  = "effcdf6ae5eb2fa2d27416d5f184df9c259a7c79".
Proof. vm_compute. reflexivity. Qed.

Example hmac_sha1_case6 :
  hex_EncodeToString
    (hmac_sha1 (repeat 0xaa 80)
       (bytes "Test Using Larger Than Block-Size Key - Hash Key First"))
  = "aa4ae5e15272d00e95705637ce8a3b55ed402112".
Proof. vm_compute. reflexivity. Qed.

(** RFC 4226, appendix D: the HMAC of counter 1 under the test key. *)
Example hotp_counter_1 :
  hex_EncodeToString (hmac_sha1 (bytes "12345678901234567890") (PutUint64 1))
  = "75a48a19d4cbe100644e8ac1397eea747a2d33ab".
Proof. vm_compute. reflexivity. Qed.

(** RFC 4648, section 10: the Base32 test vectors, and malformed input. *)
Example base32_vectors :
  base32_DecodeString "" = Ok (bytes "") /\
  base32_DecodeString "MY======" = Ok (bytes "f") /\
  base32_DecodeString "MZXQ====" = Ok (bytes "fo") /\
  base32_DecodeString "MZXW6===" = Ok (bytes "foo") /\
  base32_DecodeString "MZXW6YQ=" = Ok (bytes "foob") /\
  base32_DecodeString "MZXW6YTB" = Ok (bytes "fooba") /\
  base32_DecodeString "MZXW6YTBOI======" = Ok (bytes "foobar").
Proof. repeat split; vm_compute; reflexivity. Qed.

Example base32_malformed :
  is_err (base32_DecodeString "MZXW6") = true /\
  is_err (base32_DecodeString "MY=====") = true /\
  is_err (base32_DecodeString "M=======") = true /\
  is_err (base32_DecodeString "MZX=====") = true /\
  is_err (base32_DecodeString "mzxw6===") = true /\
  is_err (base32_DecodeString "MZXW1===") = true.
Proof. repeat split; vm_compute; reflexivity. Qed.

(** UTF-8: a two-byte rune between two ASCII bytes, and an invalid byte. *)
Example range_long_s :
  range (of_bytes [0x61; 0xC5; 0xBF; 0x62]) = [0x61; 0x17F; 0x62] /\
  range (of_bytes [0x61; 0xFF; 0x62]) = [0x61; RuneError; 0x62] /\
  EncodeRune 0x17F = [0xC5; 0xBF].
Proof. repeat split; vm_compute; reflexivity. Qed.

Example Sprintf_06d_pads : Sprintf_06d 7082 = "007082" /\ Sprintf_06d 0 = "000000".
Proof. split; vm_compute; reflexivity. Qed.

(** The secret of the usage text of main.go, and a letter outside ASCII
    whose upper case is in the alphabet. *)
Example cleanSecret_usage :
  @Mfa.cleanSecret Sample.tables "rfg3 oi7l zdiy 2yha sypa gdm6 g3qa d3pc"
  = "RFG3OI7LZDIY2YHASYPAGDM6G3QAD3PC" /\
  @Mfa.cleanSecret Sample.tables "my-fo1" = "MYFO====" /\
  @Mfa.cleanSecret Sample.tables (of_bytes [0x6D; 0xC5; 0xBF]) = "MS======".
Proof. repeat split; vm_compute; reflexivity. Qed.

(** ** Strings and bytes *)

Lemma byte_of_ascii_range (a : ascii) : is_byte (byte_of_ascii a).
Proof.
  unfold is_byte, byte_of_ascii.
  pose proof (N_ascii_bounded a). lia.
Qed.

Lemma ascii_of_byte_of_ascii (a : ascii) : ascii_of_byte (byte_of_ascii a) = a.
Proof.
  unfold ascii_of_byte, uint8.
  pose proof (byte_of_ascii_range a) as Hr. unfold is_byte in Hr.
  rewrite Z.mod_small by (change (2 ^ 8) with 256; lia).
  unfold byte_of_ascii. rewrite N2Z.id. apply ascii_N_embedding.
Qed.

Lemma byte_of_ascii_of_byte (b : Z) : is_byte b -> byte_of_ascii (ascii_of_byte b) = b.
Proof.
  intros Hb. unfold is_byte in Hb. unfold ascii_of_byte, byte_of_ascii, uint8.
  rewrite Z.mod_small by (change (2 ^ 8) with 256; lia).
  rewrite N_ascii_embedding by lia. lia.
Qed.

Lemma bytes_String (a : ascii) (s : string) :
  bytes (String a s) = byte_of_ascii a :: bytes s.
Proof. reflexivity. Qed.

Lemma of_bytes_cons (b : Z) (l : list Z) :
  of_bytes (b :: l) = String (ascii_of_byte b) (of_bytes l).
Proof. reflexivity. Qed.

Lemma of_bytes_bytes (s : string) : of_bytes (bytes s) = s.
Proof.
  induction s as [|a s IH]; [reflexivity|].
  rewrite bytes_String, of_bytes_cons, IH, ascii_of_byte_of_ascii. reflexivity.
Qed.

Lemma bytes_of_bytes (l : list Z) : Forall is_byte l -> bytes (of_bytes l) = l.
Proof.
  induction 1 as [|b l Hb _ IH]; [reflexivity|].
  rewrite of_bytes_cons, bytes_String, IH, byte_of_ascii_of_byte by exact Hb.
  reflexivity.
Qed.

Lemma bytes_is_byte (s : string) : Forall is_byte (bytes s).
Proof.
  induction s as [|a s IH]; [constructor|].
  rewrite bytes_String. constructor; [apply byte_of_ascii_range | exact IH].
Qed.

Lemma append_String (a : ascii) (s t : string) :
  String a s +:+ t = String a (s +:+ t).
Proof. reflexivity. Qed.

Lemma bytes_app (s t : string) : bytes (s +:+ t) = bytes s ++ bytes t.
Proof.
  induction s as [|a s IH]; [reflexivity|].
  rewrite append_String, !bytes_String, IH. reflexivity.
Qed.

Lemma of_bytes_app (l m : list Z) : of_bytes (l ++ m) = of_bytes l +:+ of_bytes m.
Proof.
  induction l as [|b l IH]; [reflexivity|].
  change ((b :: l) ++ m) with (b :: (l ++ m)).
  rewrite !of_bytes_cons, IH. reflexivity.
Qed.

Lemma length_bytes (s : string) : length (bytes s) = String.length s.
Proof.
  induction s as [|a s IH]; [reflexivity|].
  rewrite bytes_String. cbn. f_equal. exact IH.
Qed.

Lemma length_of_bytes (l : list Z) : String.length (of_bytes l) = length l.
Proof.
  induction l as [|b l IH]; [reflexivity|].
  rewrite of_bytes_cons. cbn. f_equal. exact IH.
Qed.

Lemma append_assoc (s t u : string) : (s +:+ t) +:+ u = s +:+ (t +:+ u).
Proof.
  induction s as [|a s IH]; [reflexivity|].
  rewrite !append_String, IH. reflexivity.
Qed.

Lemma append_empty_r (s : string) : s +:+ "" = s.
Proof.
  induction s as [|a s IH]; [reflexivity|].
  rewrite !append_String, IH. reflexivity.
Qed.

Lemma length_append (s t : string) :
  String.length (s +:+ t) = (String.length s + String.length t)%nat.
Proof.
  induction s as [|a s IH]; [reflexivity|].
  rewrite append_String. cbn [String.length Nat.add]. f_equal. exact IH.
Qed.

(** ** The Base32 alphabet *)

Lemma isBase32Char_spec (c : Z) :
  Mfa.isBase32Char c = true <-> (0x41 <= c <= 0x5A \/ 0x32 <= c <= 0x37).
Proof. unfold Mfa.isBase32Char. lia. Qed.

Lemma in_alphabet_isBase32Char (c : Z) : Spec.in_alphabet c = Mfa.isBase32Char c.
Proof.
  destruct (decide (0x32 <= c <= 0x5A)) as [Hc|Hc].
  - assert (Hn : c = 0x32 + Z.of_nat (Z.to_nat (c - 0x32))) by lia.
    assert (Hb : (Z.to_nat (c - 0x32) <= 40)%nat) by lia.
    revert Hn Hb. generalize (Z.to_nat (c - 0x32)). intros n -> Hb.
    do 41 (destruct n as [|n]; [vm_compute; reflexivity|]).
    lia.
  - assert (Hf : Mfa.isBase32Char c = false).
    { apply not_true_is_false. rewrite isBase32Char_spec. lia. }
    rewrite Hf. apply not_true_is_false. intros Hex.
    apply existsb_exists in Hex. destruct Hex as [x [Hin Hx]].
    apply Z.eqb_eq in Hx. subst x. vm_compute in Hin.
    repeat (destruct Hin as [Hin|Hin]; [lia|]). destruct Hin.
Qed.

(** ** UTF-8 on ASCII strings *)


Lemma is_ascii_is_byte (l : list Z) : Forall is_ascii l -> Forall is_byte l.
Proof. apply Forall_impl. unfold is_ascii, is_byte. lia. Qed.

Lemma EncodeRune_ascii (c : Z) : is_ascii c -> EncodeRune c = [c].
Proof.
  unfold is_ascii, EncodeRune. intros Hc.
  replace ((0 <=? c) && (c <=? 0x7F)) with true by blia. reflexivity.
Qed.

Lemma range_bytes_ascii (l : list Z) (fuel : nat) :
  Forall is_ascii l -> (length l <= fuel)%nat -> range_bytes fuel l = l.
Proof.
  intros Hl. revert fuel.
  induction Hl as [|c l Hc _ IH]; intros fuel Hf.
  - destruct fuel; reflexivity.
  - change (length (c :: l)) with (S (length l)) in Hf.
    destruct fuel as [|fuel]; [lia|].
    unfold is_ascii in Hc. cbn [range_bytes DecodeRune].
    replace (c <? RuneSelf) with true by (unfold RuneSelf; blia).
    cbn [drop]. rewrite IH by lia. reflexivity.
Qed.

Lemma range_ascii (l : list Z) : Forall is_ascii l -> range (of_bytes l) = l.
Proof.
  intros Hl. unfold range.
  rewrite bytes_of_bytes by (apply is_ascii_is_byte, Hl).
  apply range_bytes_ascii; [exact Hl | apply Nat.le_refl].
Qed.


(** ** UTF-8: the decoder of the library and the characters of a text *)

Lemma lor_plus (c x k : Z) :
  0 <= k -> 0 <= x < 2 ^ k -> Z.lor (c * 2 ^ k) x = c * 2 ^ k + x.
Proof.
  intros Hk Hx. symmetry. apply Z.add_nocarry_lor.
  rewrite <- (Z.mod_small x (2 ^ k)) by exact Hx.
  rewrite <- Z.land_ones by exact Hk.
  rewrite (Z.land_comm x), Z.land_assoc, (Z.land_ones (c * 2 ^ k)) by exact Hk.
  rewrite Z.mod_mul by lia. apply Z.land_0_l.
Qed.

Lemma land_low (x k : Z) : 0 <= k -> Z.land x (2 ^ k - 1) = x mod 2 ^ k.
Proof.
  intros Hk. rewrite <- Z.land_ones by exact Hk. f_equal.
  rewrite Z.ones_equiv. lia.
Qed.

(** The bit operations of [EncodeRune] and [DecodeRune], as arithmetic. *)
Lemma lead2 (q : Z) : 0 <= q < 32 -> Z.lor 0xC0 q = 0xC0 + q.
Proof. intros Hq. apply (lor_plus 6 q 5); lia. Qed.

Lemma lead3 (q : Z) : 0 <= q < 16 -> Z.lor 0xE0 q = 0xE0 + q.
Proof. intros Hq. apply (lor_plus 14 q 4); lia. Qed.

Lemma lead4 (q : Z) : 0 <= q < 8 -> Z.lor 0xF0 q = 0xF0 + q.
Proof. intros Hq. apply (lor_plus 30 q 3); lia. Qed.

Lemma tail6 (x : Z) : Z.lor 0x80 (Z.land x 0x3F) = 0x80 + x mod 64.
Proof.
  change 0x3F with (2 ^ 6 - 1). rewrite (land_low x 6) by lia. change (2 ^ 6) with 64.
  pose proof (Z.mod_pos_bound x 64 ltac:(lia)).
  apply (lor_plus 2 (x mod 64) 6); lia.
Qed.

Lemma shiftr_div (x k : Z) : 0 <= k -> Z.shiftr x k = x / 2 ^ k.
Proof. apply Z.shiftr_div_pow2. Qed.

Lemma join6 (a b : Z) : 0 <= b < 64 -> Z.lor (Z.shiftl a 6) b = a * 64 + b.
Proof.
  intros Hb. rewrite Z.shiftl_mul_pow2 by lia. apply (lor_plus a b 6); lia.
Qed.

Lemma join12 (a b c : Z) :
  0 <= b < 64 -> 0 <= c < 64 ->
  Z.lor (Z.lor (Z.shiftl a 12) (Z.shiftl b 6)) c = a * 4096 + b * 64 + c.
Proof.
  intros Hb Hc. rewrite !Z.shiftl_mul_pow2 by lia.
  change (2 ^ 12) with (64 * 2 ^ 6). change (2 ^ 6) with 64.
  replace (a * (64 * 64)) with ((a * 64) * 2 ^ 6) by (change (2 ^ 6) with 64; lia).
  replace (b * 64) with (0 * 2 ^ 6 + b * 64) at 1 by lia.
  assert (H1 : Z.lor (a * 64 * 2 ^ 6) (0 * 2 ^ 6 + b * 64) = a * 4096 + b * 64).
  { replace (a * 64 * 2 ^ 6) with (a * 2 ^ 12) by (change (2 ^ 12) with 4096; change (2 ^ 6) with 64; lia).
    rewrite (lor_plus a (0 * 2 ^ 6 + b * 64) 12) by (change (2 ^ 12) with 4096; change (2 ^ 6) with 64; lia).
    change (2 ^ 12) with 4096. change (2 ^ 6) with 64. lia. }
  rewrite H1.
  replace (a * 4096 + b * 64) with ((a * 64 + b) * 2 ^ 6) by (change (2 ^ 6) with 64; lia).
  rewrite (lor_plus (a * 64 + b) c 6) by (change (2 ^ 6) with 64; lia).
  change (2 ^ 6) with 64. lia.
Qed.

Lemma join18 (a b c d : Z) :
  0 <= b < 64 -> 0 <= c < 64 -> 0 <= d < 64 ->
  Z.lor (Z.lor (Z.lor (Z.shiftl a 18) (Z.shiftl b 12)) (Z.shiftl c 6)) d
  = a * 262144 + b * 4096 + c * 64 + d.
Proof.
  intros Hb Hc Hd. rewrite !Z.shiftl_mul_pow2 by lia.
  rewrite (lor_plus a (b * 2 ^ 12) 18)
    by (change (2 ^ 18) with 262144; change (2 ^ 12) with 4096; lia).
  replace (a * 2 ^ 18 + b * 2 ^ 12) with ((a * 64 + b) * 2 ^ 12)
    by (change (2 ^ 18) with 262144; change (2 ^ 12) with 4096; lia).
  rewrite (lor_plus (a * 64 + b) (c * 2 ^ 6) 12)
    by (change (2 ^ 12) with 4096; change (2 ^ 6) with 64; lia).
  replace ((a * 64 + b) * 2 ^ 12 + c * 2 ^ 6) with ((a * 4096 + b * 64 + c) * 2 ^ 6)
    by (change (2 ^ 12) with 4096; change (2 ^ 6) with 64; lia).
  rewrite (lor_plus (a * 4096 + b * 64 + c) d 6) by (change (2 ^ 6) with 64; lia).
  change (2 ^ 6) with 64. lia.
Qed.

Lemma mask6 (x : Z) : Z.land x 0x3F = x mod 64.
Proof. change 0x3F with (2 ^ 6 - 1). apply (land_low x 6). lia. Qed.

Lemma mask5 (x : Z) : Z.land x 0x1F = x mod 32.
Proof. change 0x1F with (2 ^ 5 - 1). apply (land_low x 5). lia. Qed.

Lemma mask4 (x : Z) : Z.land x 0x0F = x mod 16.
Proof. change 0x0F with (2 ^ 4 - 1). apply (land_low x 4). lia. Qed.

Lemma mask3 (x : Z) : Z.land x 0x07 = x mod 8.
Proof. change 0x07 with (2 ^ 3 - 1). apply (land_low x 3). lia. Qed.

Lemma decoded2 (s0 s1 : Z) :
  Z.lor (Z.shiftl (Z.land s0 0x1F) 6) (Z.land s1 0x3F) = s0 mod 32 * 64 + s1 mod 64.
Proof.
  rewrite mask5, mask6. apply join6. apply Z.mod_pos_bound. lia.
Qed.

Lemma decoded3 (s0 s1 s2 : Z) :
  Z.lor (Z.lor (Z.shiftl (Z.land s0 0x0F) 12) (Z.shiftl (Z.land s1 0x3F) 6))
        (Z.land s2 0x3F)
  = s0 mod 16 * 4096 + s1 mod 64 * 64 + s2 mod 64.
Proof.
  rewrite mask4, !mask6. apply join12; apply Z.mod_pos_bound; lia.
Qed.

Lemma decoded4 (s0 s1 s2 s3 : Z) :
  Z.lor (Z.lor (Z.lor (Z.shiftl (Z.land s0 0x07) 18) (Z.shiftl (Z.land s1 0x3F) 12))
               (Z.shiftl (Z.land s2 0x3F) 6))
        (Z.land s3 0x3F)
  = s0 mod 8 * 262144 + s1 mod 64 * 4096 + s2 mod 64 * 64 + s3 mod 64.
Proof.
  rewrite mask3, !mask6. apply join18; apply Z.mod_pos_bound; lia.
Qed.

(** On bytes, [DecodeRune] finds the character that begins the sequence, or
    reports one byte as U+FFFD when none does. *)
Lemma DecodeRune_character (s0 : Z) (t : list Z) :
  Forall is_byte (s0 :: t) ->
  DecodeRune (s0 :: t)
  = match Spec.character (s0 :: t) with
    | Some (v, n) => (v, n)
    | None => (RuneError, 1%nat)
    end.
Proof.
  intros Hp.
  assert (H0 : 0 <= s0 < 256) by (inversion Hp; assumption).
  assert (Ht : Forall is_byte t) by (inversion Hp; assumption).
  unfold DecodeRune, Spec.character, first, RuneSelf.
  destruct (s0 <? 128) eqn:Ea; [reflexivity|].
  destruct t as [|s1 t1].
  { cbn [lookup list_lookup Spec.continuation_bits mbind option_bind].
    repeat split_if; reflexivity. }
  assert (H1 : 0 <= s1 < 256) by (inversion Ht; assumption).
  assert (Ht1 : Forall is_byte t1) by (inversion Ht; assumption).
  cbn [lookup list_lookup]. unfold Spec.continuation_bits at 1.
  destruct t1 as [|s2 t2].
  { cbn [lookup list_lookup Spec.continuation_bits mbind option_bind].
    unfold Spec.scalar_value.
    repeat split_if; cbn [mbind option_bind]; try reflexivity;
      repeat split_if; try reflexivity;
      rewrite decoded2; f_equal; Z.div_mod_to_equations; lia. }
  assert (H2 : 0 <= s2 < 256) by (inversion Ht1; assumption).
  assert (Ht2 : Forall is_byte t2) by (inversion Ht1; assumption).
  cbn [lookup list_lookup]. unfold Spec.continuation_bits at 1, continuation.
  destruct t2 as [|s3 t3].
  { cbn [lookup list_lookup Spec.continuation_bits mbind option_bind].
    unfold Spec.scalar_value.
    repeat split_if; cbn [mbind option_bind negb]; try reflexivity;
      repeat split_if; try reflexivity;
      rewrite ?decoded2, ?decoded3; f_equal; Z.div_mod_to_equations; lia. }
  assert (H3 : 0 <= s3 < 256) by (inversion Ht2; assumption).
  cbn [lookup list_lookup]. unfold Spec.continuation_bits, Spec.scalar_value.
  repeat split_if; cbn [mbind option_bind negb]; try reflexivity;
    repeat split_if; try reflexivity;
    rewrite ?decoded2, ?decoded3, ?decoded4; f_equal; Z.div_mod_to_equations; lia.
Qed.

Lemma range_bytes_characters (fuel : nat) (p : list Z) :
  Forall is_byte p -> range_bytes fuel p = Spec.characters_of fuel p.
Proof.
  revert p. induction fuel as [|fuel IH]; intros p Hp; [reflexivity|].
  destruct p as [|s0 t]; [reflexivity|].
  cbn [range_bytes Spec.characters_of].
  rewrite (DecodeRune_character s0 t Hp).
  destruct (Spec.character (s0 :: t)) as [[v n]|].
  - rewrite IH by (apply Forall_drop, Hp). reflexivity.
  - cbn [drop]. rewrite IH by (inversion Hp; assumption). reflexivity.
Qed.

(** [range] yields the characters of the string. *)
Lemma range_characters (s : string) : range s = Spec.characters s.
Proof. apply range_bytes_characters, bytes_is_byte. Qed.

(** ** UTF-8: encoding, then decoding *)

Lemma EncodeRune_invalid (r : Z) :
  valid_rune r = false -> EncodeRune r = [0xEF; 0xBF; 0xBD].
Proof.
  unfold valid_rune, EncodeRune, MaxRune. intros Hr.
  repeat split_if; reflexivity.
Qed.

Lemma character_1 (r : Z) (rest : list Z) :
  0 <= r < 0x80 -> Spec.character (r :: rest) = Some (r, 1%nat).
Proof. intros Hr. unfold Spec.character. split_if. reflexivity. Qed.

Lemma character_2 (q m : Z) (rest : list Z) :
  2 <= q < 32 -> 0 <= m < 64 ->
  Spec.character (0xC0 + q :: 0x80 + m :: rest) = Some (q * 64 + m, 2%nat).
Proof.
  intros Hq Hm. unfold Spec.character.
  cbn [lookup list_lookup]. unfold Spec.continuation_bits.
  repeat split_if. cbn [mbind option_bind]. split_if.
  do 2 f_equal. lia.
Qed.

Lemma character_3 (a b c : Z) (rest : list Z) :
  0 <= a < 16 -> 0 <= b < 64 -> 0 <= c < 64 ->
  0x800 <= a * 4096 + b * 64 + c ->
  ~ (0xD800 <= a * 4096 + b * 64 + c <= 0xDFFF) ->
  Spec.character (0xE0 + a :: 0x80 + b :: 0x80 + c :: rest)
  = Some (a * 4096 + b * 64 + c, 3%nat).
Proof.
  intros Ha Hb Hc Hlow Hsur. unfold Spec.character.
  cbn [lookup list_lookup]. unfold Spec.continuation_bits, Spec.scalar_value.
  repeat split_if. cbn [mbind option_bind]. repeat split_if.
  do 2 f_equal. lia.
Qed.

Lemma character_4 (a b c d : Z) (rest : list Z) :
  0 <= a < 8 -> 0 <= b < 64 -> 0 <= c < 64 -> 0 <= d < 64 ->
  0x10000 <= a * 262144 + b * 4096 + c * 64 + d <= 0x10FFFF ->
  Spec.character (0xF0 + a :: 0x80 + b :: 0x80 + c :: 0x80 + d :: rest)
  = Some (a * 262144 + b * 4096 + c * 64 + d, 4%nat).
Proof.
  intros Ha Hb Hc Hd Hv. unfold Spec.character.
  cbn [lookup list_lookup]. unfold Spec.continuation_bits, Spec.scalar_value.
  repeat split_if. cbn [mbind option_bind]. repeat split_if.
  do 2 f_equal. lia.
Qed.

(** The bytes that [EncodeRune] writes, in arithmetic. *)
Lemma EncodeRune_2 (r : Z) :
  0x80 <= r <= 0x7FF -> EncodeRune r = [0xC0 + r / 64; 0x80 + r mod 64].
Proof.
  intros Hr. unfold EncodeRune. repeat split_if.
  rewrite tail6, shiftr_div by lia. change (2 ^ 6) with 64.
  rewrite lead2 by (Z.div_mod_to_equations; lia). reflexivity.
Qed.

Lemma EncodeRune_3 (r : Z) :
  0x800 <= r <= 0xFFFF -> ~ (0xD800 <= r <= 0xDFFF) ->
  EncodeRune r = [0xE0 + r / 4096; 0x80 + (r / 64) mod 64; 0x80 + r mod 64].
Proof.
  intros Hr Hs. unfold EncodeRune, MaxRune. repeat split_if.
  rewrite !tail6, !shiftr_div by lia.
  change (2 ^ 6) with 64. change (2 ^ 12) with 4096.
  rewrite lead3 by (Z.div_mod_to_equations; lia). reflexivity.
Qed.

Lemma EncodeRune_4 (r : Z) :
  0x10000 <= r <= 0x10FFFF ->
  EncodeRune r = [0xF0 + r / 262144; 0x80 + (r / 4096) mod 64;
                  0x80 + (r / 64) mod 64; 0x80 + r mod 64].
Proof.
  intros Hr. unfold EncodeRune, MaxRune. repeat split_if.
  rewrite !tail6, !shiftr_div by lia.
  change (2 ^ 6) with 64. change (2 ^ 12) with 4096. change (2 ^ 18) with 262144.
  rewrite lead4 by (Z.div_mod_to_equations; lia). reflexivity.
Qed.

Lemma EncodeRune_bytes (r : Z) : Forall is_byte (EncodeRune r) /\ EncodeRune r <> [].
Proof.
  destruct (valid_rune r) eqn:Hv.
  - unfold valid_rune, MaxRune in Hv.
    destruct (Z_lt_dec r 0x80); [|destruct (Z_lt_dec r 0x800); [|destruct (Z_lt_dec r 0x10000)]].
    + rewrite EncodeRune_ascii by (unfold is_ascii; lia).
      split; [|discriminate]. repeat constructor; unfold is_byte; lia.
    + rewrite EncodeRune_2 by lia. split; [|discriminate].
      repeat constructor; unfold is_byte; Z.div_mod_to_equations; lia.
    + rewrite EncodeRune_3 by lia. split; [|discriminate].
      repeat constructor; unfold is_byte; Z.div_mod_to_equations; lia.
    + rewrite EncodeRune_4 by lia. split; [|discriminate].
      repeat constructor; unfold is_byte; Z.div_mod_to_equations; lia.
  - rewrite (EncodeRune_invalid r Hv). split; [|discriminate].
    repeat constructor; unfold is_byte; lia.
Qed.

Lemma character_encoded (r : Z) (rest : list Z) :
  Spec.character (EncodeRune r ++ rest)
  = Some (if valid_rune r then r else RuneError, length (EncodeRune r)).
Proof.
  destruct (valid_rune r) eqn:Hv.
  - unfold valid_rune, MaxRune in Hv.
    destruct (Z_lt_dec r 0x80); [|destruct (Z_lt_dec r 0x800); [|destruct (Z_lt_dec r 0x10000)]].
    + rewrite EncodeRune_ascii by (unfold is_ascii; lia).
      apply character_1. lia.
    + rewrite EncodeRune_2 by lia. cbn [app length].
      rewrite character_2 by (Z.div_mod_to_equations; lia).
      do 2 f_equal. Z.div_mod_to_equations; lia.
    + rewrite EncodeRune_3 by lia. cbn [app length].
      rewrite character_3 by (Z.div_mod_to_equations; lia).
      do 2 f_equal. Z.div_mod_to_equations; lia.
    + rewrite EncodeRune_4 by lia. cbn [app length].
      rewrite character_4 by (Z.div_mod_to_equations; lia).
      do 2 f_equal. Z.div_mod_to_equations; lia.
  - rewrite (EncodeRune_invalid r Hv). reflexivity.
Qed.

Lemma characters_encoded (rs : list Z) (fuel : nat) :
  (length (flat_map EncodeRune rs) <= fuel)%nat ->
  Spec.characters_of fuel (flat_map EncodeRune rs)
  = map (fun r => if valid_rune r then r else RuneError) rs.
Proof.
  revert fuel. induction rs as [|r rs IH]; intros fuel Hf.
  - destruct fuel; reflexivity.
  - cbn [flat_map map] in *.
    destruct (EncodeRune_bytes r) as [_ Hne].
    rewrite length_app in Hf.
    assert (Hl1 : (1 <= length (EncodeRune r))%nat)
      by (destruct (EncodeRune r); [congruence | cbn; lia]).
    destruct fuel as [|fuel]; [lia|].
    pose proof (character_encoded r (flat_map EncodeRune rs)) as Hc.
    destruct (EncodeRune r ++ flat_map EncodeRune rs) as [|s0 t] eqn:Hp.
    { destruct (EncodeRune r); [congruence | discriminate Hp]. }
    cbn [Spec.characters_of]. rewrite Hc. rewrite <- Hp.
    rewrite drop_app_length. rewrite IH by lia. reflexivity.
Qed.

Lemma flat_map_bytes (rs : list Z) : Forall is_byte (flat_map EncodeRune rs).
Proof.
  induction rs as [|r rs IH]; [constructor|].
  cbn [flat_map]. apply Forall_app. split; [apply EncodeRune_bytes | exact IH].
Qed.

(** Decoding what was encoded gives the runes back, the ones that have no
    encoding as U+FFFD. *)
Lemma range_encoded (rs : list Z) :
  range (of_bytes (flat_map EncodeRune rs))
  = map (fun r => if valid_rune r then r else RuneError) rs.
Proof.
  rewrite range_characters. unfold Spec.characters.
  rewrite bytes_of_bytes by apply flat_map_bytes.
  apply characters_encoded. apply Nat.le_refl.
Qed.

Lemma strings_Map_loop (mapping : Z -> Z) (l : list Z) (acc : Builder) :
  fold_left (fun b c => let r := mapping c in if 0 <=? r then WriteRune b r else b) l acc
  = acc +:+ of_bytes (flat_map EncodeRune
                        (List.filter (fun r => 0 <=? r) (map mapping l))).
Proof.
  revert acc. induction l as [|c l IH]; intros acc.
  - cbn. symmetry. apply append_empty_r.
  - cbn [fold_left map List.filter]. rewrite IH. cbv zeta.
    destruct (0 <=? mapping c); [|reflexivity].
    cbn [flat_map]. unfold WriteRune. rewrite of_bytes_app, append_assoc. reflexivity.
Qed.

Lemma strings_Map_encoded (mapping : Z -> Z) (s : string) :
  strings_Map mapping s
  = of_bytes (flat_map EncodeRune
                (List.filter (fun r => 0 <=? r) (map mapping (range s)))).
Proof. unfold strings_Map. rewrite strings_Map_loop. reflexivity. Qed.

Lemma in_alphabet_valid (c : Z) :
  Spec.in_alphabet c = true -> 0 <= c /\ valid_rune c = true.
Proof.
  rewrite in_alphabet_isBase32Char. intros Hc%isBase32Char_spec.
  unfold valid_rune, MaxRune. lia.
Qed.

Lemma filter_alphabet_decoded (l : list Z) :
  List.filter Spec.in_alphabet
    (map (fun r => if valid_rune r then r else RuneError)
       (List.filter (fun r => 0 <=? r) l))
  = List.filter Spec.in_alphabet l.
Proof.
  induction l as [|c l IH]; [reflexivity|].
  cbn [List.filter]. destruct (Spec.in_alphabet c) eqn:Hc.
  - destruct (in_alphabet_valid c Hc) as [Hp Hv].
    replace (0 <=? c) with true by blia.
    cbn [map List.filter]. rewrite Hv, Hc, IH. reflexivity.
  - destruct (0 <=? c); [|exact IH].
    cbn [map List.filter]. destruct (valid_rune c).
    + rewrite Hc. exact IH.
    + change (Spec.in_alphabet RuneError) with false. exact IH.
Qed.

Section Folding.
Context `{CaseTables}.

Lemma unicode_ToUpper_upper (c : Z) : unicode_ToUpper c = Spec.upper c.
Proof.
  unfold unicode_ToUpper, Spec.upper.
  repeat split_if; try reflexivity; lia.
Qed.

Lemma characters_ascii (l : list Z) (fuel : nat) :
  Forall is_ascii l -> (length l <= fuel)%nat -> Spec.characters_of fuel l = l.
Proof.
  intros Hl Hf. rewrite <- range_bytes_characters by (apply is_ascii_is_byte, Hl).
  apply range_bytes_ascii; assumption.
Qed.

(** The characters that the code keeps are those of the specification: the
    secret folded to upper case, without what is outside the alphabet. *)
Lemma kept_scanned (secret : string) :
  List.filter Spec.in_alphabet (range (strings_ToUpper secret)) = Spec.kept secret.
Proof.
  unfold Spec.kept, strings_ToUpper. cbv zeta.
  destruct (forallb (fun c => c <? RuneSelf) (bytes secret)) eqn:Hascii.
  - assert (Ha : Forall is_ascii (bytes secret)).
    { apply Forall_forall. intros c Hc.
      pose proof (bytes_is_byte secret) as Hb. rewrite Forall_forall in Hb.
      specialize (Hb c Hc). rewrite forallb_forall in Hascii.
      specialize (Hascii c Hc). unfold is_ascii, is_byte, RuneSelf in *. lia. }
    unfold Spec.characters. rewrite characters_ascii by (exact Ha || apply Nat.le_refl).
    rewrite range_ascii.
    + f_equal. apply map_ext_in. intros c Hc.
      rewrite Forall_forall in Ha. specialize (Ha c Hc). unfold is_ascii in Ha.
      unfold Spec.upper. repeat split_if; try reflexivity; lia.
    + apply Forall_forall. intros c Hc. apply in_map_iff in Hc as (x & <- & Hx).
      rewrite Forall_forall in Ha. specialize (Ha x Hx). unfold is_ascii in *.
      split_if; lia.
  - rewrite strings_Map_encoded, range_encoded, filter_alphabet_decoded.
    rewrite range_characters. f_equal. apply map_ext. intros c.
    apply unicode_ToUpper_upper.
Qed.

End Folding.
Section Upper.
Context `{CaseTables}.

(** [strings.ToUpper] leaves a string of ASCII bytes without lower-case
    letters as it is. *)
Lemma strings_ToUpper_fixed (l : list Z) :
  Forall (fun c => is_ascii c /\ ~ (0x61 <= c <= 0x7A)) l ->
  strings_ToUpper (of_bytes l) = of_bytes l.
Proof.
  intros Hl. unfold strings_ToUpper.
  assert (Ha : Forall is_ascii l) by (eapply Forall_impl; [|exact Hl]; cbn; tauto).
  rewrite bytes_of_bytes by (apply is_ascii_is_byte, Ha).
  replace (forallb (fun c => c <? RuneSelf) l) with true.
  - f_equal. induction Hl as [|c l [Hc Hn] _ IH]; [reflexivity|].
    cbn [map]. replace ((0x61 <=? c) && (c <=? 0x7A)) with false by blia.
    f_equal. apply IH. inversion Ha; assumption.
  - symmetry. apply forallb_forall. intros c Hin.
    rewrite Forall_forall in Ha. apply Ha in Hin.
    unfold is_ascii, RuneSelf in *. lia.
Qed.

(** ** The normaliser *)

Lemma WriteRune_base32 (b : Builder) (c : Z) :
  Mfa.isBase32Char c = true -> WriteRune b c = b +:+ of_bytes [c].
Proof.
  intros Hc. apply isBase32Char_spec in Hc. unfold WriteRune.
  rewrite EncodeRune_ascii by (unfold is_ascii; lia). reflexivity.
Qed.

Lemma cleanSecret_loop (l : list Z) (acc : Builder) :
  fold_left (fun (cleaned : Builder) (char : rune) =>
               if Mfa.isBase32Char char then WriteRune cleaned char else cleaned) l acc
  = acc +:+ of_bytes (List.filter Mfa.isBase32Char l).
Proof.
  revert acc. induction l as [|c l IH]; intros acc.
  - cbn. symmetry. apply append_empty_r.
  - cbn [fold_left List.filter]. rewrite IH.
    destruct (Mfa.isBase32Char c) eqn:Hc; [|reflexivity].
    rewrite WriteRune_base32 by exact Hc.
    rewrite append_assoc. f_equal.
Qed.

Lemma filter_in_alphabet (l : list Z) :
  List.filter Spec.in_alphabet l = List.filter Mfa.isBase32Char l.
Proof.
  induction l as [|c l IH]; [reflexivity|].
  cbn [List.filter]. rewrite in_alphabet_isBase32Char, IH. reflexivity.
Qed.

Lemma kept_alphabet (secret : string) :
  Forall (fun c => Spec.in_alphabet c = true) (Spec.kept secret).
Proof.
  unfold Spec.kept. apply Forall_forall. intros c Hin.
  apply filter_In in Hin. tauto.
Qed.

Lemma switch_padding (result : string) (n : Z) :
  0 <= n ->
  match Z.rem n 8 with
  | 2 => result +:+ "======"
  | 4 => result +:+ "===="
  | 5 => result +:+ "==="
  | 7 => result +:+ "="
  | _ => result
  end = result +:+ Spec.pads (Spec.padding_table (n mod 8)).
Proof.
  intros Hn. rewrite Z.rem_mod_nonneg by lia.
  pose proof (Z.mod_pos_bound n 8 ltac:(lia)) as Hr.
  assert (Hc : n mod 8 = 0 \/ n mod 8 = 1 \/ n mod 8 = 2 \/ n mod 8 = 3 \/
               n mod 8 = 4 \/ n mod 8 = 5 \/ n mod 8 = 6 \/ n mod 8 = 7) by lia.
  destruct Hc as [-> | [-> | [-> | [-> | [-> | [-> | [-> | ->]]]]]]];
    cbn; rewrite ?append_empty_r; reflexivity.
Qed.

(** The code computes the normal form that the specification describes. *)
Lemma cleanSecret_normalize (secret : string) :
  Mfa.cleanSecret secret = Spec.normalize secret.
Proof.
  unfold Mfa.cleanSecret, Spec.normalize, Spec.padded.
  rewrite <- kept_scanned. rewrite cleanSecret_loop. cbn [String.append].
  rewrite filter_in_alphabet.
  set (d := List.filter Mfa.isBase32Char _).
  change ("" +:+ of_bytes d) with (of_bytes d).
  unfold len. rewrite length_of_bytes.
  apply switch_padding. lia.
Qed.

Lemma bytes_pads (n : nat) : bytes (Spec.pads n) = repeat 0x3D n.
Proof. induction n as [|n IH]; [reflexivity|]. cbn [Spec.pads repeat]. rewrite bytes_String, IH. reflexivity. Qed.

Lemma pads_of_bytes (n : nat) : Spec.pads n = of_bytes (repeat 0x3D n).
Proof. rewrite <- bytes_pads. symmetry. apply of_bytes_bytes. Qed.

Lemma alphabet_ascii (d : list Z) :
  Forall (fun c => Spec.in_alphabet c = true) d ->
  Forall (fun c => is_ascii c /\ ~ (0x61 <= c <= 0x7A)) d.
Proof.
  apply Forall_impl. intros c Hc.
  rewrite in_alphabet_isBase32Char in Hc. apply isBase32Char_spec in Hc.
  unfold is_ascii. lia.
Qed.

(** A padded string of alphabet characters is a fixed point. *)
Lemma cleanSecret_padded (d : list Z) :
  Forall (fun c => Spec.in_alphabet c = true) d ->
  Mfa.cleanSecret (Spec.padded d) = Spec.padded d.
Proof.
  intros Hd. rewrite cleanSecret_normalize. unfold Spec.normalize. f_equal.
  rewrite <- kept_scanned. unfold Spec.padded.
  set (n := Spec.padding_table _).
  rewrite pads_of_bytes, <- of_bytes_app.
  assert (Hall : Forall (fun c => is_ascii c /\ ~ (0x61 <= c <= 0x7A)) (d ++ repeat 0x3D n)).
  { apply Forall_app. split; [apply alphabet_ascii, Hd|].
    apply Forall_forall. intros c Hc%repeat_spec. subst c.
    unfold is_ascii. lia. }
  rewrite strings_ToUpper_fixed by exact Hall.
  rewrite range_ascii by (eapply Forall_impl; [|exact Hall]; cbn; tauto).
  rewrite List.filter_app.
  replace (List.filter Spec.in_alphabet (repeat 0x3D n)) with (@nil Z).
  - rewrite app_nil_r. clear Hall n.
    induction Hd as [|c d Hc _ IH]; [reflexivity|].
    cbn [List.filter]. rewrite Hc, IH. reflexivity.
  - clear. induction n as [|n IH]; [reflexivity|].
    cbn [repeat List.filter]. rewrite <- IH. reflexivity.
Qed.

End Upper.

(** ** Base32 decoding of unpadded data *)

Lemma decodeMap_valid (c : Z) :
  Mfa.isBase32Char c = true -> 0 <= decodeMap c < 32 /\ c <> padChar.
Proof.
  intros Hc%isBase32Char_spec. unfold decodeMap, padChar.
  destruct Hc as [Hc|Hc].
  - replace ((0x41 <=? c) && (c <=? 0x5A)) with true by blia. lia.
  - replace ((0x41 <=? c) && (c <=? 0x5A)) with false by blia.
    replace ((0x32 <=? c) && (c <=? 0x37)) with true by blia. lia.
Qed.

(** Eight data characters in a row make a full quantum. *)
Lemma readQuantum_full (n : nat) (j olen : Z) (src dbuf : list Z) :
  (n <= length src)%nat ->
  Forall (fun c => Mfa.isBase32Char c = true) (take n src) ->
  readQuantum n j olen src dbuf
  = QOk (dbuf ++ map decodeMap (take n src)) 8 false (drop n src).
Proof.
  revert j src dbuf. induction n as [|n IH]; intros j src dbuf Hlen Hall.
  - cbn. rewrite app_nil_r, drop_0. reflexivity.
  - destruct src as [|c src]; [cbn in Hlen; lia|].
    cbn [take] in Hall. inversion Hall as [|? ? Hc Hrest]; subst.
    destruct (decodeMap_valid c Hc) as [Hd Hp].
    cbn [readQuantum].
    replace (c =? padChar) with false by blia. cbn [andb].
    replace (decodeMap c =? 0xFF) with false by blia.
    rewrite IH; [|cbn in Hlen; lia|exact Hrest].
    cbn [take map drop]. rewrite <- app_assoc. reflexivity.
Qed.

(** Data that stops inside a quantum, with no padding, is corrupt input. *)
Lemma readQuantum_short (n : nat) (j olen : Z) (src dbuf : list Z) :
  (length src < n)%nat ->
  Forall (fun c => Mfa.isBase32Char c = true) src ->
  readQuantum n j olen src dbuf = QErr (CorruptInputError (olen - (j + Z.of_nat (length src)))).
Proof.
  revert j src dbuf. induction n as [|n IH]; intros j src dbuf Hlen Hall; [lia|].
  destruct src as [|c src].
  - cbn. do 2 f_equal. lia.
  - inversion Hall as [|? ? Hc Hrest]; subst.
    destruct (decodeMap_valid c Hc) as [Hd Hp].
    cbn [readQuantum].
    replace (c =? padChar) with false by blia. cbn [andb].
    replace (decodeMap c =? 0xFF) with false by blia.
    rewrite IH; [|cbn in Hlen; lia|exact Hrest].
    do 2 f_equal. cbn [length]. lia.
Qed.

Lemma decodeLoop_step (fuel : nat) (olen : Z) (src dst : list Z) :
  src <> [] ->
  decodeLoop (S fuel) olen src dst
  = match readQuantum 8 0 olen src [] with
    | QErr e => Err e
    | QOk dbuf dlen end_ src' =>
        if end_ then Ok (dst ++ pack dbuf dlen)
        else decodeLoop fuel olen src' (dst ++ pack dbuf dlen)
    end.
Proof. destruct src; [congruence | reflexivity]. Qed.

Lemma decodeLoop_unpadded (fuel : nat) (olen : Z) (src dst : list Z) :
  Forall (fun c => Mfa.isBase32Char c = true) src ->
  (length src <= fuel)%nat ->
  Z.of_nat (length src) mod 8 <> 0 ->
  exists pos, decodeLoop fuel olen src dst = Err (CorruptInputError pos).
Proof.
  revert src dst. induction fuel as [|fuel IH]; intros src dst Hall Hf Hm.
  - destruct src as [|c src]; [exfalso; apply Hm; reflexivity | cbn in Hf; lia].
  - assert (Hne : src <> []).
    { intros ->. apply Hm. reflexivity. }
    rewrite decodeLoop_step by exact Hne.
    destruct (decide (length src < 8)%nat) as [Hs|Hs].
    + rewrite readQuantum_short by assumption. eauto.
    + rewrite readQuantum_full; [|lia|apply Forall_take, Hall].
      apply IH.
      * apply Forall_drop, Hall.
      * rewrite length_drop. lia.
      * rewrite length_drop.
        replace (Z.of_nat (length src - 8)) with (Z.of_nat (length src) + (-1) * 8) by lia.
        rewrite Z.mod_add by lia. exact Hm.
Qed.

(** Decoding never panics. *)
Lemma decodeLoop_no_panic (fuel : nat) (olen : Z) (src dst : list Z) :
  is_panic (decodeLoop fuel olen src dst) = false.
Proof.
  revert src dst. induction fuel as [|fuel IH]; intros src dst.
  - destruct src; reflexivity.
  - destruct src as [|c src]; [reflexivity|].
    rewrite decodeLoop_step by discriminate.
    destruct (readQuantum 8 0 olen (c :: src) []) as [e|dbuf dlen [|] src'];
      [reflexivity | reflexivity | apply IH].
Qed.

Lemma base32_DecodeString_no_panic (s : string) :
  is_panic (base32_DecodeString s) = false.
Proof. apply decodeLoop_no_panic. Qed.

Lemma stripNewlines_data (d : list Z) :
  Forall (fun c => Mfa.isBase32Char c = true) d -> stripNewlines d = d.
Proof.
  intros Hd. unfold stripNewlines.
  induction Hd as [|c d Hc _ IH]; [reflexivity|].
  apply isBase32Char_spec in Hc.
  rewrite filter_cons_True by lia. rewrite IH. reflexivity.
Qed.

Lemma alphabet_base32 (d : list Z) :
  Forall (fun c => Spec.in_alphabet c = true) d ->
  Forall (fun c => Mfa.isBase32Char c = true) d.
Proof. apply Forall_impl. intros c. rewrite in_alphabet_isBase32Char. tauto. Qed.

Lemma base32_is_byte (d : list Z) :
  Forall (fun c => Mfa.isBase32Char c = true) d -> Forall is_byte d.
Proof. apply Forall_impl. intros c Hc%isBase32Char_spec. unfold is_byte. lia. Qed.

(** Unpadded data whose length is not a multiple of eight does not decode. *)
Lemma base32_DecodeString_unpadded (d : list Z) :
  Forall (fun c => Mfa.isBase32Char c = true) d ->
  Z.of_nat (length d) mod 8 <> 0 ->
  exists pos, base32_DecodeString (of_bytes d) = Err (CorruptInputError pos).
Proof.
  intros Hd Hm. unfold base32_DecodeString.
  rewrite bytes_of_bytes by (apply base32_is_byte, Hd).
  rewrite stripNewlines_data by exact Hd.
  apply decodeLoop_unpadded; [exact Hd | apply Nat.le_refl | exact Hm].
Qed.

(** ** Fixed-width arithmetic *)

Lemma int64_id (x : Z) : is_int64 x -> int64 x = x.
Proof.
  unfold is_int64, MinInt64, MaxInt64, int64. intros Hx.
  rewrite Z.mod_small by lia. lia.
Qed.

Lemma is_int64_int64 (x : Z) : is_int64 (int64 x).
Proof.
  unfold is_int64, MinInt64, MaxInt64, int64.
  pose proof (Z.mod_pos_bound (x + 2 ^ 63) (2 ^ 64) ltac:(lia)). lia.
Qed.

Lemma quo_nonneg (x y : Z) :
  0 <= x <= MaxInt64 -> 0 < y -> quo x y = Ok (x / y).
Proof.
  intros Hx Hy. unfold quo.
  replace (y =? 0) with false by blia.
  rewrite Z.quot_div_nonneg by lia.
  rewrite int64_id; [reflexivity|].
  unfold is_int64, MinInt64, MaxInt64 in *.
  pose proof (Z.div_pos x y ltac:(lia) Hy).
  pose proof (Z.div_le_upper_bound x y (2 ^ 63 - 1) Hy ltac:(nia)). lia.
Qed.

Lemma rem_nonneg (x y : Z) :
  0 <= x <= MaxInt64 -> 0 < y -> rem x y = Ok (x mod y).
Proof.
  intros Hx Hy. unfold rem.
  replace (y =? 0) with false by blia.
  rewrite Z.rem_mod_nonneg by lia.
  rewrite int64_id; [reflexivity|].
  unfold is_int64, MinInt64, MaxInt64 in *.
  pose proof (Z.mod_pos_bound x y Hy).
  pose proof (Z.mod_le x y ltac:(lia) Hy). lia.
Qed.

(** ** The digest and its truncation *)

Lemma length_be32 (w : Z) : length (be32 w) = 4%nat.
Proof. reflexivity. Qed.

Lemma length_sha1_Sum (msg : list Z) : length (sha1_Sum msg) = 20%nat.
Proof.
  unfold sha1_Sum.
  destruct (sha1_blocks _ _ _) as [[[[h0 h1] h2] h3] h4].
  rewrite !length_app, !length_be32. reflexivity.
Qed.

Lemma length_hmac_sha1 (key msg : list Z) : length (hmac_sha1 key msg) = 20%nat.
Proof. unfold hmac_sha1. apply length_sha1_Sum. Qed.

Lemma land_0f (x : Z) : Z.land x 0x0f = x mod 16.
Proof. change 0x0f with (Z.ones 4). rewrite Z.land_ones by lia. reflexivity. Qed.

Lemma land_7fffffff (x : Z) : Z.land x 0x7fffffff = x mod 2 ^ 31.
Proof. change 0x7fffffff with (Z.ones 31). rewrite Z.land_ones by lia. reflexivity. Qed.

Lemma Uint32_window (l : list Z) :
  length l = 4%nat -> exists v, Uint32 l = Ok v.
Proof.
  destruct l as [|b0 [|b1 [|b2 [|b3 [|? ?]]]]]; try discriminate.
  intros _. eexists. reflexivity.
Qed.

(** On a twenty-byte digest the truncation reads the last byte, takes a
    window that ends inside the digest, and yields a 31-bit value. *)
Lemma dynamicTruncation_digest (hash : list Z) :
  length hash = 20%nat ->
  exists offset v,
    0 <= offset <= 15 /\ offset + 4 <= 19 /\
    offset = Z.land (nth 19 hash 0) 0x0f /\
    slice hash offset (offset + 4) = Ok (take 4 (drop (Z.to_nat offset) hash)) /\
    Uint32 (take 4 (drop (Z.to_nat offset) hash)) = Ok v /\
    Mfa.dynamicTruncation hash = Ok (Z.land v 0x7fffffff) /\
    0 <= Z.land v 0x7fffffff < 2 ^ 31.
Proof.
  intros Hlen.
  set (offset := Z.land (nth 19 hash 0) 0x0f).
  assert (Ho : 0 <= offset <= 15).
  { unfold offset. rewrite land_0f.
    pose proof (Z.mod_pos_bound (nth 19 hash 0) 16 ltac:(lia)). lia. }
  assert (Eo : offset = Z.land (nth 19 hash 0) 0x0f) by reflexivity.
  clearbody offset.
  assert (Hs : slice hash offset (offset + 4) = Ok (take 4 (drop (Z.to_nat offset) hash))).
  { unfold slice. rewrite Hlen.
    replace ((0 <=? offset) && (offset <=? offset + 4) && (offset + 4 <=? Z.of_nat 20))
      with true by (change (Z.of_nat 20) with 20; blia).
    replace (Z.to_nat (offset + 4 - offset)) with 4%nat by lia. reflexivity. }
  assert (Hw : length (take 4 (drop (Z.to_nat offset) hash)) = 4%nat).
  { rewrite length_take, length_drop, Hlen. lia. }
  destruct (Uint32_window _ Hw) as [v Hv].
  exists offset, v. split; [exact Ho|]. split; [lia|]. split; [reflexivity|].
  split; [exact Hs|]. split; [exact Hv|].
  split.
  - unfold Mfa.dynamicTruncation. rewrite Hlen.
    change (Z.of_nat 20 - 1) with 19. unfold index. rewrite Hlen.
    change ((0 <=? 19) && (19 <? Z.of_nat 20)) with true.
    change (Z.to_nat 19) with 19%nat.
    cbn [mbind outcome_bind]. rewrite <- Eo, Hs.
    cbn [mbind outcome_bind]. rewrite Hv. reflexivity.
  - rewrite land_7fffffff. apply Z.mod_pos_bound. lia.
Qed.

(** ** Formatting *)

Lemma length_zeros (n : nat) : String.length (zeros n) = n.
Proof. induction n as [|n IH]; [reflexivity|]. cbn. f_equal. exact IH. Qed.

Lemma length_decimal (fuel k : nat) (v : Z) (acc : string) :
  0 <= v < 10 ^ Z.of_nat k -> (1 <= k <= fuel)%nat ->
  (String.length acc + 1 <= String.length (decimal fuel v acc) <= String.length acc + k)%nat.
Proof.
  revert k v acc. induction fuel as [|fuel IH]; intros k v acc Hv Hk; [lia|].
  cbn [decimal].
  destruct (v / 10 =? 0) eqn:Hq.
  - cbn [String.length]. lia.
  - apply Z.eqb_neq in Hq.
    assert (Hv10 : 10 <= v).
    { destruct (Z_lt_le_dec v 10) as [Hlt|Hge]; [|exact Hge].
      exfalso. apply Hq. apply Z.div_small. lia. }
    destruct k as [|[|k]]; [lia | cbn in Hv; lia |].
    specialize (IH (S k) (v / 10) (String (digit (v mod 10)) acc)).
    cbn [String.length] in IH.
    assert (Hd : 0 <= v / 10 < 10 ^ Z.of_nat (S k)).
    { split; [apply Z.div_pos; lia|].
      apply Z.div_lt_upper_bound; [lia|].
      replace (Z.of_nat (S (S k))) with (Z.of_nat (S k) + 1) in Hv by lia.
      rewrite Z.pow_add_r in Hv by lia. lia. }
    specialize (IH Hd ltac:(lia)). lia.
Qed.

(** A value below one million is printed with exactly six characters. *)
Lemma length_Sprintf_06d (v : Z) :
  0 <= v < 1000000 -> String.length (Sprintf_06d v) = 6%nat.
Proof.
  intros Hv. unfold Sprintf_06d.
  pose proof (length_decimal 10 6 v "" Hv ltac:(lia)) as Hd.
  cbn [String.length] in Hd.
  rewrite length_append, length_zeros. lia.
Qed.

(** ** The TOTP engine *)

Section Engine.
Context `{CaseTables}.

(** With a secret that decodes and a period other than zero, the engine
    returns a code of six characters. *)
Lemma generateTOTPWithOffset_ok (w : World) (secret : string) (period timeOffset : Z)
    (key : list Z) :
  base32_DecodeString (Mfa.cleanSecret secret) = Ok key ->
  period <> 0 ->
  exists otp remaining,
    Mfa.generateTOTPWithOffset w secret period timeOffset = Ok (otp, remaining) /\
    String.length otp = 6%nat /\
    Mfa.remainingSeconds (int64 (time_Now_Unix w + timeOffset)) period = Ok remaining.
Proof.
  intros Hkey Hp. unfold Mfa.generateTOTPWithOffset. rewrite Hkey.
  unfold Mfa.timeCounter, Mfa.remainingSeconds, quo, rem.
  replace (period =? 0) with false by blia.
  cbn [mbind outcome_bind mret outcome_ret].
  set (hash := hmac_sha1 key _).
  destruct (dynamicTruncation_digest hash (length_hmac_sha1 _ _))
    as (offset & v & _ & _ & _ & _ & _ & Ht & Hb).
  rewrite Ht. cbn [mbind outcome_bind mret outcome_ret].
  eexists _, _. split; [reflexivity|]. split; [|reflexivity].
  apply length_Sprintf_06d.
  rewrite Z.rem_mod_nonneg by lia. apply Z.mod_pos_bound. lia.
Qed.

Lemma generateTOTPWithOffset_no_panic (w : World) (secret : string) (period timeOffset : Z) :
  period <> 0 ->
  is_panic (Mfa.generateTOTPWithOffset w secret period timeOffset) = false.
Proof.
  intros Hp.
  destruct (base32_DecodeString (Mfa.cleanSecret secret)) as [key|e|p] eqn:Hd.
  - destruct (generateTOTPWithOffset_ok w secret period timeOffset key Hd Hp)
      as (otp & remaining & -> & _). reflexivity.
  - unfold Mfa.generateTOTPWithOffset. rewrite Hd. reflexivity.
  - pose proof (base32_DecodeString_no_panic (Mfa.cleanSecret secret)) as Hn.
    rewrite Hd in Hn. discriminate Hn.
Qed.

(** A zero period reaches the division. *)
Lemma generateTOTPWithOffset_zero_period (w : World) (secret : string) (timeOffset : Z)
    (key : list Z) :
  base32_DecodeString (Mfa.cleanSecret secret) = Ok key ->
  Mfa.generateTOTPWithOffset w secret 0 timeOffset = Panic DivideByZero.
Proof.
  intros Hkey. unfold Mfa.generateTOTPWithOffset. rewrite Hkey. reflexivity.
Qed.

Lemma generateTOTPWithOffset_decode_error (w : World) (secret : string)
    (period timeOffset : Z) (e : error) :
  base32_DecodeString (Mfa.cleanSecret secret) = Err e ->
  Mfa.generateTOTPWithOffset w secret period timeOffset
  = Err (Errorf "invalid secret key after cleaning" e).
Proof.
  intros Hkey. unfold Mfa.generateTOTPWithOffset. rewrite Hkey. reflexivity.
Qed.

Lemma legacy_generateTOTP_no_panic (w : World) (secret : string) (period : Z) :
  period <> 0 -> is_panic (Legacy.generateTOTP w secret period) = false.
Proof.
  intros Hp. unfold Legacy.generateTOTP.
  destruct (base32_DecodeString (Legacy.cleanSecret secret)) as [key|e|p] eqn:Hd;
    [|reflexivity|].
  - unfold quo, rem. replace (period =? 0) with false by blia.
    cbn [mbind outcome_bind mret outcome_ret].
    set (hash := hmac_sha1 key _).
    pose proof (length_hmac_sha1 key (PutUint64 (uint64 (int64 (time_Now_Unix w ÷ period))))) as Hlen.
    fold hash in Hlen.
    destruct (dynamicTruncation_digest hash Hlen)
      as (offset & v & Ho & _ & Eo & Hs & Hv & _ & _).
    unfold index. rewrite Hlen.
    change ((0 <=? 19) && (19 <? Z.of_nat 20)) with true.
    change (Z.to_nat 19) with 19%nat.
    cbn [mbind outcome_bind]. rewrite <- Eo.
    replace (uint8 (offset + 4)) with (offset + 4)
      by (unfold uint8; rewrite Z.mod_small; change (2 ^ 8) with 256; lia).
    rewrite Hs. cbn [mbind outcome_bind]. rewrite Hv. reflexivity.
  - pose proof (base32_DecodeString_no_panic (Legacy.cleanSecret secret)) as Hn.
    rewrite Hd in Hn. discriminate Hn.
Qed.

End Engine.

Lemma testTOTP_ok : Mfa.testTOTP = Ok (1, "287082").
Proof. vm_compute. reflexivity. Qed.

(** ** Claims about the TOTP engine and the secret normaliser *)

(** C1 as stated takes 94287082 for the 31-bit truncated value; that value
    is 1094287082, and 94287082 are its eight low decimal digits. *)
Lemma truncated_value_at_test_vector :
  Mfa.dynamicTruncation
    (hmac_sha1 (bytes "12345678901234567890") (PutUint64 (uint64 1)))
  = Ok 1094287082 /\
  1094287082 <> 94287082.
Proof. split; [vm_compute; reflexivity | discriminate]. Qed.

(** C1 (amended).  RFC 6238 conformance at the published test vector: with
    the bytes of the ASCII string 12345678901234567890 as the HMAC-SHA1 key,
    period 30 and Unix time 59, the time counter is 1, the 31-bit truncated
    value is 1094287082, its eight low digits are 94287082 and the six-digit
    code is 287082.  This is what [testTOTP] computes, and what
    [generateTOTPWithOffset] returns for the Base32 form of that key at
    second 59, with one second of validity left. *)
Theorem rfc6238_test_vector :
  let key := bytes "12345678901234567890" in
  Mfa.timeCounter 59 30 = Ok 1 /\
  Mfa.dynamicTruncation (hmac_sha1 key (PutUint64 (uint64 1))) = Ok 1094287082 /\
  1094287082 < 2 ^ 31 /\
  Z.rem 1094287082 100000000 = 94287082 /\
  Sprintf_06d (Z.rem 1094287082 1000000) = "287082" /\
  Mfa.testTOTP = Ok (1, "287082") /\
  forall (T : CaseTables) (e : list Z) (h : option string) (m wr : bool)
         (wf : option nat) (f : gmap string inode),
    base32_DecodeString (Mfa.cleanSecret "GEZDGNBVGY3TQOJQGEZDGNBVGY3TQOJQ") = Ok key /\
    Mfa.generateTOTPWithOffset (mkWorld 59 e h m wr wf f)
      "GEZDGNBVGY3TQOJQGEZDGNBVGY3TQOJQ" 30 0 = Ok ("287082", 1).
Proof.
  cbv zeta. split; [reflexivity|]. split; [vm_compute; reflexivity|].
  split; [reflexivity|]. split; [reflexivity|].
  split; [vm_compute; reflexivity|]. split; [exact testTOTP_ok|].
  intros T e h m wr wf f. split; vm_compute; reflexivity.
Qed.

Section Normaliser.
Context `{CaseTables}.

(** C2.  For every input, [cleanSecret] returns the input folded to upper
    case, with every character outside A-Z and 2-7 removed, followed by the
    padding that the number of remaining characters modulo 8 calls for:
    six pads for remainder 2, four for 4, three for 5, one for 7, none for 0.
    Remainders 1, 3 and 6 get no padding, and then the Base32 decoding in
    [generateTOTPWithOffset] fails with an error, whatever the period. *)
Theorem cleanSecret_normal_form (secret : string) :
  let data := Spec.kept secret in
  let r := Z.of_nat (length data) mod 8 in
  Mfa.cleanSecret secret = Spec.normalize secret /\
  (r = 0 -> Mfa.cleanSecret secret = of_bytes data) /\
  (r = 2 -> Mfa.cleanSecret secret = of_bytes data +:+ "======") /\
  (r = 4 -> Mfa.cleanSecret secret = of_bytes data +:+ "====") /\
  (r = 5 -> Mfa.cleanSecret secret = of_bytes data +:+ "===") /\
  (r = 7 -> Mfa.cleanSecret secret = of_bytes data +:+ "=") /\
  (r = 1 \/ r = 3 \/ r = 6 ->
   Mfa.cleanSecret secret = of_bytes data /\
   forall (w : World) (period timeOffset : Z), exists pos,
     Mfa.generateTOTPWithOffset w secret period timeOffset
     = Err (Errorf "invalid secret key after cleaning" (CorruptInputError pos))).
Proof.
  intros data r.
  assert (Hn : Mfa.cleanSecret secret = Spec.normalize secret)
    by apply cleanSecret_normalize.
  assert (Hr : forall k, r = k ->
            Mfa.cleanSecret secret = of_bytes data +:+ Spec.pads (Spec.padding_table k)).
  { intros k <-. exact Hn. }
  split; [exact Hn|].
  split; [intros E; rewrite (Hr 0 E); apply append_empty_r|].
  split; [intros E; exact (Hr 2 E)|].
  split; [intros E; exact (Hr 4 E)|].
  split; [intros E; exact (Hr 5 E)|].
  split; [intros E; exact (Hr 7 E)|].
  intros Hbad.
  assert (Hc : Mfa.cleanSecret secret = of_bytes data).
  { destruct Hbad as [E|[E|E]]; rewrite (Hr _ E); apply append_empty_r. }
  split; [exact Hc|].
  intros w period timeOffset.
  destruct (base32_DecodeString_unpadded data) as [pos Hpos].
  - apply alphabet_base32, kept_alphabet.
  - fold r. lia.
  - exists pos. apply generateTOTPWithOffset_decode_error.
    rewrite Hc. exact Hpos.
Qed.

(** C9.  Normalisation is idempotent: a canonical padded Base32 string is
    returned as it is, and normalising twice is normalising once. *)
Theorem cleanSecret_idempotent :
  (forall s : string, Spec.canonical s -> Mfa.cleanSecret s = s) /\
  (forall s : string, Mfa.cleanSecret (Mfa.cleanSecret s) = Mfa.cleanSecret s).
Proof.
  split.
  - intros s (d & Hd & _ & ->). apply cleanSecret_padded, Hd.
  - intros s. rewrite (cleanSecret_normalize s). unfold Spec.normalize.
    apply cleanSecret_padded, kept_alphabet.
Qed.

End Normaliser.

(** The secret "a-b c" followed by the two bytes of a letter outside ASCII. *)
Lemma cleanSecret_normal_form_witness :
  let secret := of_bytes [0x61; 0x2D; 0x62; 0x20; 0x63; 0xC3; 0xA9] in
  @Spec.kept Sample.tables secret = bytes "ABC" /\
  Z.of_nat (length (@Spec.kept Sample.tables secret)) mod 8 = 3 /\
  @Mfa.cleanSecret Sample.tables secret = "ABC" /\
  exists pos,
    @Mfa.generateTOTPWithOffset Sample.tables Sample.fresh secret 30 0
    = Err (Errorf "invalid secret key after cleaning" (CorruptInputError pos)).
Proof.
  intros secret.
  pose proof (@cleanSecret_normal_form Sample.tables secret) as Hw.
  cbv zeta in Hw. destruct Hw as (_ & _ & _ & _ & _ & _ & Hbad).
  assert (K : @Spec.kept Sample.tables secret = bytes "ABC") by (vm_compute; reflexivity).
  assert (E : Z.of_nat (length (@Spec.kept Sample.tables secret)) mod 8 = 3)
    by (rewrite K; reflexivity).
  destruct (Hbad (or_intror (or_introl E))) as [Hc Hd].
  split; [exact K|]. split; [exact E|]. split; [rewrite Hc, K; reflexivity|].
  exact (Hd Sample.fresh 30 0).
Defined.

Lemma cleanSecret_idempotent_witness :
  Spec.canonical "MZXW6===" /\ @Mfa.cleanSecret Sample.tables "MZXW6===" = "MZXW6===".
Proof.
  assert (Hc : Spec.canonical "MZXW6===").
  { exists (bytes "MZXW6"). split.
    - repeat constructor.
    - split; [vm_compute; repeat split; discriminate | vm_compute; reflexivity]. }
  split; [exact Hc|].
  exact (proj1 (@cleanSecret_idempotent Sample.tables) "MZXW6===" Hc).
Defined.

Section Period.
Context `{CaseTables}.

Lemma generateTOTPWithOffset_remaining (w : World) (secret otp : string)
    (period timeOffset remaining : Z) :
  Mfa.generateTOTPWithOffset w secret period timeOffset = Ok (otp, remaining) ->
  Mfa.remainingSeconds (int64 (time_Now_Unix w + timeOffset)) period = Ok remaining.
Proof.
  unfold Mfa.generateTOTPWithOffset.
  destruct (base32_DecodeString (Mfa.cleanSecret secret)) as [key|e|p]; try discriminate.
  unfold Mfa.timeCounter, Mfa.remainingSeconds, quo, rem.
  destruct (period =? 0); [discriminate|].
  cbn [mbind outcome_bind mret outcome_ret].
  destruct (Mfa.dynamicTruncation _) as [t|e|p]; try discriminate.
  cbn [mbind outcome_bind mret outcome_ret].
  intros [= _ <-]. reflexivity.
Qed.

(** C3 (the code at the failing input).  No period is rejected: with a
    secret that decodes, period 0 reaches the division and panics, a negative
    period yields a result, and [SetupMFA] with period 0 panics the same way
    before it touches the store. *)
Theorem zero_period_reaches_division (w : World) (secret : string)
    (timeOffset : Z) (key : list Z) :
  base32_DecodeString (Mfa.cleanSecret secret) = Ok key ->
  Mfa.generateTOTPWithOffset w secret 0 timeOffset = Panic DivideByZero /\
  (forall period : Z, period < 0 ->
     is_err (Mfa.generateTOTPWithOffset w secret period timeOffset) = false /\
     is_panic (Mfa.generateTOTPWithOffset w secret period timeOffset) = false) /\
  (forall (J : JSON Mfa.MFAStorage) (account name : string),
     Mfa.SetupMFA account name secret 0 w = (Panic DivideByZero, w)).
Proof.
  intros Hkey. split; [apply (generateTOTPWithOffset_zero_period w secret timeOffset key Hkey)|].
  split.
  - intros period Hp.
    destruct (generateTOTPWithOffset_ok w secret period timeOffset key Hkey ltac:(lia))
      as (otp & remaining & -> & _). split; reflexivity.
  - intros J account name. unfold Mfa.SetupMFA.
    rewrite testTOTP_ok. unfold Mfa.generateTOTP.
    unfold mbind, IO_bind, lift, wrap.
    rewrite (generateTOTPWithOffset_zero_period w secret 0 key Hkey). reflexivity.
Qed.

(** C10 (amended).  The dynamic truncation is always in bounds: the
    HMAC-SHA1 digest has exactly 20 bytes, the offset is the low nibble of
    its last byte and lies in [0, 15], the window [hash[offset:offset+4]] ends
    at index 19 at most, the truncated value is below 2^31, and the value
    formatted is below 1,000,000 and printed with six characters.  Hence,
    whenever the period is not zero, neither [generateTOTPWithOffset] nor the
    earlier [generateTOTP] panics. *)
Theorem dynamic_truncation_in_bounds :
  (forall key msg : list Z,
     let hash := hmac_sha1 key msg in
     length hash = 20%nat /\
     exists offset window v : Z,
       index hash (Z.of_nat (length hash) - 1) = Ok (nth 19 hash 0) /\
       offset = Z.land (nth 19 hash 0) 0x0f /\
       0 <= offset <= 15 /\ offset + 4 <= 19 /\
       (exists bs, slice hash offset (offset + 4) = Ok bs /\ Uint32 bs = Ok window) /\
       v = Z.land window 0x7fffffff /\
       Mfa.dynamicTruncation hash = Ok v /\
       0 <= v < 2 ^ 31 /\
       0 <= Z.rem v 1000000 < 1000000 /\
       String.length (Sprintf_06d (Z.rem v 1000000)) = 6%nat) /\
  (forall (w : World) (secret : string) (period timeOffset : Z),
     period <> 0 ->
     is_panic (Mfa.generateTOTPWithOffset w secret period timeOffset) = false) /\
  (forall (w : World) (secret : string) (period : Z),
     period <> 0 -> is_panic (Legacy.generateTOTP w secret period) = false).
Proof.
  split; [|split].
  - intros key msg hash.
    pose proof (length_hmac_sha1 key msg) as Hlen. fold hash in Hlen.
    split; [exact Hlen|].
    destruct (dynamicTruncation_digest hash Hlen)
      as (offset & v & Ho & Ho4 & Eo & Hs & Hv & Ht & Hb).
    exists offset, v, (Z.land v 0x7fffffff).
    split.
    { rewrite Hlen. unfold index. rewrite Hlen. reflexivity. }
    split; [exact Eo|]. split; [exact Ho|]. split; [exact Ho4|].
    split; [eauto|]. split; [reflexivity|]. split; [exact Ht|]. split; [exact Hb|].
    assert (Hr : 0 <= Z.rem (Z.land v 0x7fffffff) 1000000 < 1000000).
    { rewrite Z.rem_mod_nonneg by lia. apply Z.mod_pos_bound. lia. }
    split; [exact Hr | apply length_Sprintf_06d, Hr].
  - intros w secret period timeOffset. apply generateTOTPWithOffset_no_panic.
  - intros w secret period. apply legacy_generateTOTP_no_panic.
Qed.

End Period.

Lemma zero_period_reaches_division_witness :
  base32_DecodeString (@Mfa.cleanSecret Sample.tables "GEZDGNBVGY3TQOJQ")
  = Ok (bytes "1234567890") /\
  @Mfa.generateTOTPWithOffset Sample.tables Sample.fresh "GEZDGNBVGY3TQOJQ" 0 0
  = Panic DivideByZero.
Proof.
  assert (Hk : base32_DecodeString (@Mfa.cleanSecret Sample.tables "GEZDGNBVGY3TQOJQ")
               = Ok (bytes "1234567890")) by (vm_compute; reflexivity).
  split; [exact Hk|].
  exact (proj1 (@zero_period_reaches_division Sample.tables Sample.fresh
                  "GEZDGNBVGY3TQOJQ" 0 (bytes "1234567890") Hk)).
Defined.

(** C10 as stated fails at period 0: the secret decodes and the division
    that follows panics. *)
Lemma panic_after_successful_decode :
  base32_DecodeString (@Mfa.cleanSecret Sample.tables "MZXW6YTBOI======")
  = Ok (bytes "foobar") /\
  is_panic (@Mfa.generateTOTPWithOffset Sample.tables Sample.fresh "MZXW6YTBOI======" 0 0)
  = true.
Proof. split; vm_compute; reflexivity. Qed.

Lemma dynamic_truncation_in_bounds_witness :
  30 <> 0 /\
  is_panic (@Mfa.generateTOTPWithOffset Sample.tables Sample.fresh "MZXW6YTBOI======" 30 0)
  = false /\
  is_panic (@Legacy.generateTOTP Sample.tables Sample.fresh "mzxw 6ytb oi== ====" 30) = false.
Proof.
  assert (Hp : 30 <> 0) by discriminate.
  destruct (@dynamic_truncation_in_bounds Sample.tables) as (_ & Hnew & Hold).
  split; [exact Hp|]. split; [apply Hnew, Hp | apply Hold, Hp].
Defined.

(** ** Remaining validity and the time counter *)

(** The engine one second before the epoch, where it gets with the clock
    at second 59 and the offset -60 that [generateTOTPCodes] passes: the
    remainder of the division is negative there, so 31 seconds remain of a
    period of 30, and the counter is 0 on both sides of the multiple 0 of
    the period. *)
Lemma remaining_exceeds_period_before_epoch :
  Mfa.remainingSeconds (-1) 30 = Ok 31 /\ ~ (1 <= 31 <= 30) /\
  Mfa.timeCounter (-1) 30 = Ok 0 /\ Mfa.timeCounter 0 30 = Ok 0 /\
  time_Now_Unix Sample.fresh + -60 = -1 /\
  @Mfa.generateTOTPWithOffset Sample.tables Sample.fresh "GEZDGNBVGY3TQOJQ" 30 (-60)
  = Ok ("891490", 31).
Proof.
  split; [reflexivity|]. split; [lia|]. split; [reflexivity|]. split; [reflexivity|].
  split; [reflexivity|]. vm_compute. reflexivity.
Qed.

Lemma rem_negative (now p : Z) :
  now < 0 -> 0 < p ->
  (now mod p = 0 -> Z.rem now p = 0 /\ Z.quot now p = now / p) /\
  (now mod p <> 0 -> Z.rem now p = now mod p - p /\ Z.quot now p = now / p + 1).
Proof.
  intros Hn Hp.
  pose proof (Z.quot_rem' now p) as Hqr.
  pose proof (Z.rem_bound_pos_neg now p Hp ltac:(lia)) as Hr.
  pose proof (Z.div_mod now p ltac:(lia)) as Hdm.
  pose proof (Z.mod_pos_bound now p Hp) as Hm.
  assert (Hk : p * (Z.quot now p - now / p) = now mod p - Z.rem now p) by lia.
  split; intros Hz.
  - assert (Z.quot now p - now / p = 0) by nia. lia.
  - assert (Z.quot now p - now / p = 1) by nia. lia.
Qed.

(** C4 (the code at the failing input).  [remaining] and [counter] are
    computed with Go's [%] and [/], which round towards zero.  For every
    period p > 0 and every time now >= 0 the claim holds: the remaining
    validity is p - now mod p, in [1, p], equal to p exactly when
    now mod p = 0, and the counter is floor(now / p), growing by 1 exactly
    when a multiple of p is crossed.  For a time now < 0, which the offsets
    of [generateTOTPCodes] produce, it holds only at the multiples of p:
    elsewhere the remaining validity is 2 p - now mod p, more than p, the
    counter is floor(now / p) + 1, and the counter is 0 on both sides of the
    epoch.  The remaining validity that [generateTOTPWithOffset] returns is
    this value. *)
Theorem remaining_and_counter (now p : Z) :
  MinInt64 < now < MaxInt64 -> 0 < p <= MaxInt64 ->
  exists r c : Z,
    Mfa.remainingSeconds now p = Ok r /\
    Mfa.timeCounter now p = Ok c /\
    (forall (T : CaseTables) (w : World) (secret otp : string) (timeOffset remaining : Z),
       time_Now_Unix w + timeOffset = now ->
       Mfa.generateTOTPWithOffset w secret p timeOffset = Ok (otp, remaining) ->
       remaining = r) /\
    (0 <= now ->
     r = p - now mod p /\ 1 <= r <= p /\ (r = p <-> now mod p = 0) /\
     c = now / p /\
     Mfa.timeCounter (now + 1) p
     = Ok (if (now + 1) mod p =? 0 then now / p + 1 else now / p)) /\
    (now < 0 -> 2 * p <= MaxInt64 ->
     (now mod p = 0 -> r = p /\ c = now / p) /\
     (now mod p <> 0 -> r = 2 * p - now mod p /\ p < r < 2 * p /\ c = now / p + 1) /\
     (- p < now -> c = 0 /\ Mfa.timeCounter (now + p) p = Ok 0)).
Proof.
  intros Hnow Hp.
  assert (Hp0 : (p =? 0) = false) by lia.
  exists (int64 (p - int64 (Z.rem now p))), (int64 (Z.quot now p)).
  split; [unfold Mfa.remainingSeconds, rem; rewrite Hp0; reflexivity|].
  split; [unfold Mfa.timeCounter, quo; rewrite Hp0; reflexivity|].
  split.
  { intros T w secret otp timeOffset remaining Hw Hg.
    apply generateTOTPWithOffset_remaining in Hg.
    rewrite Hw in Hg. rewrite int64_id in Hg
      by (unfold is_int64, MinInt64, MaxInt64 in *; lia).
    unfold Mfa.remainingSeconds, rem in Hg. rewrite Hp0 in Hg.
    cbn [mbind outcome_bind mret outcome_ret] in Hg.
    change (Ok (int64 (p - int64 (Z.rem now p))) = Ok remaining) in Hg. congruence. }
  pose proof (Z.mod_pos_bound now p ltac:(lia)) as Hm.
  split.
  - intros Hpos.
    rewrite Z.rem_mod_nonneg, Z.quot_div_nonneg by lia.
    pose proof (Z.mod_le now p ltac:(lia) ltac:(lia)) as Hle.
    pose proof (Z.div_pos now p ltac:(lia) ltac:(lia)) as Hd0.
    pose proof (Z.div_le_upper_bound now p (2 ^ 63 - 1) ltac:(lia)
                  ltac:(unfold MaxInt64 in *; nia)) as Hd1.
    rewrite (int64_id (now mod p)), (int64_id (p - now mod p)), (int64_id (now / p))
      by (unfold is_int64, MinInt64, MaxInt64 in *; lia).
    split; [reflexivity|]. split; [lia|]. split; [lia|]. split; [reflexivity|].
    unfold Mfa.timeCounter. rewrite quo_nonneg by lia. f_equal.
    pose proof (Z.div_mod now p ltac:(lia)) as Hdm.
    destruct (Z.eq_dec (now mod p + 1) p) as [Hlast|Hmid].
    + assert (Hq : (now + 1) / p = now / p + 1).
      { symmetry. apply (Z.div_unique (now + 1) p (now / p + 1) 0); lia. }
      assert (Hz : (now + 1) mod p = 0).
      { symmetry. apply (Z.mod_unique (now + 1) p (now / p + 1) 0); lia. }
      rewrite Hz, Hq. reflexivity.
    + assert (Hq : (now + 1) / p = now / p).
      { symmetry. apply (Z.div_unique (now + 1) p (now / p) (now mod p + 1)); lia. }
      assert (Hz : (now + 1) mod p = now mod p + 1).
      { symmetry. apply (Z.mod_unique (now + 1) p (now / p) (now mod p + 1)); lia. }
      rewrite Hz, Hq. replace (now mod p + 1 =? 0) with false by blia. reflexivity.
  - intros Hneg H2p.
    destruct (rem_negative now p Hneg ltac:(lia)) as [Hzero Hnz].
    pose proof (Z.div_mod now p ltac:(lia)) as Hdm.
    assert (Hdiv : MinInt64 <= now / p < 0).
    { unfold MinInt64, MaxInt64 in *.
      pose proof (Z.div_lt_upper_bound now p 0 ltac:(lia) ltac:(lia)).
      pose proof (Z.div_le_lower_bound now p (- 2 ^ 63) ltac:(lia) ltac:(nia)). lia. }
    split; [|split].
    + intros Hz. destruct (Hzero Hz) as [-> ->].
      rewrite (int64_id 0), (int64_id (p - 0)), (int64_id (now / p))
        by (unfold is_int64, MinInt64, MaxInt64 in *; lia).
      split; [lia | reflexivity].
    + intros Hz. destruct (Hnz Hz) as [-> ->].
      rewrite (int64_id (now mod p - p)), (int64_id (p - (now mod p - p))),
        (int64_id (now / p + 1))
        by (unfold is_int64, MinInt64, MaxInt64 in *; lia).
      split; [lia|]. split; [lia | reflexivity].
    + intros Hnear.
      assert (Hq : Z.quot now p = 0) by (apply Z.quot_small_iff; lia).
      rewrite Hq. split; [reflexivity|].
      unfold Mfa.timeCounter. rewrite quo_nonneg by lia.
      rewrite Z.div_small by lia. reflexivity.
Qed.

Lemma remaining_and_counter_witness :
  MinInt64 < -1 < MaxInt64 /\ 0 < 30 <= MaxInt64 /\
  exists r c : Z,
    Mfa.remainingSeconds (-1) 30 = Ok r /\ Mfa.timeCounter (-1) 30 = Ok c /\
    r = 2 * 30 - (-1) mod 30 /\ 30 < r /\ c = 0 /\
    Mfa.timeCounter ((-1) + 30) 30 = Ok 0.
Proof.
  assert (Hn : MinInt64 < -1 < MaxInt64) by (unfold MinInt64, MaxInt64; lia).
  assert (Hp : 0 < 30 <= MaxInt64) by (unfold MaxInt64; lia).
  split; [exact Hn|]. split; [exact Hp|].
  destruct (remaining_and_counter (-1) 30 Hn Hp) as (r & c & Hr & Hc & _ & _ & Hneg).
  destruct (Hneg ltac:(lia) ltac:(unfold MaxInt64; lia)) as (_ & Hnz & Hnear).
  destruct (Hnz ltac:(discriminate)) as (Er & Hb & _).
  destruct (Hnear ltac:(lia)) as (Ec & Hc0).
  exists r, c. repeat (split; [assumption|]). split; [lia|]. split; assumption.
Defined.

(** ** The environment *)

Lemma set_entropy_same (w : World) : set_entropy w (entropy w) = w.
Proof. destruct w; reflexivity. Qed.

Lemma drawn_0 (w : World) : drawn 0 w = w.
Proof. unfold drawn. rewrite drop_0. apply set_entropy_same. Qed.

Lemma drawn_S (n : nat) (w : World) (v : Z) (rest : list Z) :
  entropy w = v :: rest -> drawn n (set_entropy w rest) = drawn (S n) w.
Proof. intros Hw. unfold drawn. rewrite Hw. reflexivity. Qed.

Lemma rand_Int_next (max : Z) (w : World) (v : Z) (rest : list Z) :
  0 < max -> entropy w = v :: rest ->
  rand_Int max w = (Ok (v mod max), set_entropy w rest).
Proof.
  intros Hm Hw. unfold rand_Int. replace (max <=? 0) with false by blia.
  rewrite Hw. reflexivity.
Qed.

(** ** Loading a store *)

Section Stores.
Context {tables : CaseTables} {mfa_codec : JSON Mfa.MFAStorage}
        {pass_codec : JSON Pass.PasswordStorage} {mpin_codec : JSON Mpin.MPINConfig}.

Lemma loadMFAStorage_eval (w : World) :
  Mfa.loadMFAStorage w
  = load_result Layout.mfa "mfa" "failed to read config file"
      (guarded "failed to parse config file" (Mfa.mkMFAStorage [])) (Mfa.mkMFAStorage []) w.
Proof.
  unfold Mfa.loadMFAStorage, Mfa.getConfigPath, load_result, guarded. io_cases w.
  fold (Layout.mfa h).
  destruct (fs w !! Layout.mfa h) as [f|] eqn:Ef; [|reflexivity].
  rewrite bool_decide_eq_false_2 by discriminate.
  cbv beta iota zeta. rewrite Ef.
  destruct (readable f); [|reflexivity].
  destruct (Z.of_nat (length (data f)) =? 0); [reflexivity|].
  destruct (json_Unmarshal (data f)); reflexivity.
Qed.

Lemma loadPasswordStorage_eval (w : World) :
  Pass.loadPasswordStorage w
  = load_result Layout.pass "pass" "failed to read password config file"
      (guarded "failed to parse password config file" (Pass.mkPasswordStorage []))
      (Pass.mkPasswordStorage []) w.
Proof.
  unfold Pass.loadPasswordStorage, Pass.getPasswordConfigPath, load_result, guarded.
  io_cases w. fold (Layout.pass h).
  destruct (fs w !! Layout.pass h) as [f|] eqn:Ef; [|reflexivity].
  rewrite bool_decide_eq_false_2 by discriminate.
  cbv beta iota zeta. rewrite Ef.
  destruct (readable f); [|reflexivity].
  destruct (Z.of_nat (length (data f)) =? 0); [reflexivity|].
  destruct (json_Unmarshal (data f)); reflexivity.
Qed.

Lemma loadMPINConfig_eval (w : World) :
  Mpin.loadMPINConfig w
  = load_result Layout.mpin "mpin" "failed to read config file"
      (unguarded "failed to parse config file") (Mpin.mkMPINConfig []) w.
Proof.
  unfold Mpin.loadMPINConfig, Mpin.getMPINConfigPath, load_result, unguarded.
  io_cases w. fold (Layout.mpin h).
  destruct (fs w !! Layout.mpin h) as [f|] eqn:Ef; [|reflexivity].
  rewrite bool_decide_eq_false_2 by discriminate.
  cbv beta iota zeta. rewrite Ef.
  destruct (readable f); [|reflexivity].
  destruct (json_Unmarshal (data f)); reflexivity.
Qed.

End Stores.

(** ** Saving a store *)

Section Saves.
Context {mfa_codec : JSON Mfa.MFAStorage} {pass_codec : JSON Pass.PasswordStorage}
        {mpin_codec : JSON Mpin.MPINConfig}.

Lemma saveMFAStorage_eval (storage : Mfa.MFAStorage) (w : World) :
  Mfa.saveMFAStorage storage w
  = save_result Layout.mfa "mfa" "failed to write config file"
      (json_MarshalIndent storage) w.
Proof.
  unfold Mfa.saveMFAStorage, Mfa.getConfigPath, save_result. io_cases w.
  fold (Layout.mfa h). destruct (write_ok w); [|destruct (write_fault w)]; reflexivity.
Qed.

Lemma savePasswordStorage_eval (storage : Pass.PasswordStorage) (w : World) :
  Pass.savePasswordStorage storage w
  = save_result Layout.pass "pass" "failed to write password config file"
      (json_MarshalIndent storage) w.
Proof.
  unfold Pass.savePasswordStorage, Pass.getPasswordConfigPath, save_result. io_cases w.
  fold (Layout.pass h). destruct (write_ok w); [|destruct (write_fault w)]; reflexivity.
Qed.

Lemma saveMPINConfig_eval (config : Mpin.MPINConfig) (w : World) :
  Mpin.saveMPINConfig config w
  = save_result Layout.mpin "mpin" "failed to write config file"
      (json_MarshalIndent config) w.
Proof.
  unfold Mpin.saveMPINConfig, Mpin.getMPINConfigPath, save_result. io_cases w.
  fold (Layout.mpin h). destruct (write_ok w); [|destruct (write_fault w)]; reflexivity.
Qed.

End Saves.

(** A load that succeeds leaves the environment as it was, and found either
    no file or a readable one. *)
Lemma load_result_ok {T : Type} (path : string -> string) (dir readmsg : string)
    (parse : list Z -> outcome T) (empty s : T) (w w' : World) :
  load_result path dir readmsg parse empty w = (Ok s, w') ->
  w' = w /\
  exists h, home w = Some h /\ mkdir_ok w = true /\
    match fs w !! path h with Some f => readable f | None => true end = true.
Proof.
  unfold load_result.
  destruct (home w) as [h|]; [|discriminate].
  destruct (mkdir_ok w); [|discriminate].
  destruct (fs w !! path h) as [f|] eqn:Ef.
  - destruct (readable f) eqn:Er; [|discriminate].
    intros [= _ <-]. split; [reflexivity|]. exists h. rewrite Ef. auto.
  - intros [= _ <-]. split; [reflexivity|]. exists h. rewrite Ef. auto.
Qed.

(** Loading does not look at the random source. *)
Lemma load_result_drawn {T : Type} (path : string -> string) (dir readmsg : string)
    (parse : list Z -> outcome T) (empty : T) (o : outcome T) (w w' : World) (n : nat) :
  load_result path dir readmsg parse empty w = (o, w') ->
  load_result path dir readmsg parse empty (drawn n w) = (o, drawn n w).
Proof.
  unfold load_result, drawn. cbn [home mkdir_ok fs set_entropy].
  destruct (home w) as [h|]; [|intros [= <- _]; reflexivity].
  destruct (mkdir_ok w); [|intros [= <- _]; reflexivity].
  destruct (fs w !! path h) as [f|]; [|intros [= <- _]; reflexivity].
  destruct (readable f); intros [= <- _]; reflexivity.
Qed.

(** After a successful load, a save into a writable place stores the bytes. *)
Lemma save_after_load {T : Type} (path : string -> string) (dir readmsg writemsg : string)
    (parse : list Z -> outcome T) (empty s : T) (d : list Z) (w w' : World) :
  load_result path dir readmsg parse empty w = (Ok s, w') ->
  write_ok w = true ->
  exists h, home w = Some h /\
    save_result path dir writemsg d w = (Ok tt, written (path h) d w).
Proof.
  intros Hl Hw. apply load_result_ok in Hl.
  destruct Hl as (_ & h & Hh & Hm & Hr).
  exists h. split; [exact Hh|].
  unfold save_result, written. rewrite Hh, Hm, Hw, Hr. reflexivity.
Qed.

(** ** Upsert *)

Section Upsert.
Context {E : Type} (P : E -> Prop).

Lemma upserted_replace (e : E) (old : list E) (i : nat) (x : E) :
  old !! i = Some x -> P x ->
  (forall (j : nat) (y : E), old !! j = Some y -> (j < i)%nat -> ~ P y) ->
  Spec.upserted P e old (<[i := e]> old).
Proof.
  intros Hi Hx Hfirst. left. exists i, x.
  split; [exact Hi|]. split; [exact Hx|]. split.
  - intros j y Hj Hy. destruct (decide (i <= j)%nat) as [|Hlt]; [assumption|].
    exfalso. apply (Hfirst j y Hj); [lia | exact Hy].
  - split; [apply length_insert|]. split.
    + apply list_lookup_insert_eq. eapply lookup_lt_Some, Hi.
    + intros j Hj. apply list_lookup_insert_ne. congruence.
Qed.

Lemma upserted_append (e : E) (old : list E) :
  Forall (fun x => ~ P x) old -> Spec.upserted P e old (old ++ [e]).
Proof. intros Hn. right. split; [exact Hn | reflexivity]. Qed.

Lemma upserted_insert (e : E) (old new : list E) (i : nat) (x : E) :
  old !! i = Some x -> length new = length old -> new !! i = Some e ->
  (forall j : nat, j <> i -> new !! j = old !! j) ->
  new = <[i := e]> old.
Proof.
  intros Hi Hlen He Hothers. apply list_eq. intros j.
  destruct (decide (j = i)) as [->|Hj].
  - rewrite He. symmetry. apply list_lookup_insert_eq. eapply lookup_lt_Some, Hi.
  - rewrite list_lookup_insert_ne by congruence. apply Hothers, Hj.
Qed.

(** An upsert keeps the keys of the collection pairwise distinct. *)
Lemma upserted_NoDup {K : Type} (key : E -> K) (e : E) (old new : list E) :
  (forall x, P x <-> key x = key e) ->
  Spec.upserted P e old new ->
  NoDup (key <$> old) -> NoDup (key <$> new).
Proof.
  intros HP [(i & x & Hi & Hx & _ & Hlen & He & Hothers) | [Hnone ->]] Hnd.
  - rewrite (upserted_insert e old new i x Hi Hlen He Hothers).
    rewrite list_fmap_insert, list_insert_id; [exact Hnd|].
    rewrite list_lookup_fmap, Hi. cbn. f_equal. apply HP, Hx.
  - rewrite fmap_app. apply list.NoDup_app. split; [exact Hnd|]. split.
    + intros k Hk Hk'. apply list_elem_of_fmap in Hk as (y & -> & Hy).
      apply list_elem_of_singleton in Hk'.
      rewrite list.Forall_forall in Hnone. apply (Hnone y Hy), HP, Hk'.
    + apply NoDup_singleton.
Qed.

End Upsert.

(** ** Random digits and characters *)

Lemma IO_bind_Ok {A B : Type} (m : IO A) (k : A -> IO B) (w w' : World) (a : A) :
  m w = (Ok a, w') -> (m ≫= k) w = k a w'.
Proof. intros Hm. unfold mbind, IO_bind. rewrite Hm. reflexivity. Qed.

Lemma IO_bind_Err {A B : Type} (m : IO A) (k : A -> IO B) (w w' : World) (e : error) :
  m w = (Err e, w') -> (m ≫= k) w = (Err e, w').
Proof. intros Hm. unfold mbind, IO_bind. rewrite Hm. reflexivity. Qed.

Lemma wrap_Ok {A : Type} (msg : string) (m : IO A) (w w' : World) (a : A) :
  m w = (Ok a, w') -> wrap msg m w = (Ok a, w').
Proof. intros Hm. unfold wrap. rewrite Hm. reflexivity. Qed.

Lemma wrap_Err {A : Type} (msg : string) (m : IO A) (w w' : World) (e : error) :
  m w = (Err e, w') -> wrap msg m w = (Err (Errorf msg e), w').
Proof. intros Hm. unfold wrap. rewrite Hm. reflexivity. Qed.

Lemma entropy_next (n : nat) (w : World) :
  (S n <= length (entropy w))%nat ->
  exists v rest, entropy w = v :: rest /\ (n <= length rest)%nat.
Proof.
  destruct (entropy w) as [|v rest]; cbn [length]; [lia|].
  intros Hn. exists v, rest. split; [reflexivity | lia].
Qed.

Lemma mpinDigits_ok (n : nat) (pin : list Z) (w : World) :
  (n <= length (entropy w))%nat ->
  exists ds : list Z,
    Mpin.mpinDigits n pin w = (Ok (pin ++ ds), drawn n w) /\
    length ds = n /\ Forall is_digit ds.
Proof.
  revert pin w. induction n as [|n IH]; intros pin w Hn.
  - exists []. rewrite app_nil_r, drawn_0. repeat split. constructor.
  - destruct (entropy_next n w Hn) as (v & rest & Hw & Hrest).
    destruct (IH (pin ++ [uint8 (0x30 + v mod 10)]) (set_entropy w rest) Hrest)
      as (ds & Hds & Hlen & Hall).
    exists (uint8 (0x30 + v mod 10) :: ds).
    cbn [Mpin.mpinDigits].
    rewrite (IO_bind_Ok _ _ w (set_entropy w rest) (v mod 10));
      [|apply wrap_Ok, rand_Int_next; [lia | exact Hw]].
    rewrite Hds, <- app_assoc, (drawn_S n w v rest Hw).
    split; [reflexivity|]. split; [cbn [length]; lia|].
    constructor; [|exact Hall].
    pose proof (Z.mod_pos_bound v 10 ltac:(lia)).
    unfold is_digit, uint8. rewrite Z.mod_small by (change (2 ^ 8) with 256; lia). lia.
Qed.

Lemma is_digit_is_byte (ds : list Z) : Forall is_digit ds -> Forall is_byte ds.
Proof. apply Forall_impl. unfold is_digit, is_byte. lia. Qed.

(** With enough random values, [generateMPIN] returns [length] decimal digits. *)
Lemma generateMPIN_ok (length_ : Z) (w : World) :
  0 < length_ -> (Z.to_nat length_ <= length (entropy w))%nat ->
  exists pin : string,
    Mpin.generateMPIN length_ w = (Ok pin, drawn (Z.to_nat length_) w) /\
    len pin = length_ /\ Forall is_digit (bytes pin).
Proof.
  intros Hl Hn. destruct (mpinDigits_ok (Z.to_nat length_) [] w Hn) as (ds & Hds & Hlen & Hall).
  exists (of_bytes ds). unfold Mpin.generateMPIN.
  replace (length_ <=? 0) with false by blia.
  rewrite (IO_bind_Ok _ _ _ _ _ Hds).
  split; [reflexivity|]. split.
  - unfold len. rewrite length_of_bytes, Hlen. lia.
  - rewrite bytes_of_bytes by (apply is_digit_is_byte, Hall). exact Hall.
Qed.

Lemma len_bytes (s : string) : len s = Z.of_nat (length (bytes s)).
Proof. unfold len. rewrite length_bytes. reflexivity. Qed.

Lemma passwordChars_ok (n : nat) (charset : string) (password : list Z) (w : World) :
  0 < len charset -> (n <= length (entropy w))%nat ->
  exists cs : list Z,
    Pass.passwordChars n charset password w = (Ok (password ++ cs), drawn n w) /\
    length cs = n /\ Forall (fun c => In c (bytes charset)) cs.
Proof.
  intros Hc. revert password w. induction n as [|n IH]; intros password w Hn.
  - exists []. rewrite app_nil_r, drawn_0. repeat split. constructor.
  - destruct (entropy_next n w Hn) as (v & rest & Hw & Hrest).
    pose proof (Z.mod_pos_bound v (len charset) Hc) as Hv.
    set (c := nth (Z.to_nat (v mod len charset)) (bytes charset) 0).
    assert (Hidx : index (bytes charset) (v mod len charset) = Ok c).
    { unfold index. rewrite <- len_bytes.
      replace ((0 <=? v mod len charset) && (v mod len charset <? len charset))
        with true by blia. reflexivity. }
    destruct (IH (password ++ [c]) (set_entropy w rest) Hrest) as (cs & Hcs & Hlen & Hall).
    exists (c :: cs). cbn [Pass.passwordChars].
    rewrite (IO_bind_Ok _ _ w (set_entropy w rest) (v mod len charset));
      [|apply wrap_Ok, rand_Int_next; [exact Hc | exact Hw]].
    rewrite (IO_bind_Ok _ _ (set_entropy w rest) (set_entropy w rest) c);
      [|unfold lift; rewrite Hidx; reflexivity].
    rewrite Hcs, <- app_assoc, (drawn_S n w v rest Hw).
    split; [reflexivity|]. split; [cbn [length]; lia|].
    constructor; [|exact Hall].
    apply nth_In. rewrite len_bytes in Hv |- *. lia.
Qed.

(** With enough random values, [generatePassword] returns [length]
    characters of the character set in use. *)
Lemma generatePassword_ok (length_ : Z) (a A d : bool) (s : string) (w : World) :
  0 < length_ -> (Z.to_nat length_ <= length (entropy w))%nat ->
  0 < len (Pass.passwordCharset a A d s) ->
  exists password : string,
    Pass.generatePassword length_ a A d s w = (Ok password, drawn (Z.to_nat length_) w) /\
    len password = length_ /\
    Forall (fun c => In c (bytes (Pass.passwordCharset a A d s))) (bytes password).
Proof.
  intros Hl Hn Hc.
  destruct (passwordChars_ok (Z.to_nat length_) (Pass.passwordCharset a A d s) [] w Hc Hn)
    as (cs & Hcs & Hlen & Hall).
  exists (of_bytes cs). unfold Pass.generatePassword.
  replace (length_ <=? 0) with false by blia.
  replace (len (Pass.passwordCharset a A d s) =? 0) with false by blia.
  rewrite (IO_bind_Ok _ _ _ _ _ Hcs).
  assert (Hb : Forall is_byte cs).
  { eapply Forall_impl; [|exact Hall]. intros c Hin. cbn in Hin.
    pose proof (bytes_is_byte (Pass.passwordCharset a A d s)) as Hbs.
    rewrite Forall_forall in Hbs. apply Hbs, Hin. }
  split; [reflexivity|]. split.
  - unfold len. rewrite length_of_bytes, Hlen. lia.
  - rewrite bytes_of_bytes by exact Hb. exact Hall.
Qed.

(** ** The three upserts *)

Section UpsertOps.
Context {tables : CaseTables} {mfa_codec : JSON Mfa.MFAStorage}
        {pass_codec : JSON Pass.PasswordStorage} {mpin_codec : JSON Mpin.MPINConfig}.

Lemma SetupMFA_upsert (w : World) (account name secret : string) (period : Z)
    (storage : Mfa.MFAStorage) (v : string * Z) :
  Mfa.generateTOTP w secret period = Ok v ->
  Mfa.loadMFAStorage w = (Ok storage, w) ->
  write_ok w = true ->
  exists (h : string) (new : list Mfa.MFAEntry),
    home w = Some h /\
    Mfa.SetupMFA account name secret period w
    = (Ok tt, written (Layout.mfa h) (json_MarshalIndent (Mfa.mkMFAStorage new)) w) /\
    Spec.upserted (fun x => Mfa.Account x = account /\ Mfa.Name x = name)
      (Mfa.mkMFAEntry account name secret period) (Mfa.Entries storage) new /\
    (NoDup ((fun x => (Mfa.Account x, Mfa.Name x)) <$> Mfa.Entries storage) ->
     NoDup ((fun x => (Mfa.Account x, Mfa.Name x)) <$> new)).
Proof.
  intros Hg Hload Hw.
  assert (Hload' := Hload). rewrite loadMFAStorage_eval in Hload'.
  set (P := fun x => Mfa.Account x = account /\ Mfa.Name x = name).
  set (e := Mfa.mkMFAEntry account name secret period).
  assert (Hkey : forall x, P x <-> (fun x => (Mfa.Account x, Mfa.Name x)) x
                                   = (fun x => (Mfa.Account x, Mfa.Name x)) e).
  { intros x. unfold P, e. cbn. split; [intros [-> ->]; reflexivity | intros [= -> ->]; auto]. }
  assert (Hrun : forall new,
    Mfa.SetupMFA account name secret period w
    = Mfa.saveMFAStorage (Mfa.mkMFAStorage new) w ->
    Spec.upserted P e (Mfa.Entries storage) new ->
    exists (h : string) (new : list Mfa.MFAEntry),
      home w = Some h /\
      Mfa.SetupMFA account name secret period w
      = (Ok tt, written (Layout.mfa h) (json_MarshalIndent (Mfa.mkMFAStorage new)) w) /\
      Spec.upserted P e (Mfa.Entries storage) new /\
      (NoDup ((fun x => (Mfa.Account x, Mfa.Name x)) <$> Mfa.Entries storage) ->
       NoDup ((fun x => (Mfa.Account x, Mfa.Name x)) <$> new))).
  { intros new Hrun Hup.
    destruct (save_after_load _ _ _ "failed to write config file" _ _ _
                (json_MarshalIndent (Mfa.mkMFAStorage new)) _ _ Hload' Hw) as (h & Hh & Hs).
    exists h, new. split; [exact Hh|]. split.
    - rewrite Hrun, saveMFAStorage_eval. exact Hs.
    - split; [exact Hup | apply (upserted_NoDup P _ e _ _ Hkey Hup)]. }
  assert (Hstep : Mfa.SetupMFA account name secret period w
    = match list_find P (Mfa.Entries storage) with
      | Some (i, _) => Mfa.saveMFAStorage (Mfa.mkMFAStorage (<[i := e]> (Mfa.Entries storage))) w
      | None => Mfa.saveMFAStorage (Mfa.mkMFAStorage (Mfa.Entries storage ++ [e])) w
      end).
  { unfold Mfa.SetupMFA.
    rewrite (IO_bind_Ok _ _ w w (1, "287082"))
      by (unfold lift; rewrite testTOTP_ok; reflexivity).
    rewrite (IO_bind_Ok _ _ w w v) by (apply wrap_Ok; rewrite Hg; reflexivity).
    rewrite (IO_bind_Ok _ _ w w storage) by exact Hload.
    fold P e. destruct (list_find P (Mfa.Entries storage)) as [[i x]|]; reflexivity. }
  destruct (list_find P (Mfa.Entries storage)) as [[i x]|] eqn:Hf.
  - apply (Hrun _ Hstep). apply list_find_Some in Hf as (Hi & Hx & Hfirst).
    exact (upserted_replace P e _ i x Hi Hx Hfirst).
  - apply (Hrun _ Hstep). apply list_find_None in Hf. apply upserted_append, Hf.
Qed.

Lemma passwordCharset_nonempty (a A d : bool) (s : string) :
  0 < len (Pass.passwordCharset a A d s).
Proof.
  unfold Pass.passwordCharset. case_bool_decide as Hc; [reflexivity|].
  unfold len. destruct (Pass.flagCharset a A d s); [congruence|]. cbn [String.length]. lia.
Qed.

Lemma AddPassword_upsert (w : World) (name account : string) (length_ : Z)
    (a A d : bool) (s : string) (storage : Pass.PasswordStorage) :
  name <> "" -> account <> "" -> 0 < length_ ->
  (Z.to_nat length_ <= length (entropy w))%nat ->
  Pass.loadPasswordStorage w = (Ok storage, w) ->
  write_ok w = true ->
  exists (h password : string) (new : list Pass.PasswordEntry),
    home w = Some h /\
    Pass.generatePassword length_ a A d s w = (Ok password, drawn (Z.to_nat length_) w) /\
    len password = length_ /\
    Forall (fun c => In c (bytes (Pass.passwordCharset a A d s))) (bytes password) /\
    Pass.AddPassword name account length_ a A d s w
    = (Ok tt, written (Layout.pass h) (json_MarshalIndent (Pass.mkPasswordStorage new))
                (drawn (Z.to_nat length_) w)) /\
    Spec.upserted (fun x => Pass.Name x = name /\ Pass.Account x = account)
      (Pass.mkPasswordEntry name account password length_ (Pass.configDescription a A d s))
      (Pass.Entries storage) new /\
    (NoDup ((fun x => (Pass.Name x, Pass.Account x)) <$> Pass.Entries storage) ->
     NoDup ((fun x => (Pass.Name x, Pass.Account x)) <$> new)).
Proof.
  intros Hname Hacc Hl Hn Hload Hw.
  rewrite loadPasswordStorage_eval in Hload.
  destruct (generatePassword_ok length_ a A d s w Hl Hn (passwordCharset_nonempty a A d s))
    as (password & Hgen & Hlen & Hchars).
  set (n := Z.to_nat length_) in *.
  pose proof (load_result_drawn _ _ _ _ _ _ _ _ n Hload) as Hload'.
  set (P := fun x => Pass.Name x = name /\ Pass.Account x = account).
  set (e := Pass.mkPasswordEntry name account password length_ (Pass.configDescription a A d s)).
  assert (Hkey : forall x, P x <-> (fun x => (Pass.Name x, Pass.Account x)) x
                                   = (fun x => (Pass.Name x, Pass.Account x)) e).
  { intros x. unfold P, e. cbn. split; [intros [-> ->]; reflexivity | intros [= -> ->]; auto]. }
  assert (Hstep : Pass.AddPassword name account length_ a A d s w
    = match list_find P (Pass.Entries storage) with
      | Some (i, _) =>
          Pass.savePasswordStorage (Pass.mkPasswordStorage (<[i := e]> (Pass.Entries storage)))
            (drawn n w)
      | None =>
          Pass.savePasswordStorage (Pass.mkPasswordStorage (Pass.Entries storage ++ [e]))
            (drawn n w)
      end).
  { unfold Pass.AddPassword.
    rewrite bool_decide_eq_false_2 by tauto.
    rewrite (IO_bind_Ok _ _ w (drawn n w) password) by (apply wrap_Ok, Hgen).
    rewrite (IO_bind_Ok _ _ (drawn n w) (drawn n w) storage)
      by (rewrite loadPasswordStorage_eval; exact Hload').
    fold P e. destruct (list_find P (Pass.Entries storage)) as [[i x]|]; reflexivity. }
  assert (Hrun : forall new,
    Pass.AddPassword name account length_ a A d s w
    = Pass.savePasswordStorage (Pass.mkPasswordStorage new) (drawn n w) ->
    Spec.upserted P e (Pass.Entries storage) new ->
    exists (h : string) (new : list Pass.PasswordEntry),
      home w = Some h /\
      Pass.AddPassword name account length_ a A d s w
      = (Ok tt, written (Layout.pass h) (json_MarshalIndent (Pass.mkPasswordStorage new))
                  (drawn n w)) /\
      Spec.upserted P e (Pass.Entries storage) new /\
      (NoDup ((fun x => (Pass.Name x, Pass.Account x)) <$> Pass.Entries storage) ->
       NoDup ((fun x => (Pass.Name x, Pass.Account x)) <$> new))).
  { intros new Hrun Hup.
    destruct (save_after_load _ _ _ "failed to write password config file" _ _ _
                (json_MarshalIndent (Pass.mkPasswordStorage new)) _ _ Hload' Hw)
      as (h & Hh & Hs).
    exists h, new. split; [exact Hh|]. split.
    - rewrite Hrun, savePasswordStorage_eval. exact Hs.
    - split; [exact Hup | apply (upserted_NoDup P _ e _ _ Hkey Hup)]. }
  assert (Hfin : exists (h : string) (new : list Pass.PasswordEntry),
      home w = Some h /\
      Pass.AddPassword name account length_ a A d s w
      = (Ok tt, written (Layout.pass h) (json_MarshalIndent (Pass.mkPasswordStorage new))
                  (drawn n w)) /\
      Spec.upserted P e (Pass.Entries storage) new /\
      (NoDup ((fun x => (Pass.Name x, Pass.Account x)) <$> Pass.Entries storage) ->
       NoDup ((fun x => (Pass.Name x, Pass.Account x)) <$> new))).
  { destruct (list_find P (Pass.Entries storage)) as [[i x]|] eqn:Hf.
    - apply (Hrun _ Hstep). apply list_find_Some in Hf as (Hi & Hx & Hfirst).
      exact (upserted_replace P e _ i x Hi Hx Hfirst).
    - apply (Hrun _ Hstep). apply list_find_None in Hf. apply upserted_append, Hf. }
  destruct Hfin as (h & new & Hh & Hadd & Hup & Hnd).
  exists h, password, new. repeat (split; [assumption|]). exact Hnd.
Qed.

Lemma AddMPIN_upsert (w : World) (name account : string) (length_ : Z)
    (config : Mpin.MPINConfig) :
  name <> "" -> account <> "" -> 0 < length_ ->
  (Z.to_nat length_ <= length (entropy w))%nat ->
  Mpin.loadMPINConfig w = (Ok config, w) ->
  write_ok w = true ->
  exists (h pin : string) (new : list Mpin.MPINEntry),
    home w = Some h /\
    Mpin.generateMPIN length_ w = (Ok pin, drawn (Z.to_nat length_) w) /\
    len pin = length_ /\ Forall is_digit (bytes pin) /\
    Mpin.AddMPIN name account length_ w
    = (Ok tt, written (Layout.mpin h) (json_MarshalIndent (Mpin.mkMPINConfig new))
                (drawn (Z.to_nat length_) w)) /\
    Spec.upserted (fun x => Mpin.Name x = name /\ Mpin.Account x = account)
      (Mpin.mkMPINEntry name account pin) (Mpin.Entries config) new /\
    (NoDup ((fun x => (Mpin.Name x, Mpin.Account x)) <$> Mpin.Entries config) ->
     NoDup ((fun x => (Mpin.Name x, Mpin.Account x)) <$> new)).
Proof.
  intros Hname Hacc Hl Hn Hload Hw.
  assert (Hload0 := Hload). rewrite loadMPINConfig_eval in Hload.
  destruct (generateMPIN_ok length_ w Hl Hn) as (pin & Hgen & Hlen & Hdigits).
  set (n := Z.to_nat length_) in *.
  assert (Hgen' : Mpin.generateMPIN length_ (drawn 0 w) = (Ok pin, drawn n w))
    by (rewrite drawn_0; exact Hgen).
  pose proof (load_result_drawn _ _ _ _ _ _ _ _ n Hload) as Hload'.
  assert (Hwn : write_ok (drawn n w) = true) by exact Hw.
  set (P := fun x => Mpin.Name x = name /\ Mpin.Account x = account).
  set (e := Mpin.mkMPINEntry name account pin).
  assert (Hkey : forall x, P x <-> (fun x => (Mpin.Name x, Mpin.Account x)) x
                                   = (fun x => (Mpin.Name x, Mpin.Account x)) e).
  { intros x. unfold P, e. cbn. split; [intros [-> ->]; reflexivity | intros [= -> ->]; auto]. }
  assert (Hstep : Mpin.AddMPIN name account length_ w
    = match list_find P (Mpin.Entries config) with
      | Some (i, _) =>
          Mpin.saveMPINConfig (Mpin.mkMPINConfig (<[i := e]> (Mpin.Entries config))) (drawn n w)
      | None =>
          Mpin.saveMPINConfig (Mpin.mkMPINConfig (Mpin.Entries config ++ [e])) (drawn n w)
      end).
  { unfold Mpin.AddMPIN.
    rewrite bool_decide_eq_false_2 by tauto.
    replace (length_ <=? 0) with false by blia.
    rewrite (IO_bind_Ok _ _ w w config) by exact Hload0.
    fold P. destruct (list_find P (Mpin.Entries config)) as [[i x]|] eqn:Hf.
    - apply list_find_Some in Hf as (_ & [Hx1 Hx2] & _).
      rewrite (IO_bind_Ok _ _ w (drawn n w) pin) by exact Hgen.
      rewrite Hx1, Hx2. reflexivity.
    - rewrite (IO_bind_Ok _ _ w (drawn n w) pin) by exact Hgen. reflexivity. }
  assert (Hrun : forall new,
    Mpin.AddMPIN name account length_ w
    = Mpin.saveMPINConfig (Mpin.mkMPINConfig new) (drawn n w) ->
    Spec.upserted P e (Mpin.Entries config) new ->
    exists (h : string) (new : list Mpin.MPINEntry),
      home w = Some h /\
      Mpin.AddMPIN name account length_ w
      = (Ok tt, written (Layout.mpin h) (json_MarshalIndent (Mpin.mkMPINConfig new))
                  (drawn n w)) /\
      Spec.upserted P e (Mpin.Entries config) new /\
      (NoDup ((fun x => (Mpin.Name x, Mpin.Account x)) <$> Mpin.Entries config) ->
       NoDup ((fun x => (Mpin.Name x, Mpin.Account x)) <$> new))).
  { intros new Hrun Hup.
    destruct (save_after_load _ _ _ "failed to write config file" _ _ _
                (json_MarshalIndent (Mpin.mkMPINConfig new)) _ _ Hload' Hwn)
      as (h & Hh & Hs).
    exists h, new. split; [exact Hh|]. split.
    - rewrite Hrun, saveMPINConfig_eval. exact Hs.
    - split; [exact Hup | apply (upserted_NoDup P _ e _ _ Hkey Hup)]. }
  assert (Hfin : exists (h : string) (new : list Mpin.MPINEntry),
      home w = Some h /\
      Mpin.AddMPIN name account length_ w
      = (Ok tt, written (Layout.mpin h) (json_MarshalIndent (Mpin.mkMPINConfig new))
                  (drawn n w)) /\
      Spec.upserted P e (Mpin.Entries config) new /\
      (NoDup ((fun x => (Mpin.Name x, Mpin.Account x)) <$> Mpin.Entries config) ->
       NoDup ((fun x => (Mpin.Name x, Mpin.Account x)) <$> new))).
  { destruct (list_find P (Mpin.Entries config)) as [[i x]|] eqn:Hf.
    - apply (Hrun _ Hstep). apply list_find_Some in Hf as (Hi & Hx & Hfirst).
      exact (upserted_replace P e _ i x Hi Hx Hfirst).
    - apply (Hrun _ Hstep). apply list_find_None in Hf. apply upserted_append, Hf. }
  destruct Hfin as (h & new & Hh & Hadd & Hup & Hnd).
  exists h, pin, new. repeat (split; [assumption|]). exact Hnd.
Qed.

End UpsertOps.

(** ** Claims about the credential stores *)

Section StoreClaims.
Context {tables : CaseTables} {mfa_codec : JSON Mfa.MFAStorage}
        {pass_codec : JSON Pass.PasswordStorage} {mpin_codec : JSON Mpin.MPINConfig}.

(** C5.  Upsert in the three stores.  When the operation goes through
    (the secret validates, or the name, account and length are accepted and
    the random source delivers; the store loads and can be written), the
    collection handed to the save is the loaded one with the new entry put
    in the place of the first entry with the same (account, name) key, at
    the same index, with the same size and every other position unchanged,
    or added at the end when no entry has that key; keys that were pairwise
    distinct stay so. *)
Theorem upsert_replaces_in_place_or_appends :
  (forall (w : World) (account name secret : string) (period : Z)
          (storage : Mfa.MFAStorage) (v : string * Z),
     Mfa.generateTOTP w secret period = Ok v ->
     Mfa.loadMFAStorage w = (Ok storage, w) ->
     write_ok w = true ->
     exists (h : string) (new : list Mfa.MFAEntry),
       home w = Some h /\
       Mfa.SetupMFA account name secret period w
       = (Ok tt, written (Layout.mfa h) (json_MarshalIndent (Mfa.mkMFAStorage new)) w) /\
       Spec.upserted (fun x => Mfa.Account x = account /\ Mfa.Name x = name)
         (Mfa.mkMFAEntry account name secret period) (Mfa.Entries storage) new /\
       (NoDup ((fun x => (Mfa.Account x, Mfa.Name x)) <$> Mfa.Entries storage) ->
        NoDup ((fun x => (Mfa.Account x, Mfa.Name x)) <$> new))) /\
  (forall (w : World) (name account : string) (length_ : Z) (a A d : bool) (s : string)
          (storage : Pass.PasswordStorage),
     name <> "" -> account <> "" -> 0 < length_ ->
     (Z.to_nat length_ <= length (entropy w))%nat ->
     Pass.loadPasswordStorage w = (Ok storage, w) ->
     write_ok w = true ->
     exists (h password : string) (new : list Pass.PasswordEntry),
       home w = Some h /\
       Pass.generatePassword length_ a A d s w = (Ok password, drawn (Z.to_nat length_) w) /\
       len password = length_ /\
       Forall (fun c => In c (bytes (Pass.passwordCharset a A d s))) (bytes password) /\
       Pass.AddPassword name account length_ a A d s w
       = (Ok tt, written (Layout.pass h) (json_MarshalIndent (Pass.mkPasswordStorage new))
                   (drawn (Z.to_nat length_) w)) /\
       Spec.upserted (fun x => Pass.Name x = name /\ Pass.Account x = account)
         (Pass.mkPasswordEntry name account password length_ (Pass.configDescription a A d s))
         (Pass.Entries storage) new /\
       (NoDup ((fun x => (Pass.Name x, Pass.Account x)) <$> Pass.Entries storage) ->
        NoDup ((fun x => (Pass.Name x, Pass.Account x)) <$> new))) /\
  (forall (w : World) (name account : string) (length_ : Z) (config : Mpin.MPINConfig),
     name <> "" -> account <> "" -> 0 < length_ ->
     (Z.to_nat length_ <= length (entropy w))%nat ->
     Mpin.loadMPINConfig w = (Ok config, w) ->
     write_ok w = true ->
     exists (h pin : string) (new : list Mpin.MPINEntry),
       home w = Some h /\
       Mpin.generateMPIN length_ w = (Ok pin, drawn (Z.to_nat length_) w) /\
       len pin = length_ /\ Forall is_digit (bytes pin) /\
       Mpin.AddMPIN name account length_ w
       = (Ok tt, written (Layout.mpin h) (json_MarshalIndent (Mpin.mkMPINConfig new))
                   (drawn (Z.to_nat length_) w)) /\
       Spec.upserted (fun x => Mpin.Name x = name /\ Mpin.Account x = account)
         (Mpin.mkMPINEntry name account pin) (Mpin.Entries config) new /\
       (NoDup ((fun x => (Mpin.Name x, Mpin.Account x)) <$> Mpin.Entries config) ->
        NoDup ((fun x => (Mpin.Name x, Mpin.Account x)) <$> new))).
Proof.
  split; [|split].
  - intros. eapply SetupMFA_upsert; eassumption.
  - intros. eapply AddPassword_upsert; eassumption.
  - intros. eapply AddMPIN_upsert; eassumption.
Qed.

(** C6 (the code at the failing input).  With the configuration directory
    in place: a missing file loads as the empty collection in the three
    stores, an unreadable file and a file that does not parse are errors in
    the three stores, and a file of length zero loads as the empty
    collection in the MFA and password stores but is a parse error in the
    PIN store, whose load has no check of the length. *)
Theorem load_behaviour (w : World) (h : string) :
  home w = Some h -> mkdir_ok w = true ->
  (fs w !! Layout.mfa h = None -> Mfa.loadMFAStorage w = (Ok (Mfa.mkMFAStorage []), w)) /\
  (fs w !! Layout.pass h = None ->
   Pass.loadPasswordStorage w = (Ok (Pass.mkPasswordStorage []), w)) /\
  (fs w !! Layout.mpin h = None -> Mpin.loadMPINConfig w = (Ok (Mpin.mkMPINConfig []), w)) /\
  (forall d, fs w !! Layout.mfa h = Some (mkInode d false) ->
     Mfa.loadMFAStorage w
     = (Err (Errorf "failed to read config file" (PathError "open" (Layout.mfa h))), w)) /\
  (forall d, fs w !! Layout.pass h = Some (mkInode d false) ->
     Pass.loadPasswordStorage w
     = (Err (Errorf "failed to read password config file"
               (PathError "open" (Layout.pass h))), w)) /\
  (forall d, fs w !! Layout.mpin h = Some (mkInode d false) ->
     Mpin.loadMPINConfig w
     = (Err (Errorf "failed to read config file" (PathError "open" (Layout.mpin h))), w)) /\
  (forall d e, d <> [] -> json_Unmarshal d = (Err e : outcome Mfa.MFAStorage) ->
     fs w !! Layout.mfa h = Some (mkInode d true) ->
     Mfa.loadMFAStorage w = (Err (Errorf "failed to parse config file" e), w)) /\
  (forall d e, d <> [] -> json_Unmarshal d = (Err e : outcome Pass.PasswordStorage) ->
     fs w !! Layout.pass h = Some (mkInode d true) ->
     Pass.loadPasswordStorage w = (Err (Errorf "failed to parse password config file" e), w)) /\
  (forall d e, d <> [] -> json_Unmarshal d = (Err e : outcome Mpin.MPINConfig) ->
     fs w !! Layout.mpin h = Some (mkInode d true) ->
     Mpin.loadMPINConfig w = (Err (Errorf "failed to parse config file" e), w)) /\
  (fs w !! Layout.mfa h = Some (mkInode [] true) ->
   Mfa.loadMFAStorage w = (Ok (Mfa.mkMFAStorage []), w)) /\
  (fs w !! Layout.pass h = Some (mkInode [] true) ->
   Pass.loadPasswordStorage w = (Ok (Pass.mkPasswordStorage []), w)) /\
  (fs w !! Layout.mpin h = Some (mkInode [] true) ->
   Mpin.loadMPINConfig w
   = (Err (Errorf "failed to parse config file"
             (SyntaxError "unexpected end of JSON input")), w)).
Proof.
  intros Hh Hm.
  rewrite loadMFAStorage_eval, loadPasswordStorage_eval, loadMPINConfig_eval.
  unfold load_result. rewrite Hh, Hm.
  assert (Hlen : forall d : list Z, d <> [] -> (Z.of_nat (length d) =? 0) = false).
  { intros [|c d] Hd; [congruence | reflexivity]. }
  repeat split.
  1-3: intros ->; reflexivity.
  1-3: intros d ->; reflexivity.
  1-2: intros d e Hd He ->; cbn [readable data]; unfold guarded;
       rewrite (Hlen d Hd), He; reflexivity.
  - intros d e Hd He ->. cbn [readable data]. unfold unguarded. rewrite He. reflexivity.
  - intros ->. reflexivity.
  - intros ->. reflexivity.
  - intros ->. cbn [readable data]. unfold unguarded.
    rewrite json_Unmarshal_empty. reflexivity.
Qed.

(** C7.  A length of zero or less is rejected before anything is loaded,
    drawn or saved: [AddMPIN] and [generateMPIN], [AddPassword] and
    [generatePassword] return a validation error and leave the environment,
    the stored files included, exactly as it was. *)
Theorem nonpositive_length_rejected (w : World) (name account : string) (length_ : Z) :
  length_ <= 0 ->
  Mpin.generateMPIN length_ w = (Err (New "PIN length must be positive"), w) /\
  Mpin.AddMPIN name account length_ w
  = (Err (if bool_decide (name = "" \/ account = "")
          then New "name and account cannot be empty"
          else New "PIN length must be positive"), w) /\
  forall (a A d : bool) (s : string),
    Pass.generatePassword length_ a A d s w
    = (Err (New "password length must be greater than 0"), w) /\
    Pass.AddPassword name account length_ a A d s w
    = (Err (if bool_decide (name = "" \/ account = "")
            then New "name and account are required"
            else Errorf "failed to generate password"
                   (New "password length must be greater than 0")), w).
Proof.
  intros Hl.
  assert (Hb : (length_ <=? 0) = true) by lia.
  split; [unfold Mpin.generateMPIN; rewrite Hb; reflexivity|].
  split.
  - unfold Mpin.AddMPIN. case_bool_decide; [reflexivity|]. rewrite Hb. reflexivity.
  - intros a A d s.
    assert (Hg : Pass.generatePassword length_ a A d s w
                 = (Err (New "password length must be greater than 0"), w))
      by (unfold Pass.generatePassword; rewrite Hb; reflexivity).
    split; [exact Hg|].
    unfold Pass.AddPassword. case_bool_decide; [reflexivity|].
    rewrite (IO_bind_Err _ _ w w
               (Errorf "failed to generate password"
                  (New "password length must be greater than 0")));
      [reflexivity | apply wrap_Err, Hg].
Qed.

(** C8.  With no character-class flag and no special characters, the
    handler of add-pass switches on the three classes and the default
    special set; the generator then builds the full alphabet from its flags
    (its own fallback is not taken), the password has the requested length
    and only characters of that alphabet, and the entry is stored with the
    description of the four classes.  The generator's own fallback, reached
    when [AddPassword] is called with nothing selected, uses the same
    alphabet and is stored as "all (default)".  No selection leaves the
    alphabet empty. *)
Theorem default_fallback_full_alphabet (w : World) (name account : string) (length_ : Z)
    (storage : Pass.PasswordStorage) :
  name <> "" -> account <> "" -> 0 < length_ ->
  (Z.to_nat length_ <= length (entropy w))%nat ->
  Pass.loadPasswordStorage w = (Ok storage, w) ->
  write_ok w = true ->
  let f := Main.mkAddPassFlags length_ false false false "" name account in
  let description := "lowercase, uppercase, digits, special(!@#$%^&*()_+-=[]{}|;:,.<>?)" in
  Main.effectiveFlags f = (true, true, true, Main.defaultSpecial) /\
  Main.defaultSpecial <> "" /\
  Pass.flagCharset true true true Main.defaultSpecial
  = Pass.lowercase +:+ Pass.uppercase +:+ Pass.digits +:+ Main.defaultSpecial /\
  Pass.flagCharset true true true Main.defaultSpecial <> "" /\
  Pass.passwordCharset true true true Main.defaultSpecial
  = Pass.flagCharset true true true Main.defaultSpecial /\
  Pass.configDescription true true true Main.defaultSpecial = description /\
  (exists (h password : string) (new : list Pass.PasswordEntry),
     home w = Some h /\
     len password = length_ /\
     Forall (fun c => In c (bytes (Pass.lowercase +:+ Pass.uppercase +:+ Pass.digits
                                   +:+ Main.defaultSpecial))) (bytes password) /\
     Main.handleAddPassword (Main.Parsed f) w
     = (Ok 0, written (Layout.pass h) (json_MarshalIndent (Pass.mkPasswordStorage new))
                (drawn (Z.to_nat length_) w)) /\
     Spec.upserted (fun x => Pass.Name x = name /\ Pass.Account x = account)
       (Pass.mkPasswordEntry name account password length_ description)
       (Pass.Entries storage) new) /\
  Pass.passwordCharset false false false ""
  = Pass.lowercase +:+ Pass.uppercase +:+ Pass.digits +:+ Main.defaultSpecial /\
  Pass.configDescription false false false "" = "all (default)" /\
  (forall (a A d : bool) (s : string), (len (Pass.passwordCharset a A d s) =? 0) = false).
Proof.
  intros Hname Hacc Hl Hn Hload Hw f description.
  split; [reflexivity|]. split; [discriminate|]. split; [reflexivity|].
  split; [discriminate|]. split; [reflexivity|]. split; [reflexivity|].
  split.
  - destruct (AddPassword_upsert w name account length_ true true true Main.defaultSpecial
                storage Hname Hacc Hl Hn Hload Hw)
      as (h & password & new & Hh & _ & Hlen & Hchars & Hadd & Hup & _).
    exists h, password, new. split; [exact Hh|]. split; [exact Hlen|].
    split; [exact Hchars|]. split; [|exact Hup].
    unfold Main.handleAddPassword, Main.afterParse.
    cbn [Main.flag_name Main.flag_account f].
    rewrite bool_decide_eq_false_2 by tauto.
    change (Main.effectiveFlags f) with (true, true, true, Main.defaultSpecial).
    cbn [Main.flag_name Main.flag_account Main.flag_l f].
    rewrite Hadd. reflexivity.
  - split; [reflexivity|]. split; [reflexivity|].
    intros a A d s. pose proof (passwordCharset_nonempty a A d s). lia.
Qed.

End StoreClaims.

(** ** The store claims on the sample environment *)

Lemma upsert_replaces_in_place_or_appends_witness :
  (@Mfa.generateTOTP Sample.tables Sample.two_accounts "GEZDGNBVGY3TQOJQ" 45
   = Ok ("263420", 31) /\
   @Mfa.loadMFAStorage Sample.mfa_json Sample.two_accounts
   = (Ok (Mfa.mkMFAStorage [Sample.google; Sample.github]), Sample.two_accounts) /\
   write_ok Sample.two_accounts = true /\
   exists (h : string) (new : list Mfa.MFAEntry),
     home Sample.two_accounts = Some h /\
     @Mfa.SetupMFA Sample.tables Sample.mfa_json "github" "a@b" "GEZDGNBVGY3TQOJQ" 45
       Sample.two_accounts
     = (Ok tt, written (Layout.mfa h)
                 (@json_MarshalIndent _ Sample.mfa_json (Mfa.mkMFAStorage new))
                 Sample.two_accounts) /\
     Spec.upserted (fun x => Mfa.Account x = "github" /\ Mfa.Name x = "a@b")
       (Mfa.mkMFAEntry "github" "a@b" "GEZDGNBVGY3TQOJQ" 45)
       [Sample.google; Sample.github] new) /\
  (exists (h password : string) (new : list Pass.PasswordEntry),
     home Sample.fresh = Some h /\
     @Pass.AddPassword Sample.pass_json "github" "me" 8 true false true "" Sample.fresh
     = (Ok tt, written (Layout.pass h)
                 (@json_MarshalIndent _ Sample.pass_json (Pass.mkPasswordStorage new))
                 (drawn 8 Sample.fresh)) /\
     Spec.upserted (fun x => Pass.Name x = "github" /\ Pass.Account x = "me")
       (Pass.mkPasswordEntry "github" "me" password 8 "lowercase, digits") [] new) /\
  (exists (h pin : string) (new : list Mpin.MPINEntry),
     home Sample.fresh = Some h /\
     @Mpin.AddMPIN Sample.mpin_json "bank" "me" 4 Sample.fresh
     = (Ok tt, written (Layout.mpin h)
                 (@json_MarshalIndent _ Sample.mpin_json (Mpin.mkMPINConfig new))
                 (drawn 4 Sample.fresh)) /\
     Spec.upserted (fun x => Mpin.Name x = "bank" /\ Mpin.Account x = "me")
       (Mpin.mkMPINEntry "bank" "me" pin) [] new).
Proof.
  destruct (@upsert_replaces_in_place_or_appends Sample.tables Sample.mfa_json
              Sample.pass_json Sample.mpin_json) as (Hmfa & Hpass & Hmpin).
  assert (Hg : @Mfa.generateTOTP Sample.tables Sample.two_accounts "GEZDGNBVGY3TQOJQ" 45
               = Ok ("263420", 31)) by (vm_compute; reflexivity).
  assert (Hl : @Mfa.loadMFAStorage Sample.mfa_json Sample.two_accounts
               = (Ok (Mfa.mkMFAStorage [Sample.google; Sample.github]), Sample.two_accounts))
    by (vm_compute; reflexivity).
  assert (Hw : write_ok Sample.two_accounts = true) by reflexivity.
  split; [|split].
  - split; [exact Hg|]. split; [exact Hl|]. split; [exact Hw|].
    destruct (Hmfa Sample.two_accounts "github" "a@b" "GEZDGNBVGY3TQOJQ" 45 _ _ Hg Hl Hw)
      as (h & new & Hh & Hrun & Hup & _).
    exists h, new. split; [exact Hh|]. split; [exact Hrun | exact Hup].
  - destruct (Hpass Sample.fresh "github" "me" 8 true false true ""
                (Pass.mkPasswordStorage []))
      as (h & password & new & Hh & _ & _ & _ & Hrun & Hup & _).
    + discriminate.
    + discriminate.
    + reflexivity.
    + vm_compute. lia.
    + vm_compute. reflexivity.
    + reflexivity.
    + exists h, password, new. split; [exact Hh|]. split; [exact Hrun | exact Hup].
  - destruct (Hmpin Sample.fresh "bank" "me" 4 (Mpin.mkMPINConfig []))
      as (h & pin & new & Hh & _ & _ & _ & Hrun & Hup & _).
    + discriminate.
    + discriminate.
    + reflexivity.
    + vm_compute. lia.
    + vm_compute. reflexivity.
    + reflexivity.
    + exists h, pin, new. split; [exact Hh|]. split; [exact Hrun | exact Hup].
Defined.

Lemma load_behaviour_witness :
  home Sample.empty_files = Some "/home/u" /\ mkdir_ok Sample.empty_files = true /\
  @Mfa.loadMFAStorage Sample.mfa_json Sample.empty_files
  = (Ok (Mfa.mkMFAStorage []), Sample.empty_files) /\
  @Pass.loadPasswordStorage Sample.pass_json Sample.empty_files
  = (Ok (Pass.mkPasswordStorage []), Sample.empty_files) /\
  @Mpin.loadMPINConfig Sample.mpin_json Sample.empty_files
  = (Err (Errorf "failed to parse config file"
            (SyntaxError "unexpected end of JSON input")), Sample.empty_files).
Proof.
  assert (Hh : home Sample.empty_files = Some "/home/u") by reflexivity.
  assert (Hm : mkdir_ok Sample.empty_files = true) by reflexivity.
  destruct (@load_behaviour Sample.mfa_json Sample.pass_json Sample.mpin_json
              Sample.empty_files "/home/u" Hh Hm)
    as (_ & _ & _ & _ & _ & _ & _ & _ & _ & Hmfa & Hpass & Hmpin).
  split; [exact Hh|]. split; [exact Hm|].
  split; [apply Hmfa; vm_compute; reflexivity|].
  split; [apply Hpass; vm_compute; reflexivity|].
  apply Hmpin. vm_compute. reflexivity.
Defined.

Lemma nonpositive_length_rejected_witness :
  0 <= 0 /\
  @Mpin.AddMPIN Sample.mpin_json "bank" "me" 0 Sample.two_accounts
  = (Err (New "PIN length must be positive"), Sample.two_accounts) /\
  @Pass.AddPassword Sample.pass_json "github" "me" 0 true true true "" Sample.two_accounts
  = (Err (Errorf "failed to generate password"
            (New "password length must be greater than 0")), Sample.two_accounts).
Proof.
  assert (Hl : 0 <= 0) by lia.
  destruct (@nonpositive_length_rejected Sample.pass_json Sample.mpin_json
              Sample.two_accounts "bank" "me" 0 Hl) as (_ & Hpin & _).
  destruct (@nonpositive_length_rejected Sample.pass_json Sample.mpin_json
              Sample.two_accounts "github" "me" 0 Hl) as (_ & _ & Hpass).
  split; [exact Hl|]. split; [exact Hpin|].
  exact (proj2 (Hpass true true true "")).
Defined.

Lemma default_fallback_full_alphabet_witness :
  "github" <> "" /\ "me" <> "" /\ 0 < 8 /\
  (Z.to_nat 8 <= length (entropy Sample.fresh))%nat /\
  @Pass.loadPasswordStorage Sample.pass_json Sample.fresh
  = (Ok (Pass.mkPasswordStorage []), Sample.fresh) /\
  write_ok Sample.fresh = true /\
  exists (h password : string) (new : list Pass.PasswordEntry),
    home Sample.fresh = Some h /\
    len password = 8 /\
    @Main.handleAddPassword Sample.pass_json
      (Main.Parsed (Main.mkAddPassFlags 8 false false false "" "github" "me")) Sample.fresh
    = (Ok 0, written (Layout.pass h)
               (@json_MarshalIndent _ Sample.pass_json (Pass.mkPasswordStorage new))
               (drawn (Z.to_nat 8) Sample.fresh)) /\
    Spec.upserted (fun x => Pass.Name x = "github" /\ Pass.Account x = "me")
      (Pass.mkPasswordEntry "github" "me" password 8
         "lowercase, uppercase, digits, special(!@#$%^&*()_+-=[]{}|;:,.<>?)") [] new.
Proof.
  assert (H1 : "github" <> "") by discriminate.
  assert (H2 : "me" <> "") by discriminate.
  assert (H3 : 0 < 8) by lia.
  assert (H4 : (Z.to_nat 8 <= length (entropy Sample.fresh))%nat) by (vm_compute; lia).
  assert (H5 : @Pass.loadPasswordStorage Sample.pass_json Sample.fresh
               = (Ok (Pass.mkPasswordStorage []), Sample.fresh)) by (vm_compute; reflexivity).
  assert (H6 : write_ok Sample.fresh = true) by reflexivity.
  destruct (@default_fallback_full_alphabet Sample.pass_json Sample.fresh "github" "me" 8
              (Pass.mkPasswordStorage []) H1 H2 H3 H4 H5 H6)
    as (_ & _ & _ & _ & _ & _ & (h & password & new & Hh & Hlen & _ & Hrun & Hup) & _).
  repeat (split; [assumption|]).
  exists h, password, new. repeat (split; [assumption|]). exact Hup.
Defined.

(* ===================================================================== *)
(** * Part V.  Further properties of the code                            *)
(* ===================================================================== *)

(** ** The printed code *)

Lemma bytes_zeros (n : nat) : bytes (zeros n) = repeat 0x30 n.
Proof.
  induction n as [|n IH]; [reflexivity|].
  cbn [zeros repeat]. rewrite bytes_String, IH. reflexivity.
Qed.

Lemma digits_decimal (fuel : nat) (v : Z) (acc : string) :
  Forall is_digit (bytes acc) -> Forall is_digit (bytes (decimal fuel v acc)).
Proof.
  revert v acc. induction fuel as [|fuel IH]; intros v acc Hacc; [exact Hacc|].
  cbn [decimal].
  assert (Hd : Forall is_digit (bytes (String (digit (v mod 10)) acc))).
  { rewrite bytes_String. constructor; [|exact Hacc].
    pose proof (Z.mod_pos_bound v 10 ltac:(lia)) as Hm.
    unfold digit. rewrite byte_of_ascii_of_byte by (unfold is_byte; lia).
    unfold is_digit. lia. }
  destruct (v / 10 =? 0); [exact Hd | apply IH, Hd].
Qed.

Lemma digits_Sprintf_06d (v : Z) : Forall is_digit (bytes (Sprintf_06d v)).
Proof.
  unfold Sprintf_06d. rewrite bytes_app, bytes_zeros. apply Forall_app. split.
  - apply Forall_forall. intros c Hc%repeat_spec. subst c. unfold is_digit. lia.
  - apply digits_decimal. constructor.
Qed.

Section EngineOutcome.
Context `{CaseTables}.

(** X1.  What [generateTOTPWithOffset] returns is decided by the secret and
    the period alone, at every time and offset: the decoding error when
    the cleaned secret does not decode, a divide-by-zero panic when it
    decodes and the period is 0, and otherwise a code of exactly six decimal
    digits. *)
Theorem generateTOTPWithOffset_outcome (w : World) (secret : string)
    (period timeOffset : Z) :
  match base32_DecodeString (Mfa.cleanSecret secret) with
  | Err e =>
      Mfa.generateTOTPWithOffset w secret period timeOffset
      = Err (Errorf "invalid secret key after cleaning" e)
  | Ok key =>
      if period =? 0
      then Mfa.generateTOTPWithOffset w secret period timeOffset = Panic DivideByZero
      else exists otp remaining,
          Mfa.generateTOTPWithOffset w secret period timeOffset = Ok (otp, remaining) /\
          String.length otp = 6%nat /\ Forall is_digit (bytes otp)
  | Panic _ => False
  end.
Proof.
  destruct (base32_DecodeString (Mfa.cleanSecret secret)) as [key|e|p] eqn:Hd.
  - destruct (period =? 0) eqn:Hp.
    + apply Z.eqb_eq in Hp. subst period.
      apply (generateTOTPWithOffset_zero_period w secret timeOffset key Hd).
    + apply Z.eqb_neq in Hp.
      destruct (generateTOTPWithOffset_ok w secret period timeOffset key Hd Hp)
        as (otp & remaining & Hg & Hlen & _).
      exists otp, remaining. split; [exact Hg|]. split; [exact Hlen|].
      revert Hg. unfold Mfa.generateTOTPWithOffset. rewrite Hd.
      destruct (Mfa.timeCounter _ _) as [c|?|?]; try discriminate.
      destruct (Mfa.remainingSeconds _ _) as [r|?|?]; try discriminate.
      cbn [mbind outcome_bind mret outcome_ret].
      destruct (Mfa.dynamicTruncation _) as [t|?|?]; try discriminate.
      cbn [mbind outcome_bind mret outcome_ret].
      intros [= <- _]. apply digits_Sprintf_06d.
  - apply generateTOTPWithOffset_decode_error, Hd.
  - pose proof (base32_DecodeString_no_panic (Mfa.cleanSecret secret)) as Hn.
    rewrite Hd in Hn. discriminate Hn.
Qed.

(** X2.  The code depends on the time only through the window it falls in:
    two moments (not before the epoch) with the same quotient by the period
    give the same code, and the remaining seconds differ by the distance
    between the moments. *)
Theorem code_constant_within_window (w1 w2 : World) (secret otp : string)
    (period off1 off2 remaining : Z) :
  0 < period <= MaxInt64 ->
  0 <= time_Now_Unix w1 + off1 <= MaxInt64 ->
  0 <= time_Now_Unix w2 + off2 <= MaxInt64 ->
  (time_Now_Unix w1 + off1) / period = (time_Now_Unix w2 + off2) / period ->
  Mfa.generateTOTPWithOffset w1 secret period off1 = Ok (otp, remaining) ->
  Mfa.generateTOTPWithOffset w2 secret period off2
  = Ok (otp, remaining + (time_Now_Unix w1 + off1) - (time_Now_Unix w2 + off2)).
Proof.
  intros Hp H1 H2 Hq.
  set (n1 := time_Now_Unix w1 + off1) in *. set (n2 := time_Now_Unix w2 + off2) in *.
  unfold Mfa.generateTOTPWithOffset. fold n1 n2.
  destruct (base32_DecodeString (Mfa.cleanSecret secret)) as [key|e|p]; try discriminate.
  rewrite !int64_id by (unfold is_int64, MinInt64, MaxInt64 in *; lia).
  unfold Mfa.timeCounter, Mfa.remainingSeconds.
  rewrite !quo_nonneg, !rem_nonneg by lia.
  cbn [mbind outcome_bind mret outcome_ret]. rewrite <- Hq.
  destruct (Mfa.dynamicTruncation _) as [t|?|?]; try discriminate.
  cbn [mbind outcome_bind mret outcome_ret].
  intros [= <- <-]. do 2 f_equal.
  pose proof (Z.mod_pos_bound n1 period ltac:(lia)).
  pose proof (Z.mod_pos_bound n2 period ltac:(lia)).
  rewrite !int64_id by (unfold is_int64, MinInt64, MaxInt64 in *; lia).
  rewrite (Z.mod_eq n1 period), (Z.mod_eq n2 period) by lia. rewrite Hq. lia.
Qed.

(** X3.  A secret without a single character of the Base32 alphabet is not
    rejected: it is cleaned to the empty string, which decodes to the empty
    key, and with a period other than zero a code is produced, the one of the
    empty secret. *)
Theorem secret_without_alphabet_characters (secret : string) :
  Spec.kept secret = [] ->
  Mfa.cleanSecret secret = "" /\
  base32_DecodeString (Mfa.cleanSecret secret) = Ok [] /\
  forall (w : World) (period timeOffset : Z),
    Mfa.generateTOTPWithOffset w secret period timeOffset
    = Mfa.generateTOTPWithOffset w "" period timeOffset /\
    (period <> 0 ->
     exists otp remaining,
       Mfa.generateTOTPWithOffset w secret period timeOffset = Ok (otp, remaining)).
Proof.
  intros Hk.
  assert (Hc : Mfa.cleanSecret secret = "").
  { rewrite cleanSecret_normalize. unfold Spec.normalize. rewrite Hk. reflexivity. }
  assert (Hd : base32_DecodeString (Mfa.cleanSecret secret) = Ok [])
    by (rewrite Hc; reflexivity).
  split; [exact Hc|]. split; [exact Hd|].
  intros w period timeOffset. split.
  - unfold Mfa.generateTOTPWithOffset. rewrite Hc. reflexivity.
  - intros Hp.
    destruct (generateTOTPWithOffset_ok w secret period timeOffset [] Hd Hp)
      as (otp & remaining & Hg & _). eauto.
Qed.

End EngineOutcome.

Lemma code_constant_within_window_witness :
  0 < 30 <= MaxInt64 /\
  @Mfa.generateTOTPWithOffset Sample.tables Sample.fresh "GEZDGNBVGY3TQOJQ" 30 (-29)
  = Ok ("263420", 30) /\
  @Mfa.generateTOTPWithOffset Sample.tables Sample.fresh "GEZDGNBVGY3TQOJQ" 30 0
  = Ok ("263420", 30 + (59 + -29) - (59 + 0)).
Proof.
  assert (Hp : 0 < 30 <= MaxInt64) by (unfold MaxInt64; lia).
  assert (Hg : @Mfa.generateTOTPWithOffset Sample.tables Sample.fresh "GEZDGNBVGY3TQOJQ" 30 (-29)
               = Ok ("263420", 30)) by (vm_compute; reflexivity).
  split; [exact Hp|]. split; [exact Hg|].
  apply (@code_constant_within_window Sample.tables Sample.fresh Sample.fresh
           "GEZDGNBVGY3TQOJQ" "263420" 30 (-29) 0 30 Hp).
  - unfold MaxInt64. cbn. lia.
  - unfold MaxInt64. cbn. lia.
  - reflexivity.
  - exact Hg.
Defined.

Lemma secret_without_alphabet_characters_witness :
  @Spec.kept Sample.tables "0189 0189" = [] /\
  @Mfa.cleanSecret Sample.tables "0189 0189" = "" /\
  exists otp remaining,
    @Mfa.generateTOTPWithOffset Sample.tables Sample.fresh "0189 0189" 30 0
    = Ok (otp, remaining).
Proof.
  assert (Hk : @Spec.kept Sample.tables "0189 0189" = []) by (vm_compute; reflexivity).
  destruct (@secret_without_alphabet_characters Sample.tables "0189 0189" Hk)
    as (Hc & _ & Hg).
  split; [exact Hk|]. split; [exact Hc|].
  apply (proj2 (Hg Sample.fresh 30 0)). discriminate.
Defined.

(** ** The normaliser on ASCII secrets *)

Lemma upper_byte_ascii (c : Z) : is_ascii c -> is_ascii (upper_byte c).
Proof.
  unfold is_ascii, upper_byte. intros Hc.
  destruct ((0x61 <=? c) && (c <=? 0x7A)) eqn:E; lia.
Qed.

Lemma upper_byte_idem (c : Z) : upper_byte (upper_byte c) = upper_byte c.
Proof.
  unfold upper_byte.
  destruct ((0x61 <=? c) && (c <=? 0x7A)) eqn:E; [|rewrite E; reflexivity].
  replace ((0x61 <=? c - (0x61 - 0x41)) && (c - (0x61 - 0x41) <=? 0x7A)) with false by blia.
  reflexivity.
Qed.

Section AsciiSecrets.
Context `{CaseTables}.

Lemma strings_ToUpper_ascii (l : list Z) :
  Forall is_ascii l -> strings_ToUpper (of_bytes l) = of_bytes (map upper_byte l).
Proof.
  intros Hl. unfold strings_ToUpper.
  rewrite bytes_of_bytes by (apply is_ascii_is_byte, Hl).
  replace (forallb (fun c => c <? RuneSelf) l) with true; [reflexivity|].
  symmetry. apply forallb_forall. intros c Hin.
  rewrite Forall_forall in Hl. apply Hl in Hin. unfold is_ascii, RuneSelf in *. lia.
Qed.

(** On a string of ASCII bytes the data kept are the bytes, in upper case,
    that belong to the alphabet. *)
Lemma cleanSecret_ascii (s : string) :
  Forall is_ascii (bytes s) ->
  Mfa.cleanSecret s
  = Spec.padded (List.filter Mfa.isBase32Char (map upper_byte (bytes s))).
Proof.
  intros Hs. rewrite cleanSecret_normalize. unfold Spec.normalize. rewrite <- kept_scanned.
  rewrite filter_in_alphabet. do 2 f_equal.
  rewrite <- (of_bytes_bytes s) at 1.
  rewrite strings_ToUpper_ascii by exact Hs.
  apply range_ascii. apply Forall_forall. intros c Hin.
  apply in_map_iff in Hin as (x & <- & Hx).
  rewrite Forall_forall in Hs. apply upper_byte_ascii, Hs, Hx.
Qed.

Lemma generateTOTPWithOffset_cleaned (s t : string) (w : World) (period timeOffset : Z) :
  Mfa.cleanSecret s = Mfa.cleanSecret t ->
  Mfa.generateTOTPWithOffset w s period timeOffset
  = Mfa.generateTOTPWithOffset w t period timeOffset.
Proof. intros Hc. unfold Mfa.generateTOTPWithOffset. rewrite Hc. reflexivity. Qed.

(** X4.  In a secret of ASCII bytes, characters that are neither letters
    nor the digits 2 to 7 (spaces, hyphens, the digits 0, 1, 8, 9, ...) can
    be inserted anywhere, and letters can be written in either case, without
    changing the cleaned secret or any code generated from it. *)
Theorem cleanSecret_ignores_separators_and_case (a sep b : string) :
  Forall is_ascii (bytes a) -> Forall is_ascii (bytes sep) -> Forall is_ascii (bytes b) ->
  Forall (fun c => Mfa.isBase32Char (upper_byte c) = false) (bytes sep) ->
  Mfa.cleanSecret (a +:+ sep +:+ b) = Mfa.cleanSecret (a +:+ b) /\
  Mfa.cleanSecret (of_bytes (map upper_byte (bytes a))) = Mfa.cleanSecret a /\
  forall (w : World) (period timeOffset : Z),
    Mfa.generateTOTPWithOffset w (a +:+ sep +:+ b) period timeOffset
    = Mfa.generateTOTPWithOffset w (a +:+ b) period timeOffset /\
    Mfa.generateTOTPWithOffset w (of_bytes (map upper_byte (bytes a))) period timeOffset
    = Mfa.generateTOTPWithOffset w a period timeOffset.
Proof.
  intros Ha Hsep Hb Hnone.
  assert (H1 : Mfa.cleanSecret (a +:+ sep +:+ b) = Mfa.cleanSecret (a +:+ b)).
  { rewrite !cleanSecret_ascii
      by (rewrite ?bytes_app; repeat (apply Forall_app; split); assumption).
    f_equal. rewrite !bytes_app, !map_app, !List.filter_app.
    replace (List.filter Mfa.isBase32Char (map upper_byte (bytes sep))) with (@nil Z);
      [reflexivity|].
    symmetry. clear Hsep. induction Hnone as [|c l Hc _ IH]; [reflexivity|].
    cbn [map List.filter]. rewrite Hc. exact IH. }
  assert (H2 : Mfa.cleanSecret (of_bytes (map upper_byte (bytes a))) = Mfa.cleanSecret a).
  { assert (Hup : Forall is_ascii (map upper_byte (bytes a))).
    { apply Forall_forall. intros c Hin. apply in_map_iff in Hin as (x & <- & Hx).
      rewrite Forall_forall in Ha. apply upper_byte_ascii, Ha, Hx. }
    rewrite (cleanSecret_ascii a) by exact Ha.
    rewrite cleanSecret_ascii
      by (rewrite bytes_of_bytes by (apply is_ascii_is_byte, Hup); exact Hup).
    rewrite bytes_of_bytes by (apply is_ascii_is_byte, Hup).
    rewrite map_map. do 2 f_equal. apply map_ext. intros c. apply upper_byte_idem. }
  split; [exact H1|]. split; [exact H2|].
  intros w period timeOffset.
  split; apply generateTOTPWithOffset_cleaned; assumption.
Qed.

(** X5.  The shape of a cleaned secret, for every input: the data kept,
    all of the alphabet, then only [=]; at most six of them; and a length
    that is a multiple of eight unless the data leave remainder 1, 3 or 6. *)
Theorem cleanSecret_shape (secret : string) :
  let data := Spec.kept secret in
  let out := bytes (Mfa.cleanSecret secret) in
  let r := Z.of_nat (length data) mod 8 in
  Forall (fun c => Mfa.isBase32Char c = true) data /\
  take (length data) out = data /\
  Forall (fun c => c = 0x3D) (drop (length data) out) /\
  (length out <= length data + 6)%nat /\
  (r <> 1 -> r <> 3 -> r <> 6 -> Z.of_nat (length out) mod 8 = 0) /\
  (r = 1 \/ r = 3 \/ r = 6 -> out = data).
Proof.
  intros data out r.
  assert (Hd : Forall (fun c => Mfa.isBase32Char c = true) data)
    by apply alphabet_base32, kept_alphabet.
  assert (Hout : out = data ++ repeat 0x3D (Spec.padding_table r)).
  { unfold out. rewrite cleanSecret_normalize. unfold Spec.normalize, Spec.padded.
    rewrite bytes_app, bytes_pads, bytes_of_bytes by (apply base32_is_byte, Hd).
    reflexivity. }
  pose proof (Z.mod_pos_bound (Z.of_nat (length data)) 8 ltac:(lia)) as Hr. fold r in Hr.
  assert (Hn : (Spec.padding_table r <= 6)%nat /\
               (r <> 1 -> r <> 3 -> r <> 6 -> (r + Z.of_nat (Spec.padding_table r)) mod 8 = 0) /\
               (r = 1 \/ r = 3 \/ r = 6 -> Spec.padding_table r = 0%nat)).
  { assert (Hc : r = 0 \/ r = 1 \/ r = 2 \/ r = 3 \/ r = 4 \/ r = 5 \/ r = 6 \/ r = 7) by lia.
    destruct Hc as [-> | [-> | [-> | [-> | [-> | [-> | [-> | ->]]]]]]];
      (split; [cbn; lia | split; [intros; try lia; reflexivity | intros; try lia; reflexivity]]). }
  destruct Hn as (Hn6 & Hn8 & Hn0).
  split; [exact Hd|]. rewrite Hout.
  split; [rewrite take_app_length; reflexivity|].
  split.
  { rewrite drop_app_length. apply Forall_forall. intros c Hc%repeat_spec. exact Hc. }
  split; [rewrite length_app, repeat_length; lia|].
  split.
  - intros N1 N3 N6. rewrite length_app, repeat_length, Nat2Z.inj_add.
    rewrite <- Z.add_mod_idemp_l by lia. fold r. apply Hn8; assumption.
  - intros Hbad. rewrite (Hn0 Hbad). apply app_nil_r.
Qed.

End AsciiSecrets.

Lemma cleanSecret_ignores_separators_and_case_witness :
  @Mfa.cleanSecret Sample.tables ("mzxw" +:+ " - 0189 " +:+ "6ytb")
  = @Mfa.cleanSecret Sample.tables ("mzxw" +:+ "6ytb") /\
  @Mfa.cleanSecret Sample.tables "MZXW" = @Mfa.cleanSecret Sample.tables "mzxw".
Proof.
  assert (Ha : Forall is_ascii (bytes "mzxw")) by (repeat constructor; cbv; congruence).
  assert (Hs : Forall is_ascii (bytes " - 0189 ")) by (repeat constructor; cbv; congruence).
  assert (Hb : Forall is_ascii (bytes "6ytb")) by (repeat constructor; cbv; congruence).
  assert (Hn : Forall (fun c => Mfa.isBase32Char (upper_byte c) = false) (bytes " - 0189 "))
    by (repeat constructor).
  destruct (@cleanSecret_ignores_separators_and_case Sample.tables
              "mzxw" " - 0189 " "6ytb" Ha Hs Hb Hn) as (H1 & H2 & _).
  split; [exact H1 | exact H2].
Defined.

Lemma cleanSecret_shape_witness :
  Z.of_nat (length (Spec.kept (H := Sample.tables) "ab")) mod 8 = 2 /\
  bytes (@Mfa.cleanSecret Sample.tables "ab") = bytes "AB======" /\
  Z.of_nat (length (bytes (@Mfa.cleanSecret Sample.tables "ab"))) mod 8 = 0.
Proof.
  destruct (@cleanSecret_shape Sample.tables "ab") as (_ & _ & _ & _ & Hm & _).
  split; [reflexivity|]. split; [reflexivity|].
  apply Hm; vm_compute; discriminate.
Defined.

(** ** Which secrets decode *)

(** Reading data characters: the quantum goes on with what follows them. *)
Lemma readQuantum_data (cs rest : list Z) (n : nat) (j olen : Z) (dbuf : list Z) :
  (length cs <= n)%nat ->
  Forall (fun c => Mfa.isBase32Char c = true) cs ->
  readQuantum n j olen (cs ++ rest) dbuf
  = readQuantum (n - length cs) (j + Z.of_nat (length cs)) olen rest
      (dbuf ++ map decodeMap cs).
Proof.
  revert n j dbuf. induction cs as [|c cs IH]; intros n j dbuf Hn Hall.
  - cbn [length app map]. rewrite app_nil_r, Nat.sub_0_r, Z.add_0_r. reflexivity.
  - inversion Hall as [|? ? Hc Hrest]; subst.
    destruct n as [|n]; [cbn in Hn; lia|].
    destruct (decodeMap_valid c Hc) as [Hd Hp].
    cbn [app readQuantum].
    replace (c =? padChar) with false by blia. cbn [andb].
    replace (decodeMap c =? 0xFF) with false by blia.
    rewrite IH; [|cbn in Hn; lia|exact Hrest].
    cbn [length map]. rewrite <- app_assoc.
    replace (j + 1 + Z.of_nat (length cs)) with (j + Z.of_nat (S (length cs))) by lia.
    reflexivity.
Qed.

(** The last quantum of a padded string: [j] data characters, then padding. *)
Lemma readQuantum_padded (cs : list Z) (olen : Z) :
  Forall (fun c => Mfa.isBase32Char c = true) cs ->
  (length cs = 2 \/ length cs = 4 \/ length cs = 5 \/ length cs = 7)%nat ->
  readQuantum 8 0 olen (cs ++ repeat 0x3D (8 - length cs)) []
  = QOk (map decodeMap cs) (Z.of_nat (length cs)) true (repeat 0x3D (8 - length cs - 1)).
Proof.
  intros Hall Hlen.
  rewrite readQuantum_data by (try assumption; lia).
  destruct Hlen as [-> | [-> | [-> | ->]]]; reflexivity.
Qed.

Lemma length_pack (dbuf : list Z) (dlen : Z) :
  length (pack dbuf dlen)
  = if dlen =? 8 then 5%nat else if dlen =? 7 then 4%nat else if dlen =? 5 then 3%nat
    else if dlen =? 4 then 2%nat else if dlen =? 2 then 1%nat else 0%nat.
Proof. unfold pack. repeat (destruct (dlen =? _); [reflexivity|]). reflexivity. Qed.

Lemma decodeLoop_padded (fuel : nat) (olen : Z) (data dst : list Z) :
  Forall (fun c => Mfa.isBase32Char c = true) data ->
  (length data <= fuel)%nat ->
  (let r := Z.of_nat (length data) mod 8 in r <> 1 /\ r <> 3 /\ r <> 6) ->
  exists key : list Z,
    decodeLoop fuel olen
      (data ++ repeat 0x3D (Spec.padding_table (Z.of_nat (length data) mod 8))) dst
    = Ok (dst ++ key) /\
    Z.of_nat (length key) = 5 * Z.of_nat (length data) / 8.
Proof.
  revert data dst.
  induction fuel as [|fuel IH]; intros data dst Hall Hf Hr.
  - destruct data; [|cbn in Hf; lia]. exists [].
    split; [cbn; rewrite app_nil_r; reflexivity | reflexivity].
  - destruct (decide (length data = 0)%nat) as [H0|H0].
    { destruct data; [|discriminate H0]. exists [].
      split; [cbn; rewrite app_nil_r; reflexivity | reflexivity]. }
    assert (Hne : data ++ repeat 0x3D
                    (Spec.padding_table (Z.of_nat (length data) mod 8)) <> []).
    { destruct data; [contradiction|discriminate]. }
    rewrite decodeLoop_step by exact Hne.
    destruct (decide (length data < 8)%nat) as [Hs|Hs].
    + (* the last, padded quantum *)
      rewrite Z.mod_small in * by lia. cbv zeta in Hr.
      assert (Hj : (length data = 2 \/ length data = 4 \/ length data = 5
                    \/ length data = 7)%nat) by lia.
      assert (Hpad : Spec.padding_table (Z.of_nat (length data)) = (8 - length data)%nat).
      { destruct Hj as [-> | [-> | [-> | ->]]]; reflexivity. }
      rewrite Hpad, (readQuantum_padded data olen Hall Hj).
      eexists. split; [reflexivity|].
      rewrite length_pack.
      destruct Hj as [-> | [-> | [-> | ->]]]; reflexivity.
    + (* a full quantum of data *)
      assert (Hsplit : forall X : list Z, data ++ X = take 8 data ++ (drop 8 data ++ X)).
      { intros X. rewrite app_assoc, take_drop. reflexivity. }
      rewrite Hsplit.
      assert (Ht : length (take 8 data) = 8%nat) by (rewrite length_take; lia).
      rewrite readQuantum_data; [|lia|apply Forall_take, Hall].
      rewrite Ht. cbn [Nat.sub readQuantum app].
      assert (Hm : Z.of_nat (length (drop 8 data)) mod 8 = Z.of_nat (length data) mod 8).
      { rewrite length_drop.
        replace (Z.of_nat (length data - 8)) with (Z.of_nat (length data) + (-1) * 8) by lia.
        apply Z.mod_add. lia. }
      rewrite <- Hm.
      destruct (IH (drop 8 data) (dst ++ pack (map decodeMap (take 8 data)) 8))
        as (key & Hkey & Hlen).
      * apply Forall_drop, Hall.
      * rewrite length_drop. lia.
      * cbv zeta. rewrite Hm. exact Hr.
      * rewrite Hkey. exists (pack (map decodeMap (take 8 data)) 8 ++ key).
        rewrite app_assoc. split; [reflexivity|].
        assert (HL : Z.of_nat (length (drop 8 data)) = Z.of_nat (length data) - 8)
          by (rewrite length_drop; lia).
        rewrite length_app, length_pack, Nat2Z.inj_add, Hlen, HL.
        change (8 =? 8) with true. cbv iota.
        replace (5 * Z.of_nat (length data))
          with (5 * (Z.of_nat (length data) - 8) + 5 * 8) by lia.
        rewrite Z.div_add by lia. lia.
Qed.

Section Acceptance.
Context `{CaseTables}.

(** X6.  A secret is refused exactly when the number of its data characters
    leaves remainder 1, 3 or 6 modulo 8.  Otherwise the cleaned secret
    decodes, to a key of floor(5 n / 8) bytes for n data characters, and with
    a period other than zero a code is returned. *)
Theorem secret_accepted_iff (secret : string) :
  let n := Z.of_nat (length (Spec.kept secret)) in
  (n mod 8 = 1 \/ n mod 8 = 3 \/ n mod 8 = 6 <->
   is_err (base32_DecodeString (Mfa.cleanSecret secret)) = true) /\
  (~ (n mod 8 = 1 \/ n mod 8 = 3 \/ n mod 8 = 6) <->
   exists key, base32_DecodeString (Mfa.cleanSecret secret) = Ok key /\
               Z.of_nat (length key) = 5 * n / 8) /\
  forall (w : World) (period timeOffset : Z),
    is_err (Mfa.generateTOTPWithOffset w secret period timeOffset)
    = is_err (base32_DecodeString (Mfa.cleanSecret secret)).
Proof.
  intros n.
  set (data := Spec.kept secret) in *.
  assert (Hd : Forall (fun c => Mfa.isBase32Char c = true) data)
    by apply alphabet_base32, kept_alphabet.
  assert (Hbad : n mod 8 = 1 \/ n mod 8 = 3 \/ n mod 8 = 6 ->
                 is_err (base32_DecodeString (Mfa.cleanSecret secret)) = true).
  { intros Hr.
    rewrite cleanSecret_normalize. unfold Spec.normalize, Spec.padded. fold data n.
    replace (Spec.padding_table (n mod 8)) with 0%nat
      by (destruct Hr as [-> | [-> | ->]]; reflexivity).
    cbn [Spec.pads]. rewrite append_empty_r.
    destruct (base32_DecodeString_unpadded data Hd) as [pos Hpos]; [fold n; lia|].
    rewrite Hpos. reflexivity. }
  assert (Hgood : ~ (n mod 8 = 1 \/ n mod 8 = 3 \/ n mod 8 = 6) ->
                  exists key, base32_DecodeString (Mfa.cleanSecret secret) = Ok key /\
                              Z.of_nat (length key) = 5 * n / 8).
  { intros Hr. rewrite cleanSecret_normalize. unfold Spec.normalize, Spec.padded.
    unfold base32_DecodeString.
    rewrite bytes_app, bytes_pads, bytes_of_bytes by (apply base32_is_byte, Hd).
    fold data. fold n.
    assert (Hs : stripNewlines (data ++ repeat 0x3D (Spec.padding_table (n mod 8)))
                 = data ++ repeat 0x3D (Spec.padding_table (n mod 8))).
    { unfold stripNewlines. rewrite list.filter_app. fold (stripNewlines data).
      rewrite (stripNewlines_data data Hd).
      f_equal. generalize (Spec.padding_table (n mod 8)). intros k.
      induction k as [|k IHk]; [reflexivity|].
      cbn [repeat]. rewrite filter_cons_True by lia. rewrite IHk. reflexivity. }
    rewrite Hs.
    destruct (decodeLoop_padded
                (length (data ++ repeat 0x3D (Spec.padding_table (n mod 8))))
                (Z.of_nat (length (data ++ repeat 0x3D (Spec.padding_table (n mod 8)))))
                data [] Hd) as (key & Hkey & Hlen).
    - rewrite length_app. lia.
    - cbv zeta. fold n. lia.
    - exists key. split; [exact Hkey | exact Hlen]. }
  split; [|split].
  - split; [exact Hbad|]. intros He.
    destruct (decide (n mod 8 = 1 \/ n mod 8 = 3 \/ n mod 8 = 6)) as [Hr|Hr]; [exact Hr|].
    destruct (Hgood Hr) as (key & Hk & _). rewrite Hk in He. discriminate He.
  - split; [exact Hgood|]. intros (key & Hk & _) Hr.
    apply Hbad in Hr. rewrite Hk in Hr. discriminate Hr.
  - intros w period timeOffset.
    destruct (base32_DecodeString (Mfa.cleanSecret secret)) as [key|e|p] eqn:Hk.
    + destruct (Z.eq_dec period 0) as [->|Hp].
      * rewrite (generateTOTPWithOffset_zero_period w secret timeOffset key Hk). reflexivity.
      * destruct (generateTOTPWithOffset_ok w secret period timeOffset key Hk Hp)
          as (otp & remaining & -> & _). reflexivity.
    + rewrite (generateTOTPWithOffset_decode_error w secret period timeOffset e Hk).
      reflexivity.
    + pose proof (base32_DecodeString_no_panic (Mfa.cleanSecret secret)) as Hn.
      rewrite Hk in Hn. discriminate Hn.
Qed.

End Acceptance.

Lemma secret_accepted_iff_witness :
  Z.of_nat (length (Spec.kept (H := Sample.tables) "abc")) mod 8 = 3 /\
  is_err (base32_DecodeString (@Mfa.cleanSecret Sample.tables "abc")) = true.
Proof.
  assert (Hr : Z.of_nat (length (Spec.kept (H := Sample.tables) "abc")) mod 8 = 3)
    by reflexivity.
  split; [exact Hr|].
  exact (proj1 (proj1 (@secret_accepted_iff Sample.tables "abc"))
           (or_intror (or_introl Hr))).
Defined.

(** ** The random generators *)

Lemma rand_Int_exhausted (max : Z) (w : World) :
  0 < max -> entropy w = [] -> rand_Int max w = (Err RandError, w).
Proof.
  intros Hm Hw. unfold rand_Int. replace (max <=? 0) with false by blia.
  rewrite Hw. reflexivity.
Qed.

Lemma set_entropy_twice (w : World) (e e' : list Z) :
  set_entropy (set_entropy w e) e' = set_entropy w e'.
Proof. reflexivity. Qed.

Lemma digit_of_uint8 (v : Z) : uint8 (0x30 + v mod 10) = digit_of v.
Proof.
  pose proof (Z.mod_pos_bound v 10 ltac:(lia)).
  unfold uint8, digit_of. apply Z.mod_small. change (2 ^ 8) with 256. lia.
Qed.

(** The loop of [generateMPIN]: one digit per random value, until the
    count is reached or the source is exhausted. *)
Lemma mpinDigits_run (n : nat) (pin : list Z) (w : World) :
  Mpin.mpinDigits n pin w
  = if decide (n <= length (entropy w))%nat
    then (Ok (pin ++ map digit_of (take n (entropy w))), drawn n w)
    else (Err (Errorf "failed to generate random digit" RandError), set_entropy w []).
Proof.
  revert pin w. induction n as [|n IH]; intros pin w.
  - rewrite decide_True by lia. cbn [Mpin.mpinDigits take map].
    rewrite app_nil_r, drawn_0. reflexivity.
  - cbn [Mpin.mpinDigits].
    destruct (entropy w) as [|v rest] eqn:Hw.
    + rewrite decide_False by (cbn; lia).
      rewrite (IO_bind_Err _ _ w w (Errorf "failed to generate random digit" RandError))
        by (apply wrap_Err, rand_Int_exhausted; [lia | exact Hw]).
      rewrite <- Hw, set_entropy_same. reflexivity.
    + rewrite (IO_bind_Ok _ _ w (set_entropy w rest) (v mod 10))
        by (apply wrap_Ok, rand_Int_next; [lia | exact Hw]).
      rewrite IH. cbn [entropy set_entropy length].
      destruct (decide (n <= length rest)%nat) as [Hn|Hn].
      * rewrite decide_True by lia. rewrite digit_of_uint8.
        cbn [take map]. rewrite <- app_assoc.
        unfold drawn. cbn [entropy set_entropy]. rewrite Hw.
        cbn [drop]. reflexivity.
      * rewrite decide_False by lia. reflexivity.
Qed.

Lemma passwordChars_run (n : nat) (charset : string) (password : list Z) (w : World) :
  0 < len charset ->
  Pass.passwordChars n charset password w
  = if decide (n <= length (entropy w))%nat
    then (Ok (password ++ map (char_of charset) (take n (entropy w))), drawn n w)
    else (Err (Errorf "failed to generate random number" RandError), set_entropy w []).
Proof.
  intros Hc. revert password w. induction n as [|n IH]; intros password w.
  - rewrite decide_True by lia. cbn [Pass.passwordChars take map].
    rewrite app_nil_r, drawn_0. reflexivity.
  - cbn [Pass.passwordChars].
    destruct (entropy w) as [|v rest] eqn:Hw.
    + rewrite decide_False by (cbn; lia).
      rewrite (IO_bind_Err _ _ w w (Errorf "failed to generate random number" RandError))
        by (apply wrap_Err, rand_Int_exhausted; [exact Hc | exact Hw]).
      rewrite <- Hw, set_entropy_same. reflexivity.
    + pose proof (Z.mod_pos_bound v (len charset) Hc) as Hv.
      assert (Hidx : index (bytes charset) (v mod len charset) = Ok (char_of charset v)).
      { unfold index. rewrite <- len_bytes.
        replace ((0 <=? v mod len charset) && (v mod len charset <? len charset))
          with true by blia. reflexivity. }
      rewrite (IO_bind_Ok _ _ w (set_entropy w rest) (v mod len charset))
        by (apply wrap_Ok, rand_Int_next; [exact Hc | exact Hw]).
      rewrite (IO_bind_Ok _ _ (set_entropy w rest) (set_entropy w rest) (char_of charset v))
        by (unfold lift; rewrite Hidx; reflexivity).
      rewrite IH. cbn [entropy set_entropy length].
      destruct (decide (n <= length rest)%nat) as [Hn|Hn].
      * rewrite decide_True by lia.
        cbn [take map]. rewrite <- app_assoc.
        unfold drawn. cbn [entropy set_entropy]. rewrite Hw.
        cbn [drop]. reflexivity.
      * rewrite decide_False by lia. reflexivity.
Qed.

Lemma generateMPIN_eval (length_ : Z) (w : World) :
  0 < length_ ->
  Mpin.generateMPIN length_ w
  = if decide (Z.to_nat length_ <= length (entropy w))%nat
    then (Ok (of_bytes (map digit_of (take (Z.to_nat length_) (entropy w)))),
          drawn (Z.to_nat length_) w)
    else (Err (Errorf "failed to generate random digit" RandError), set_entropy w []).
Proof.
  intros Hl. unfold Mpin.generateMPIN. replace (length_ <=? 0) with false by blia.
  unfold mbind, IO_bind. rewrite mpinDigits_run. destruct (decide _); reflexivity.
Qed.

Lemma generatePassword_eval (length_ : Z) (a A d : bool) (s : string) (w : World) :
  0 < length_ ->
  Pass.generatePassword length_ a A d s w
  = if decide (Z.to_nat length_ <= length (entropy w))%nat
    then (Ok (of_bytes (map (char_of (Pass.passwordCharset a A d s))
                          (take (Z.to_nat length_) (entropy w)))),
          drawn (Z.to_nat length_) w)
    else (Err (Errorf "failed to generate random number" RandError), set_entropy w []).
Proof.
  intros Hl. pose proof (passwordCharset_nonempty a A d s) as Hc.
  unfold Pass.generatePassword. replace (length_ <=? 0) with false by blia.
  cbv zeta. replace (len (Pass.passwordCharset a A d s) =? 0) with false by blia.
  unfold mbind, IO_bind. rewrite passwordChars_run by exact Hc.
  destruct (decide _); reflexivity.
Qed.








(** ** What the operations do to the environment *)

Lemma IO_bind_Panic {A B : Type} (m : IO A) (k : A -> IO B) (w w' : World) (p : panic) :
  m w = (Panic p, w') -> (m ≫= k) w = (Panic p, w').
Proof. intros Hm. unfold mbind, IO_bind. rewrite Hm. reflexivity. Qed.

Lemma wrap_Panic {A : Type} (msg : string) (m : IO A) (w w' : World) (p : panic) :
  m w = (Panic p, w') -> wrap msg m w = (Panic p, w').
Proof. intros Hm. unfold wrap. rewrite Hm. reflexivity. Qed.

Lemma unchanged_refl (w : World) : unchanged w w.
Proof. repeat split. Qed.

Lemma unchanged_set_entropy (w : World) (e : list Z) : unchanged w (set_entropy w e).
Proof. repeat split. Qed.

Lemma writes_only_Err {A : Type} (path : string -> string) (w w1 : World) (e : error) :
  unchanged w w1 -> writes_only path w (@Err A e, w1).
Proof. intros [Hs Hf]. split; [exact Hs | left; exact Hf]. Qed.

Lemma writes_only_Panic {A : Type} (path : string -> string) (w w1 : World) (p : panic) :
  unchanged w w1 -> writes_only path w (@Panic A p, w1).
Proof. intros [Hs Hf]. split; [exact Hs | exact Hf]. Qed.

(** A load never changes the environment. *)
Lemma load_result_world {T : Type} (path : string -> string) (dir readmsg : string)
    (parse : list Z -> outcome T) (empty : T) (w : World) :
  (load_result path dir readmsg parse empty w).2 = w.
Proof.
  unfold load_result.
  destruct (home w) as [h|]; [|reflexivity].
  destruct (mkdir_ok w); [|reflexivity].
  destruct (fs w !! path h) as [f|]; [|reflexivity].
  destruct (readable f); reflexivity.
Qed.

(** A save after a load of the same files went well writes the file of the
    store; when it fails it leaves the files as they were, or that file
    torn. *)
Lemma save_result_writes_only {T : Type} (path : string -> string)
    (dir readmsg writemsg : string) (parse : list Z -> outcome T) (empty s : T)
    (d : list Z) (w w1 w2 w3 : World) :
  unchanged w w1 -> unchanged w w2 ->
  load_result path dir readmsg parse empty w1 = (Ok s, w3) ->
  writes_only path w (save_result path dir writemsg d w2).
Proof.
  intros [(Hc1 & Hh1 & Hm1 & Hw1 & Hx1) Hf1] [(Hc2 & Hh2 & Hm2 & Hw2 & Hx2) Hf2] Hl.
  apply load_result_ok in Hl. destruct Hl as (_ & h & Hh & Hm & Hr).
  rewrite Hf1 in Hr. rewrite Hh1 in Hh. rewrite Hm1 in Hm.
  unfold save_result. rewrite Hh2, Hh, Hm2, Hm, Hf2, Hr. cbv zeta.
  assert (Hs : forall m, same_settings w (set_fs w2 m))
    by (intros m; repeat split; cbn; congruence).
  destruct (write_ok w2) eqn:Hw.
  - split; [apply Hs|]. cbn. exists h, d. split; [exact Hh | reflexivity].
  - destruct (write_fault w2) as [k|] eqn:Hk.
    + split; [apply Hs|]. cbn [fst snd]. right.
      exists h, d, k. split; [exact Hh|]. split; [congruence|].
      split; [congruence | reflexivity].
    + apply writes_only_Err. repeat split; congruence.
Qed.

Lemma generateMPIN_unchanged (length_ : Z) (w : World) :
  unchanged w (Mpin.generateMPIN length_ w).2.
Proof.
  unfold Mpin.generateMPIN. destruct (length_ <=? 0); [apply unchanged_refl|].
  unfold mbind, IO_bind. rewrite mpinDigits_run.
  destruct (decide _); apply unchanged_set_entropy.
Qed.

Lemma generatePassword_unchanged (length_ : Z) (a A d : bool) (s : string) (w : World) :
  unchanged w (Pass.generatePassword length_ a A d s w).2.
Proof.
  unfold Pass.generatePassword. destruct (length_ <=? 0); [apply unchanged_refl|].
  pose proof (passwordCharset_nonempty a A d s) as Hc. cbv zeta.
  replace (len (Pass.passwordCharset a A d s) =? 0) with false by blia.
  unfold mbind, IO_bind. rewrite passwordChars_run by exact Hc.
  destruct (decide _); apply unchanged_set_entropy.
Qed.

Section Frame.
Context {tables : CaseTables} {mfa_codec : JSON Mfa.MFAStorage}
        {pass_codec : JSON Pass.PasswordStorage} {mpin_codec : JSON Mpin.MPINConfig}.

Lemma loadMFAStorage_world (w : World) : (Mfa.loadMFAStorage w).2 = w.
Proof. rewrite loadMFAStorage_eval. apply load_result_world. Qed.

Lemma loadPasswordStorage_world (w : World) : (Pass.loadPasswordStorage w).2 = w.
Proof. rewrite loadPasswordStorage_eval. apply load_result_world. Qed.

Lemma loadMPINConfig_world (w : World) : (Mpin.loadMPINConfig w).2 = w.
Proof. rewrite loadMPINConfig_eval. apply load_result_world. Qed.

Lemma SetupMFA_writes (account name secret : string) (period : Z) (w : World) :
  writes_only Layout.mfa w (Mfa.SetupMFA account name secret period w).
Proof.
  unfold Mfa.SetupMFA.
  rewrite (IO_bind_Ok _ _ w w (1, "287082"))
    by (unfold lift; rewrite testTOTP_ok; reflexivity).
  destruct (Mfa.generateTOTP w secret period) as [v|e|p] eqn:Hg.
  - rewrite (IO_bind_Ok _ _ w w v) by (unfold wrap; cbv beta; rewrite Hg; reflexivity).
    pose proof (loadMFAStorage_world w) as Hw.
    destruct (Mfa.loadMFAStorage w) as [[storage|e|p] w1] eqn:Hl; cbn in Hw; subst w1.
    + rewrite (IO_bind_Ok _ _ _ _ _ Hl). rewrite loadMFAStorage_eval in Hl.
      destruct (list_find _ _) as [[i x]|]; rewrite saveMFAStorage_eval;
        eapply save_result_writes_only; eauto using unchanged_refl.
    + rewrite (IO_bind_Err _ _ _ _ _ Hl). apply writes_only_Err, unchanged_refl.
    + rewrite (IO_bind_Panic _ _ _ _ _ Hl). apply writes_only_Panic, unchanged_refl.
  - rewrite (IO_bind_Err _ _ w w (Errorf "invalid secret key - cannot generate TOTP" e))
      by (unfold wrap; cbv beta; rewrite Hg; reflexivity).
    apply writes_only_Err, unchanged_refl.
  - rewrite (IO_bind_Panic _ _ w w p) by (unfold wrap; cbv beta; rewrite Hg; reflexivity).
    apply writes_only_Panic, unchanged_refl.
Qed.

Lemma AddPassword_writes (name account : string) (length_ : Z) (a A d : bool)
    (s : string) (w : World) :
  writes_only Layout.pass w (Pass.AddPassword name account length_ a A d s w).
Proof.
  unfold Pass.AddPassword.
  destruct (bool_decide (name = "" \/ account = ""));
    [apply writes_only_Err, unchanged_refl|].
  pose proof (generatePassword_unchanged length_ a A d s w) as Hu.
  destruct (Pass.generatePassword length_ a A d s w) as [[password|e|p] w1] eqn:Hgen;
    cbn in Hu.
  - rewrite (IO_bind_Ok _ _ w w1 password) by (apply wrap_Ok, Hgen).
    cbv zeta.
    pose proof (loadPasswordStorage_world w1) as Hw.
    destruct (Pass.loadPasswordStorage w1) as [[storage|e|p] w2] eqn:Hl; cbn in Hw; subst w2.
    + rewrite (IO_bind_Ok _ _ _ _ _ Hl). rewrite loadPasswordStorage_eval in Hl.
      destruct (list_find _ _) as [[i x]|]; rewrite savePasswordStorage_eval;
        eapply save_result_writes_only; eauto.
    + rewrite (IO_bind_Err _ _ _ _ _ Hl). apply writes_only_Err, Hu.
    + rewrite (IO_bind_Panic _ _ _ _ _ Hl). apply writes_only_Panic, Hu.
  - rewrite (IO_bind_Err _ _ w w1 (Errorf "failed to generate password" e))
      by (apply wrap_Err, Hgen).
    apply writes_only_Err, Hu.
  - rewrite (IO_bind_Panic _ _ w w1 p) by (apply wrap_Panic, Hgen).
    apply writes_only_Panic, Hu.
Qed.

Lemma AddMPIN_writes (name account : string) (length_ : Z) (w : World) :
  writes_only Layout.mpin w (Mpin.AddMPIN name account length_ w).
Proof.
  unfold Mpin.AddMPIN.
  destruct (bool_decide (name = "" \/ account = ""));
    [apply writes_only_Err, unchanged_refl|].
  destruct (length_ <=? 0); [apply writes_only_Err, unchanged_refl|].
  pose proof (loadMPINConfig_world w) as Hw.
  destruct (Mpin.loadMPINConfig w) as [[config|e|p] w1] eqn:Hl; cbn in Hw; subst w1.
  - rewrite (IO_bind_Ok _ _ _ _ _ Hl). rewrite loadMPINConfig_eval in Hl.
    pose proof (generateMPIN_unchanged length_ w) as Hu.
    destruct (Mpin.generateMPIN length_ w) as [[pin|e|p] w1] eqn:Hgen; cbn in Hu.
    + destruct (list_find _ _) as [[i x]|];
        rewrite (IO_bind_Ok _ _ _ _ _ Hgen); cbv zeta; rewrite saveMPINConfig_eval;
        exact (save_result_writes_only _ _ _ _ _ _ _ _ _ _ _ _
                 (unchanged_refl w) Hu Hl).
    + destruct (list_find _ _) as [[i x]|];
        rewrite (IO_bind_Err _ _ _ _ _ Hgen); apply writes_only_Err, Hu.
    + destruct (list_find _ _) as [[i x]|];
        rewrite (IO_bind_Panic _ _ _ _ _ Hgen); apply writes_only_Panic, Hu.
  - rewrite (IO_bind_Err _ _ _ _ _ Hl). apply writes_only_Err, unchanged_refl.
  - rewrite (IO_bind_Panic _ _ _ _ _ Hl). apply writes_only_Panic, unchanged_refl.
Qed.

(** X9.  Each mutating operation, on every input and in every environment,
    leaves the clock, the home directory and the permissions as they were.
    When it returns normally exactly one file has been written, the file of
    its own store below the home directory; when it panics no file has
    changed; and when it returns an error no file has changed either,
    except after a write that failed part of the way, which leaves the file
    of the store, and no other, holding only the first bytes of what was to
    be written. *)
Theorem mutating_operations_write_only_their_file :
  (forall (account name secret : string) (period : Z) (w : World),
     writes_only Layout.mfa w (Mfa.SetupMFA account name secret period w)) /\
  (forall (name account : string) (length_ : Z) (a A d : bool) (s : string) (w : World),
     writes_only Layout.pass w (Pass.AddPassword name account length_ a A d s w)) /\
  (forall (name account : string) (length_ : Z) (w : World),
     writes_only Layout.mpin w (Mpin.AddMPIN name account length_ w)).
Proof.
  split; [|split].
  - exact SetupMFA_writes.
  - exact AddPassword_writes.
  - exact AddMPIN_writes.
Qed.

End Frame.

Section Reads.
Context {tables : CaseTables} {mfa_codec : JSON Mfa.MFAStorage}
        {pass_codec : JSON Pass.PasswordStorage} {mpin_codec : JSON Mpin.MPINConfig}.

Lemma IO_bind_world {A B : Type} (m : IO A) (k : A -> IO B) (w : World) :
  (m w).2 = w -> (forall a, (k a w).2 = w) -> ((m ≫= k) w).2 = w.
Proof.
  intros Hm Hk. unfold mbind, IO_bind.
  destruct (m w) as [[a|e|p] w1]; cbn in Hm; subst w1; [apply Hk | reflexivity..].
Qed.

Lemma wrap_world {A : Type} (msg : string) (m : IO A) (w : World) :
  (m w).2 = w -> (wrap msg m w).2 = w.
Proof. unfold wrap. destruct (m w) as [[a|e|p] w1]; intros Hm; exact Hm. Qed.

Lemma exitOnError_world {A : Type} (m : IO A) (w : World) :
  (m w).2 = w -> (Main.exitOnError m w).2 = w.
Proof. unfold Main.exitOnError. destruct (m w) as [[a|e|p] w1]; intros Hm; exact Hm. Qed.

Lemma ListMFA_world (w : World) : (Mfa.ListMFA w).2 = w.
Proof.
  unfold Mfa.ListMFA. apply IO_bind_world; [apply loadMFAStorage_world | reflexivity].
Qed.

Lemma GenerateMFA_world (account name : string) (w : World) :
  (Mfa.GenerateMFA account name w).2 = w.
Proof.
  unfold Mfa.GenerateMFA. apply IO_bind_world; [apply loadMFAStorage_world|].
  intros storage. destruct (list_find _ _) as [[i entry]|]; [|reflexivity].
  apply IO_bind_world; [reflexivity|]. intros _. apply wrap_world. reflexivity.
Qed.

Lemma GetPasswords_world (w : World) : (Pass.GetPasswords w).2 = w.
Proof.
  unfold Pass.GetPasswords. apply IO_bind_world; [|reflexivity].
  apply wrap_world, loadPasswordStorage_world.
Qed.

Lemma GetMPIN_world (name account : string) (w : World) :
  (Mpin.GetMPIN name account w).2 = w.
Proof.
  unfold Mpin.GetMPIN. destruct (bool_decide _); [reflexivity|].
  apply IO_bind_world; [apply loadMPINConfig_world|].
  intros config. destruct (list_find _ _) as [[i entry]|]; reflexivity.
Qed.

Lemma ListMPINs_world (w : World) : (Mpin.ListMPINs w).2 = w.
Proof.
  unfold Mpin.ListMPINs. apply IO_bind_world; [apply loadMPINConfig_world | reflexivity].
Qed.

(** X10.  The operations that list or look up, and the handlers of their
    commands, leave the environment exactly as they found it, whatever they
    return: no file is written and no random value is drawn. *)
Theorem reading_leaves_environment (w : World) :
  (Mfa.ListMFA w).2 = w /\
  (forall account name, (Mfa.GenerateMFA account name w).2 = w) /\
  (Pass.GetPasswords w).2 = w /\
  (forall name account, (Mpin.GetMPIN name account w).2 = w) /\
  (Mpin.ListMPINs w).2 = w /\
  (Main.handleList w).2 = w /\
  (forall f, (Main.handleGenerate f w).2 = w) /\
  (Main.handleGetPasswords w).2 = w /\
  (forall f, (Main.handleGetMPIN f w).2 = w) /\
  (Main.handleListMPINs w).2 = w.
Proof.
  repeat split.
  - apply ListMFA_world.
  - intros. apply GenerateMFA_world.
  - apply GetPasswords_world.
  - intros. apply GetMPIN_world.
  - apply ListMPINs_world.
  - apply exitOnError_world, ListMFA_world.
  - intros [f| |]; [|reflexivity..]. unfold Main.handleGenerate, Main.afterParse.
    destruct (bool_decide _); [reflexivity|].
    apply exitOnError_world, GenerateMFA_world.
  - apply exitOnError_world, GetPasswords_world.
  - intros [f| |]; [|reflexivity..]. unfold Main.handleGetMPIN, Main.afterParse.
    destruct (bool_decide _); [reflexivity|].
    apply exitOnError_world, GetMPIN_world.
  - apply exitOnError_world, ListMPINs_world.
Qed.

Lemma exitOnError_writes {A : Type} (path : string -> string) (m : IO A) (w : World) :
  writes_only path w (m w) -> exits_cleanly path w (Main.exitOnError m w).
Proof.
  unfold writes_only, exits_cleanly, Main.exitOnError.
  destruct (m w) as [[a|e|p] w1]; cbn; intros [Hs Hf]; (split; [exact Hs|]).
  - left. split; [reflexivity | exact Hf].
  - right. split; [reflexivity | exact Hf].
  - exact Hf.
Qed.

Lemma exits_cleanly_refused (path : string -> string) (w : World) :
  exits_cleanly path w (Ok 1, w).
Proof. split; [repeat split|]. cbn. right. split; [reflexivity | left; reflexivity]. Qed.

(** X11.  The handler of each mutating command ends the process with status
    2 when its arguments cannot be parsed and with status 0 when they ask
    for the help text, in both cases before anything is read, drawn or
    written.  Once the flags are parsed it ends in exit status 0 or 1 or in
    a panic, never in an error: in status 0 only after the file of its
    store was written, in status 1 with every file as it was or, after a
    write that failed part of the way, with the file of its store torn, and
    in a panic with every file as it was.  With a required flag left empty
    it ends in status 1 before anything is read, drawn or written. *)
Theorem mutating_handlers_exit_status (w : World) :
  (Main.handleSetupMFA Main.BadFlag w = (Ok 2, w) /\
   Main.handleSetupMFA Main.HelpFlag w = (Ok 0, w) /\
   forall f : Main.SetupMFAFlags,
     exits_cleanly Layout.mfa w (Main.handleSetupMFA (Main.Parsed f) w) /\
     (Main.setup_account f = "" \/ Main.setup_name f = "" \/ Main.setup_k f = "" ->
      Main.handleSetupMFA (Main.Parsed f) w = (Ok 1, w))) /\
  (Main.handleAddPassword Main.BadFlag w = (Ok 2, w) /\
   Main.handleAddPassword Main.HelpFlag w = (Ok 0, w) /\
   forall f : Main.AddPassFlags,
     exits_cleanly Layout.pass w (Main.handleAddPassword (Main.Parsed f) w) /\
     (Main.flag_name f = "" \/ Main.flag_account f = "" ->
      Main.handleAddPassword (Main.Parsed f) w = (Ok 1, w))) /\
  (Main.handleAddMPIN Main.BadFlag w = (Ok 2, w) /\
   Main.handleAddMPIN Main.HelpFlag w = (Ok 0, w) /\
   forall f : Main.AddMPINFlags,
     exits_cleanly Layout.mpin w (Main.handleAddMPIN (Main.Parsed f) w) /\
     (Main.mpin_name f = "" \/ Main.mpin_account f = "" ->
      Main.handleAddMPIN (Main.Parsed f) w = (Ok 1, w))).
Proof.
  split; [|split]; (split; [reflexivity|]); (split; [reflexivity|]); intros f; split.
  - unfold Main.handleSetupMFA, Main.afterParse. destruct (bool_decide _);
      [apply exits_cleanly_refused | apply exitOnError_writes, SetupMFA_writes].
  - intros Hf. unfold Main.handleSetupMFA, Main.afterParse.
    rewrite bool_decide_eq_true_2 by exact Hf. reflexivity.
  - unfold Main.handleAddPassword, Main.afterParse. destruct (bool_decide _);
      [apply exits_cleanly_refused|].
    destruct (Main.effectiveFlags f) as [[[a A] d] s].
    apply (exitOnError_writes Layout.pass
             (Pass.AddPassword (Main.flag_name f) (Main.flag_account f) (Main.flag_l f)
                a A d s) w), AddPassword_writes.
  - intros Hf. unfold Main.handleAddPassword, Main.afterParse.
    rewrite bool_decide_eq_true_2 by exact Hf. reflexivity.
  - unfold Main.handleAddMPIN, Main.afterParse. destruct (bool_decide _);
      [apply exits_cleanly_refused | apply exitOnError_writes, AddMPIN_writes].
  - intros Hf. unfold Main.handleAddMPIN, Main.afterParse.
    rewrite bool_decide_eq_true_2 by exact Hf. reflexivity.
Qed.

End Reads.

Lemma mutating_handlers_exit_status_witness :
  @Main.handleAddMPIN Sample.mpin_json Main.BadFlag Sample.fresh = (Ok 2, Sample.fresh) /\
  @Main.handleAddMPIN Sample.mpin_json Main.HelpFlag Sample.fresh = (Ok 0, Sample.fresh) /\
  (exits_cleanly Layout.mpin Sample.fresh
     (@Main.handleAddMPIN Sample.mpin_json
        (Main.Parsed (Main.mkAddMPINFlags 4 "bank" "me")) Sample.fresh) /\
   (@Main.handleAddMPIN Sample.mpin_json
      (Main.Parsed (Main.mkAddMPINFlags 4 "bank" "me")) Sample.fresh).1 = Ok 0) /\
  Main.mpin_name (Main.mkAddMPINFlags 4 "" "me") = "" /\
  @Main.handleAddMPIN Sample.mpin_json (Main.Parsed (Main.mkAddMPINFlags 4 "" "me"))
    Sample.fresh = (Ok 1, Sample.fresh).
Proof.
  pose (T := proj2 (proj2 (@mutating_handlers_exit_status Sample.tables Sample.mfa_json
                             Sample.pass_json Sample.mpin_json Sample.fresh))).
  split; [exact (proj1 T)|]. split; [exact (proj1 (proj2 T))|].
  split; [split; [exact (proj1 (proj2 (proj2 T) (Main.mkAddMPINFlags 4 "bank" "me")))
                 | vm_compute; reflexivity]|].
  split; [reflexivity|].
  exact (proj2 (proj2 (proj2 T) (Main.mkAddMPINFlags 4 "" "me")) (or_introl eq_refl)).
Defined.

(** ** Generating codes for a stored account *)

Section Generate.
Context {tables : CaseTables} {mfa_codec : JSON Mfa.MFAStorage}.

(** A code for a time offset is the code at the shifted clock. *)
Lemma offset_is_clock_shift (w : World) (secret : string) (period offset : Z) :
  Mfa.generateTOTPWithOffset w secret period offset
  = Mfa.generateTOTP (set_clock w (clock w + offset)) secret period.
Proof.
  unfold Mfa.generateTOTP, Mfa.generateTOTPWithOffset, time_Now_Unix.
  cbn [clock set_clock]. rewrite Z.add_0_r. reflexivity.
Qed.

Lemma totpCodesAt_decode_error (w : World) (secret : string) (period : Z)
    (offsets : list Z) (e : error) :
  base32_DecodeString (Mfa.cleanSecret secret) = Err e ->
  Mfa.totpCodesAt w secret period offsets = Ok [].
Proof.
  intros Hd. induction offsets as [|offset rest IH]; [reflexivity|].
  cbn [Mfa.totpCodesAt].
  rewrite (generateTOTPWithOffset_decode_error w secret period offset e Hd). exact IH.
Qed.

Lemma totpCodesAt_zero_period (w : World) (secret : string) (offset : Z)
    (rest key : list Z) :
  base32_DecodeString (Mfa.cleanSecret secret) = Ok key ->
  Mfa.totpCodesAt w secret 0 (offset :: rest) = Panic DivideByZero.
Proof.
  intros Hd. cbn [Mfa.totpCodesAt].
  rewrite (generateTOTPWithOffset_zero_period w secret offset key Hd). reflexivity.
Qed.

Lemma totpCodesAt_ok (w : World) (secret : string) (period : Z) (offsets key : list Z) :
  base32_DecodeString (Mfa.cleanSecret secret) = Ok key ->
  period <> 0 ->
  exists codes : list (Z * (string * Z)),
    Mfa.totpCodesAt w secret period offsets = Ok codes /\
    map fst codes = offsets /\
    Forall (fun oc => Mfa.generateTOTPWithOffset w secret period oc.1 = Ok oc.2) codes.
Proof.
  intros Hd Hp. induction offsets as [|offset rest IH].
  - exists []. repeat split. constructor.
  - destruct IH as (codes & Hrun & Hfst & Hall).
    destruct (generateTOTPWithOffset_ok w secret period offset key Hd Hp)
      as (otp & remaining & Hg & _).
    exists ((offset, (otp, remaining)) :: codes).
    cbn [Mfa.totpCodesAt]. rewrite Hg, Hrun. split; [reflexivity|]. split.
    + cbn [map fst]. rewrite Hfst. reflexivity.
    + constructor; [exact Hg | exact Hall].
Qed.

(** X12.  [generateTOTPCodes] on a secret that does not decode lists nothing
    and still returns normally (each error is printed and skipped); on a
    secret that decodes it panics for the period 0, and for any other period
    lists one code for each of the offsets -60, -30, 0, 30 and 60 in this
    order, each being the code that [generateTOTP] returns when the clock is
    moved by the offset. *)
Theorem generateTOTPCodes_outcome (w : World) (secret : string) (period : Z) :
  match base32_DecodeString (Mfa.cleanSecret secret) with
  | Err _ => Mfa.generateTOTPCodes w secret period = Ok []
  | Ok _ =>
      if period =? 0 then Mfa.generateTOTPCodes w secret period = Panic DivideByZero
      else
        exists codes : list (Z * (string * Z)),
          Mfa.generateTOTPCodes w secret period = Ok codes /\
          map fst codes = [-60; -30; 0; 30; 60] /\
          Forall (fun oc => Mfa.generateTOTP (set_clock w (clock w + oc.1)) secret period
                            = Ok oc.2) codes
  | Panic _ => False
  end.
Proof.
  unfold Mfa.generateTOTPCodes. cbv zeta.
  destruct (base32_DecodeString (Mfa.cleanSecret secret)) as [key|e|p] eqn:Hd.
  - destruct (period =? 0) eqn:Hp.
    + apply Z.eqb_eq in Hp. subst period. eapply totpCodesAt_zero_period, Hd.
    + apply Z.eqb_neq in Hp.
      destruct (totpCodesAt_ok w secret period [-60; -30; 0; 30; 60] key Hd Hp)
        as (codes & Hrun & Hfst & Hall).
      exists codes. split; [exact Hrun|]. split; [exact Hfst|].
      eapply list.Forall_impl; [exact Hall|].
      intros oc Hoc. cbv beta in Hoc. rewrite <- offset_is_clock_shift. exact Hoc.
  - eapply totpCodesAt_decode_error, Hd.
  - pose proof (base32_DecodeString_no_panic (Mfa.cleanSecret secret)) as Hn.
    rewrite Hd in Hn. discriminate Hn.
Qed.

(** The listing of codes that [GenerateMFA] prints first never changes what
    it returns. *)
Lemma generateTOTPCodes_then_generateTOTP (w : World) (secret : string) (period : Z) :
  match Mfa.generateTOTPCodes w secret period with
  | Ok _ => True
  | Err _ => False
  | Panic p => Mfa.generateTOTP w secret period = Panic p
  end.
Proof.
  unfold Mfa.generateTOTPCodes, Mfa.generateTOTP. cbv zeta.
  destruct (base32_DecodeString (Mfa.cleanSecret secret)) as [key|e|p] eqn:Hd.
  - destruct (decide (period = 0)) as [->|Hp].
    + rewrite (totpCodesAt_zero_period w secret _ _ key Hd).
      apply (generateTOTPWithOffset_zero_period w secret 0 key Hd).
    + destruct (totpCodesAt_ok w secret period [-60; -30; 0; 30; 60] key Hd Hp)
        as (codes & -> & _). exact I.
  - rewrite (totpCodesAt_decode_error w secret period _ e Hd). exact I.
  - pose proof (base32_DecodeString_no_panic (Mfa.cleanSecret secret)) as Hn.
    rewrite Hd in Hn. discriminate Hn.
Qed.

Lemma GenerateMFA_found (w : World) (account name : string) (storage : Mfa.MFAStorage)
    (i : nat) (entry : Mfa.MFAEntry) :
  Mfa.loadMFAStorage w = (Ok storage, w) ->
  list_find (fun x => Mfa.Account x = account /\ Mfa.Name x = name) (Mfa.Entries storage)
  = Some (i, entry) ->
  Mfa.GenerateMFA account name w
  = (match Mfa.generateTOTP w (Mfa.Secret entry) (Mfa.Period entry) with
     | Err err => Err (Errorf "failed to generate TOTP" err)
     | r => r
     end, w).
Proof.
  intros Hl Hfind. unfold Mfa.GenerateMFA.
  rewrite (IO_bind_Ok _ _ _ _ _ Hl). rewrite Hfind.
  pose proof (generateTOTPCodes_then_generateTOTP w (Mfa.Secret entry) (Mfa.Period entry))
    as Hcodes.
  unfold mbind, IO_bind, wrap.
  destruct (Mfa.generateTOTPCodes w (Mfa.Secret entry) (Mfa.Period entry)) as [codes|e|p].
  - destruct (Mfa.generateTOTP w (Mfa.Secret entry) (Mfa.Period entry)); reflexivity.
  - destruct Hcodes.
  - rewrite Hcodes. reflexivity.
Qed.

Lemma GenerateMFA_not_found (w : World) (account name : string) (storage : Mfa.MFAStorage) :
  Mfa.loadMFAStorage w = (Ok storage, w) ->
  list_find (fun x => Mfa.Account x = account /\ Mfa.Name x = name) (Mfa.Entries storage)
  = None ->
  Mfa.GenerateMFA account name w
  = (Err (New ("MFA entry not found for account '" +:+ account
               +:+ "' and name '" +:+ name +:+ "'")), w).
Proof.
  intros Hl Hfind. unfold Mfa.GenerateMFA.
  rewrite (IO_bind_Ok _ _ _ _ _ Hl). rewrite Hfind. reflexivity.
Qed.

(** X13.  When the store loads, [GenerateMFA] answers for the first stored
    entry with the given account and name, whatever entries follow it: it
    returns what [generateTOTP] returns for the secret and period of that
    entry, an error being wrapped, and the codes listed beforehand change
    nothing.  When no entry has the account and name it reports that the
    entry was not found.  When the store does not load, the error of the
    load is returned as it is. *)
Theorem GenerateMFA_outcome (w : World) (account name : string) :
  (forall (storage : Mfa.MFAStorage) (i : nat) (entry : Mfa.MFAEntry),
     Mfa.loadMFAStorage w = (Ok storage, w) ->
     Mfa.Entries storage !! i = Some entry ->
     Mfa.Account entry = account /\ Mfa.Name entry = name ->
     (forall (j : nat) (other : Mfa.MFAEntry),
        Mfa.Entries storage !! j = Some other -> (j < i)%nat ->
        ~ (Mfa.Account other = account /\ Mfa.Name other = name)) ->
     Mfa.GenerateMFA account name w
     = (match Mfa.generateTOTP w (Mfa.Secret entry) (Mfa.Period entry) with
        | Err err => Err (Errorf "failed to generate TOTP" err)
        | r => r
        end, w)) /\
  (forall storage : Mfa.MFAStorage,
     Mfa.loadMFAStorage w = (Ok storage, w) ->
     Forall (fun other => ~ (Mfa.Account other = account /\ Mfa.Name other = name))
       (Mfa.Entries storage) ->
     Mfa.GenerateMFA account name w
     = (Err (New ("MFA entry not found for account '" +:+ account
                  +:+ "' and name '" +:+ name +:+ "'")), w)) /\
  (forall (e : error) (w' : World),
     Mfa.loadMFAStorage w = (Err e, w') ->
     Mfa.GenerateMFA account name w = (Err e, w)).
Proof.
  split; [|split].
  - intros storage i entry Hl Hi Hkey Hfirst.
    apply (GenerateMFA_found w account name storage i entry Hl).
    apply list_find_Some. split; [exact Hi|]. split; [exact Hkey|].
    intros j other Hj Hlt. apply (Hfirst j other Hj Hlt).
  - intros storage Hl Hnone.
    apply (GenerateMFA_not_found w account name storage Hl).
    apply list_find_None. exact Hnone.
  - intros e w' Hl. pose proof (loadMFAStorage_world w) as Hw.
    rewrite Hl in Hw. cbn in Hw. subst w'.
    unfold Mfa.GenerateMFA. apply (IO_bind_Err _ _ _ _ _ Hl).
Qed.

End Generate.

Lemma GenerateMFA_outcome_witness :
  @Mfa.GenerateMFA Sample.tables Sample.mfa_json "github" "a@b" Sample.two_accounts
  = (Ok ("734211", 1), Sample.two_accounts) /\
  @Mfa.GenerateMFA Sample.tables Sample.mfa_json "gitlab" "a@b" Sample.two_accounts
  = (Err (New "MFA entry not found for account 'gitlab' and name 'a@b'"),
     Sample.two_accounts) /\
  @Mfa.GenerateMFA Sample.tables Sample.mfa_json "github" "a@b"
    (Sample.with_file (Layout.mfa "/home/u") [0x7B])
  = (Err (Errorf "failed to parse config file" (SyntaxError "invalid character")),
     Sample.with_file (Layout.mfa "/home/u") [0x7B]).
Proof.
  assert (Hl : @Mfa.loadMFAStorage Sample.mfa_json Sample.two_accounts
               = (Ok (Mfa.mkMFAStorage [Sample.google; Sample.github]), Sample.two_accounts))
    by (vm_compute; reflexivity).
  split; [|split].
  - refine (proj1 (@GenerateMFA_outcome Sample.tables Sample.mfa_json
                     Sample.two_accounts "github" "a@b")
              (Mfa.mkMFAStorage [Sample.google; Sample.github]) 1%nat Sample.github
              Hl eq_refl (conj eq_refl eq_refl) _).
    intros j other Hj Hlt. destruct j as [|j]; [|lia].
    injection Hj as <-. intros [Ha _]. discriminate Ha.
  - refine (proj1 (proj2 (@GenerateMFA_outcome Sample.tables Sample.mfa_json
                            Sample.two_accounts "gitlab" "a@b"))
              (Mfa.mkMFAStorage [Sample.google; Sample.github]) Hl _).
    repeat constructor; intros [Ha _]; discriminate Ha.
  - refine (proj2 (proj2 (@GenerateMFA_outcome Sample.tables Sample.mfa_json
                            (Sample.with_file (Layout.mfa "/home/u") [0x7B])
                            "github" "a@b")) _ _ _).
    vm_compute. reflexivity.
Defined.

(** ** Storing, then reading back *)

Lemma bytes_pos_pos_bytes (p : positive) : Sample.bytes_pos (Sample.pos_bytes p) = Some p.
Proof.
  induction p as [q IH|q IH|]; [| |reflexivity].
  - cbn [Sample.pos_bytes Sample.bytes_pos]. rewrite IH.
    destruct (Sample.pos_bytes q) eqn:Hq; [destruct q; discriminate Hq | reflexivity].
  - cbn [Sample.pos_bytes Sample.bytes_pos]. rewrite IH.
    destruct (Sample.pos_bytes q) eqn:Hq; [destruct q; discriminate Hq | reflexivity].
Qed.

Lemma sample_unmarshal_marshal {E T : Type} `{Countable E} (mk : list E -> T) (l : list E) :
  Sample.unmarshal mk (Sample.pos_bytes (encode l)) = Ok (mk l).
Proof.
  unfold Sample.unmarshal.
  destruct (Sample.pos_bytes (encode l)) eqn:Hb;
    [destruct (encode l); discriminate Hb|].
  rewrite <- Hb, bytes_pos_pos_bytes. cbn. rewrite decode_encode. reflexivity.
Qed.

Lemma sample_mfa_decodes_back (d : list Z) : @decodes_back Mfa.MFAStorage Sample.mfa_json d.
Proof. intros [l] <-. apply (sample_unmarshal_marshal Mfa.mkMFAStorage). Qed.

Lemma sample_pass_decodes_back (d : list Z) :
  @decodes_back Pass.PasswordStorage Sample.pass_json d.
Proof. intros [l] <-. apply (sample_unmarshal_marshal Pass.mkPasswordStorage). Qed.

Lemma sample_mpin_decodes_back (d : list Z) : @decodes_back Mpin.MPINConfig Sample.mpin_json d.
Proof. intros [l] <-. apply (sample_unmarshal_marshal Mpin.mkMPINConfig). Qed.

(** The entry that an upsert puts in is the first one with its key. *)
Lemma upserted_first {E : Type} (P : E -> Prop) (e : E) (old new : list E) :
  Spec.upserted P e old new ->
  exists i : nat,
    new !! i = Some e /\
    forall (j : nat) (y : E), new !! j = Some y -> (j < i)%nat -> ~ P y.
Proof.
  intros [(i & x & Hi & Hx & Hfirst & Hlen & He & Hothers) | [Hnone ->]].
  - exists i. split; [exact He|]. intros j y Hj Hlt Hy.
    rewrite Hothers in Hj by lia. pose proof (Hfirst j y Hj Hy). lia.
  - exists (length old). split.
    + rewrite lookup_app_r by lia. rewrite Nat.sub_diag. reflexivity.
    + intros j y Hj Hlt. rewrite lookup_app_l in Hj by exact Hlt.
      rewrite list.Forall_forall in Hnone. apply Hnone.
      eapply list_elem_of_lookup_2, Hj.
Qed.

(** Reading the file that was just written. *)
Lemma load_result_written {T : Type} (path : string -> string) (dir readmsg : string)
    (parse : list Z -> outcome T) (empty : T) (d : list Z) (h : string) (w : World) :
  home w = Some h -> mkdir_ok w = true ->
  fs w !! path h = Some (mkInode d true) ->
  load_result path dir readmsg parse empty w = (parse d, w).
Proof. intros Hh Hm Hf. unfold load_result. rewrite Hh, Hm, Hf. reflexivity. Qed.

Lemma decodes_back_guarded {T : Type} `{JSON T} (parsemsg : string) (empty s : T) :
  decodes_back T (json_MarshalIndent s) ->
  guarded parsemsg empty (json_MarshalIndent s) = Ok s.
Proof.
  intros Hd. specialize (Hd s eq_refl). unfold guarded.
  destruct (json_MarshalIndent s) as [|c d] eqn:Hm.
  - rewrite json_Unmarshal_empty in Hd. discriminate Hd.
  - destruct (_ =? 0) eqn:He; [apply Z.eqb_eq in He; cbn in He; lia|].
    rewrite Hd. reflexivity.
Qed.

Lemma decodes_back_unguarded {T : Type} `{JSON T} (parsemsg : string) (s : T) :
  decodes_back T (json_MarshalIndent s) ->
  unguarded parsemsg (json_MarshalIndent s) = Ok s.
Proof. intros Hd. unfold unguarded. rewrite (Hd s eq_refl). reflexivity. Qed.

Lemma save_result_Ok (path : string -> string) (dir writemsg : string) (d : list Z)
    (w w' : World) :
  save_result path dir writemsg d w = (Ok tt, w') -> write_ok w = true.
Proof.
  unfold save_result. destruct (home w); [|discriminate].
  destruct (mkdir_ok w); [|discriminate].
  destruct (write_ok w); [reflexivity|].
  destruct (write_fault w); discriminate.
Qed.

Lemma generateTOTP_Ok_anywhere {tables : CaseTables} (w w2 : World) (secret : string)
    (period : Z) (v : string * Z) :
  Mfa.generateTOTP w secret period = Ok v ->
  exists v2, Mfa.generateTOTP w2 secret period = Ok v2.
Proof.
  unfold Mfa.generateTOTP. intros Hg.
  destruct (base32_DecodeString (Mfa.cleanSecret secret)) as [key|e|p] eqn:Hd.
  - destruct (decide (period = 0)) as [->|Hp].
    + rewrite (generateTOTPWithOffset_zero_period w secret 0 key Hd) in Hg. discriminate Hg.
    + destruct (generateTOTPWithOffset_ok w2 secret period 0 key Hd Hp)
        as (otp & remaining & Hg2 & _).
      exists (otp, remaining). exact Hg2.
  - rewrite (generateTOTPWithOffset_decode_error w secret period 0 e Hd) in Hg.
    discriminate Hg.
  - pose proof (base32_DecodeString_no_panic (Mfa.cleanSecret secret)) as Hn.
    rewrite Hd in Hn. discriminate Hn.
Qed.

Section RoundTrips.
Context {tables : CaseTables} {mfa_codec : JSON Mfa.MFAStorage}
        {pass_codec : JSON Pass.PasswordStorage} {mpin_codec : JSON Mpin.MPINConfig}.

Lemma SetupMFA_Ok (w w' : World) (account name secret : string) (period : Z) :
  Mfa.SetupMFA account name secret period w = (Ok tt, w') ->
  exists (v : string * Z) (storage : Mfa.MFAStorage),
    Mfa.generateTOTP w secret period = Ok v /\
    Mfa.loadMFAStorage w = (Ok storage, w) /\
    write_ok w = true.
Proof.
  unfold Mfa.SetupMFA.
  rewrite (IO_bind_Ok _ _ w w (1, "287082"))
    by (unfold lift; rewrite testTOTP_ok; reflexivity).
  destruct (Mfa.generateTOTP w secret period) as [v|e|p] eqn:Hg.
  - rewrite (IO_bind_Ok _ _ w w v) by (unfold wrap; cbv beta; rewrite Hg; reflexivity).
    pose proof (loadMFAStorage_world w) as Hw.
    destruct (Mfa.loadMFAStorage w) as [[storage|e|p] w1] eqn:Hl; cbn in Hw; subst w1.
    + rewrite (IO_bind_Ok _ _ _ _ _ Hl).
      intros Hsave. exists v, storage. split; [reflexivity|]. split; [reflexivity|].
      destruct (list_find _ _) as [[i x]|]; rewrite saveMFAStorage_eval in Hsave;
        eapply save_result_Ok, Hsave.
    + rewrite (IO_bind_Err _ _ _ _ _ Hl). discriminate.
    + rewrite (IO_bind_Panic _ _ _ _ _ Hl). discriminate.
  - rewrite (IO_bind_Err _ _ w w (Errorf "invalid secret key - cannot generate TOTP" e))
      by (unfold wrap; cbv beta; rewrite Hg; reflexivity).
    discriminate.
  - rewrite (IO_bind_Panic _ _ w w p) by (unfold wrap; cbv beta; rewrite Hg; reflexivity).
    discriminate.
Qed.

Lemma AddMPIN_Ok (w w' : World) (name account : string) (length_ : Z) :
  Mpin.AddMPIN name account length_ w = (Ok tt, w') ->
  name <> "" /\ account <> "" /\ 0 < length_ /\
  (Z.to_nat length_ <= length (entropy w))%nat /\
  write_ok w = true /\
  exists config : Mpin.MPINConfig, Mpin.loadMPINConfig w = (Ok config, w).
Proof.
  unfold Mpin.AddMPIN.
  destruct (bool_decide (name = "" \/ account = "")) eqn:Hk; [discriminate|].
  apply bool_decide_eq_false in Hk.
  destruct (length_ <=? 0) eqn:Hlen; [discriminate|]. apply Z.leb_gt in Hlen.
  pose proof (loadMPINConfig_world w) as Hw.
  destruct (Mpin.loadMPINConfig w) as [[config|e|p] w1] eqn:Hl; cbn in Hw; subst w1.
  - rewrite (IO_bind_Ok _ _ _ _ _ Hl). intros Hrun.
    split; [tauto|]. split; [tauto|]. split; [exact Hlen|].
    assert (Hgen :
      (Z.to_nat length_ <= length (entropy w))%nat /\
      write_ok (drawn (Z.to_nat length_) w) = true).
    { destruct (list_find _ _) as [[i x]|]; unfold mbind, IO_bind in Hrun;
        rewrite generateMPIN_eval in Hrun by exact Hlen;
        (destruct (decide _) as [Hn|Hn]; [|discriminate Hrun]);
        rewrite saveMPINConfig_eval in Hrun;
        (split; [exact Hn | eapply save_result_Ok, Hrun]). }
    destruct Hgen as [Hn Hwr]. split; [exact Hn|]. split; [exact Hwr|].
    exists config. reflexivity.
  - rewrite (IO_bind_Err _ _ _ _ _ Hl). discriminate.
  - rewrite (IO_bind_Panic _ _ _ _ _ Hl). discriminate.
Qed.

Lemma AddPassword_Ok (w w' : World) (name account : string) (length_ : Z)
    (a A d : bool) (s : string) :
  Pass.AddPassword name account length_ a A d s w = (Ok tt, w') ->
  name <> "" /\ account <> "" /\ 0 < length_ /\
  (Z.to_nat length_ <= length (entropy w))%nat /\
  write_ok w = true /\
  exists storage : Pass.PasswordStorage, Pass.loadPasswordStorage w = (Ok storage, w).
Proof.
  unfold Pass.AddPassword.
  destruct (bool_decide (name = "" \/ account = "")) eqn:Hk; [discriminate|].
  apply bool_decide_eq_false in Hk.
  destruct (Z_le_gt_dec length_ 0) as [Hle|Hlen].
  - rewrite (IO_bind_Err _ _ w w
               (Errorf "failed to generate password"
                  (New "password length must be greater than 0"))).
    + discriminate.
    + apply wrap_Err. unfold Pass.generatePassword.
      replace (length_ <=? 0) with true by blia. reflexivity.
  - assert (Hpos : 0 < length_) by lia.
    pose proof (generatePassword_eval length_ a A d s w Hpos) as Hgen.
    destruct (decide (Z.to_nat length_ <= length (entropy w))%nat) as [Hn|Hn].
    + rewrite (IO_bind_Ok _ _ _ _ _ (wrap_Ok "failed to generate password" _ _ _ _ Hgen)).
      cbv zeta.
      pose proof (loadPasswordStorage_world (drawn (Z.to_nat length_) w)) as Hw.
      destruct (Pass.loadPasswordStorage (drawn (Z.to_nat length_) w))
        as [[storage|e|p] w1] eqn:Hl; cbn [snd] in Hw; subst w1.
      * rewrite (IO_bind_Ok _ _ _ _ _ Hl). intros Hrun.
        split; [tauto|]. split; [tauto|]. split; [exact Hpos|]. split; [exact Hn|].
        split.
        -- destruct (list_find _ _) as [[i x]|];
             rewrite savePasswordStorage_eval in Hrun;
             apply save_result_Ok in Hrun; exact Hrun.
        -- exists storage. rewrite loadPasswordStorage_eval in Hl |- *.
           pose proof (load_result_world Layout.pass "pass"
                         "failed to read password config file"
                         (guarded "failed to parse password config file"
                            (Pass.mkPasswordStorage []))
                         (Pass.mkPasswordStorage []) w) as Hw.
           destruct (load_result _ _ _ _ _ w) as [o w1] eqn:Hl0. cbn [snd] in Hw. subst w1.
           rewrite (load_result_drawn _ _ _ _ _ _ _ _ (Z.to_nat length_) Hl0) in Hl.
           congruence.
      * rewrite (IO_bind_Err _ _ _ _ _ Hl). discriminate.
      * rewrite (IO_bind_Panic _ _ _ _ _ Hl). discriminate.
    + rewrite (IO_bind_Err _ _ _ _ _ (wrap_Err "failed to generate password" _ _ _ _ Hgen)).
      discriminate.
Qed.

(** X14.  After a successful [SetupMFA], if the file it left decodes back to
    what was encoded, the store lists the entry just given as the first one
    with its account and name, and [GenerateMFA] for that account and name
    succeeds at every later second of the clock, with the code that
    [generateTOTP] computes from the secret and period just given: a secret
    accepted at setup never fails to generate. *)
Theorem setup_then_generate (w w' : World) (account name secret : string) (period t : Z) :
  Mfa.SetupMFA account name secret period w = (Ok tt, w') ->
  (forall (h : string) (f : inode),
     home w' = Some h -> fs w' !! Layout.mfa h = Some f ->
     decodes_back Mfa.MFAStorage (data f)) ->
  (exists (entries : list Mfa.MFAEntry) (i : nat),
     Mfa.ListMFA w' = (Ok entries, w') /\
     entries !! i = Some (Mfa.mkMFAEntry account name secret period) /\
     forall (j : nat) (other : Mfa.MFAEntry),
       entries !! j = Some other -> (j < i)%nat ->
       ~ (Mfa.Account other = account /\ Mfa.Name other = name)) /\
  exists v : string * Z,
    Mfa.generateTOTP (set_clock w' t) secret period = Ok v /\
    Mfa.GenerateMFA account name (set_clock w' t) = (Ok v, set_clock w' t).
Proof.
  intros Hrun Hback.
  destruct (SetupMFA_Ok w w' account name secret period Hrun)
    as (v & storage & Hg & Hl & Hw).
  destruct (SetupMFA_upsert w account name secret period storage v Hg Hl Hw)
    as (h & new & Hh & Hrun2 & Hup & _).
  rewrite Hrun in Hrun2. injection Hrun2 as ->.
  rewrite loadMFAStorage_eval in Hl. apply load_result_ok in Hl.
  destruct Hl as (_ & h' & Hh' & Hm & _).
  set (d := json_MarshalIndent (Mfa.mkMFAStorage new)) in *.
  set (w' := written (Layout.mfa h) d w) in *.
  assert (Hf : fs w' !! Layout.mfa h = Some (mkInode d true))
    by (apply lookup_insert_eq).
  pose proof (Hback h _ Hh Hf) as Hd. cbn [data] in Hd.
  assert (Hload : forall w2, home w2 = Some h -> mkdir_ok w2 = true ->
                    fs w2 !! Layout.mfa h = Some (mkInode d true) ->
                    Mfa.loadMFAStorage w2 = (Ok (Mfa.mkMFAStorage new), w2)).
  { intros w2 H1 H2 H3. rewrite loadMFAStorage_eval.
    rewrite (load_result_written _ _ _ _ _ d h w2 H1 H2 H3).
    unfold d. rewrite decodes_back_guarded by exact Hd. reflexivity. }
  destruct (upserted_first _ _ _ _ Hup) as (i & Hi & Hfirst).
  split.
  - exists new, i. split; [|split; [exact Hi | exact Hfirst]].
    unfold Mfa.ListMFA. rewrite (IO_bind_Ok _ _ _ _ _ (Hload w' Hh Hm Hf)). reflexivity.
  - destruct (generateTOTP_Ok_anywhere w (set_clock w' t) secret period v Hg) as (v2 & Hv2).
    exists v2. split; [exact Hv2|].
    rewrite (GenerateMFA_found (set_clock w' t) account name (Mfa.mkMFAStorage new) i
               (Mfa.mkMFAEntry account name secret period)).
    + cbn [Mfa.Secret Mfa.Period]. rewrite Hv2. reflexivity.
    + apply Hload; [exact Hh | exact Hm | exact Hf].
    + apply list_find_Some. split; [exact Hi|]. split; [split; reflexivity | exact Hfirst].
Qed.

(** X15.  After a successful [AddMPIN], if the file it left decodes back to
    what was encoded, [GetMPIN] for the same name and account returns the
    PIN that was stored, a string of [length] decimal digits, and the
    listing has the entry with that PIN as the first one with its name and
    account. *)
Theorem add_then_get_mpin (w w' : World) (name account : string) (length_ : Z) :
  Mpin.AddMPIN name account length_ w = (Ok tt, w') ->
  (forall (h : string) (f : inode),
     home w' = Some h -> fs w' !! Layout.mpin h = Some f ->
     decodes_back Mpin.MPINConfig (data f)) ->
  exists pin : string,
    len pin = length_ /\ Forall is_digit (bytes pin) /\
    Mpin.GetMPIN name account w' = (Ok pin, w') /\
    exists (entries : list Mpin.MPINEntry) (i : nat),
      Mpin.ListMPINs w' = (Ok entries, w') /\
      entries !! i = Some (Mpin.mkMPINEntry name account pin) /\
      forall (j : nat) (other : Mpin.MPINEntry),
        entries !! j = Some other -> (j < i)%nat ->
        ~ (Mpin.Name other = name /\ Mpin.Account other = account).
Proof.
  intros Hrun Hback.
  destruct (AddMPIN_Ok w w' name account length_ Hrun)
    as (Hname & Hacc & Hlen & Hn & Hw & config & Hl).
  destruct (AddMPIN_upsert w name account length_ config Hname Hacc Hlen Hn Hl Hw)
    as (h & pin & new & Hh & _ & Hpl & Hpd & Hrun2 & Hup & _).
  rewrite Hrun in Hrun2. injection Hrun2 as ->.
  rewrite loadMPINConfig_eval in Hl. apply load_result_ok in Hl.
  destruct Hl as (_ & h' & Hh' & Hm & _).
  set (d := json_MarshalIndent (Mpin.mkMPINConfig new)) in *.
  set (w' := written (Layout.mpin h) d (drawn (Z.to_nat length_) w)) in *.
  assert (Hf : fs w' !! Layout.mpin h = Some (mkInode d true))
    by (apply lookup_insert_eq).
  pose proof (Hback h _ Hh Hf) as Hd. cbn [data] in Hd.
  assert (Hload : Mpin.loadMPINConfig w' = (Ok (Mpin.mkMPINConfig new), w')).
  { rewrite loadMPINConfig_eval.
    rewrite (load_result_written _ _ _ _ _ d h w' Hh Hm Hf).
    unfold d. rewrite decodes_back_unguarded by exact Hd. reflexivity. }
  destruct (upserted_first _ _ _ _ Hup) as (i & Hi & Hfirst).
  exists pin. split; [exact Hpl|]. split; [exact Hpd|]. split.
  - unfold Mpin.GetMPIN.
    rewrite bool_decide_eq_false_2 by tauto.
    rewrite (IO_bind_Ok _ _ _ _ _ Hload). cbn [Mpin.Entries].
    replace (list_find _ new) with (Some (i, Mpin.mkMPINEntry name account pin));
      [reflexivity|].
    symmetry. apply list_find_Some.
    split; [exact Hi|]. split; [split; reflexivity | exact Hfirst].
  - exists new, i. split; [|split; [exact Hi | exact Hfirst]].
    unfold Mpin.ListMPINs. rewrite (IO_bind_Ok _ _ _ _ _ Hload). reflexivity.
Qed.

(** X16.  After a successful [AddPassword], if the file it left decodes back
    to what was encoded, [GetPasswords] lists, as the first entry with the
    given name and account, a password of [length] characters, each one of
    the selected character set, together with the requested length and the
    description of the selection. *)
Theorem add_then_get_password (w w' : World) (name account : string) (length_ : Z)
    (a A d : bool) (s : string) :
  Pass.AddPassword name account length_ a A d s w = (Ok tt, w') ->
  (forall (h : string) (f : inode),
     home w' = Some h -> fs w' !! Layout.pass h = Some f ->
     decodes_back Pass.PasswordStorage (data f)) ->
  exists (password : string) (entries : list Pass.PasswordEntry) (i : nat),
    len password = length_ /\
    Forall (fun c => In c (bytes (Pass.passwordCharset a A d s))) (bytes password) /\
    Pass.GetPasswords w' = (Ok entries, w') /\
    entries !! i
    = Some (Pass.mkPasswordEntry name account password length_
              (Pass.configDescription a A d s)) /\
    forall (j : nat) (other : Pass.PasswordEntry),
      entries !! j = Some other -> (j < i)%nat ->
      ~ (Pass.Name other = name /\ Pass.Account other = account).
Proof.
  intros Hrun Hback.
  destruct (AddPassword_Ok w w' name account length_ a A d s Hrun)
    as (Hname & Hacc & Hlen & Hn & Hw & storage & Hl).
  destruct (AddPassword_upsert w name account length_ a A d s storage
              Hname Hacc Hlen Hn Hl Hw)
    as (h & password & new & Hh & _ & Hpl & Hpc & Hrun2 & Hup & _).
  rewrite Hrun in Hrun2. injection Hrun2 as ->.
  rewrite loadPasswordStorage_eval in Hl. apply load_result_ok in Hl.
  destruct Hl as (_ & h' & Hh' & Hm & _).
  set (bs := json_MarshalIndent (Pass.mkPasswordStorage new)) in *.
  set (w' := written (Layout.pass h) bs (drawn (Z.to_nat length_) w)) in *.
  assert (Hf : fs w' !! Layout.pass h = Some (mkInode bs true))
    by (apply lookup_insert_eq).
  pose proof (Hback h _ Hh Hf) as Hd. cbn [data] in Hd.
  assert (Hload : Pass.loadPasswordStorage w' = (Ok (Pass.mkPasswordStorage new), w')).
  { rewrite loadPasswordStorage_eval.
    rewrite (load_result_written _ _ _ _ _ bs h w' Hh Hm Hf).
    unfold bs. rewrite decodes_back_guarded by exact Hd. reflexivity. }
  destruct (upserted_first _ _ _ _ Hup) as (i & Hi & Hfirst).
  exists password, new, i. split; [exact Hpl|]. split; [exact Hpc|].
  split; [|split; [exact Hi | exact Hfirst]].
  unfold Pass.GetPasswords.
  rewrite (IO_bind_Ok _ _ _ _ _ (wrap_Ok "error loading passwords" _ _ _ _ Hload)).
  reflexivity.
Qed.

End RoundTrips.

Lemma setup_then_generate_witness :
  let w' := written (Layout.mfa "/home/u")
              (@json_MarshalIndent _ Sample.mfa_json (Mfa.mkMFAStorage [Sample.google]))
              Sample.fresh in
  @Mfa.SetupMFA Sample.tables Sample.mfa_json "google" "a@b" "GEZDGNBVGY3TQOJQ" 30
    Sample.fresh = (Ok tt, w') /\
  exists v : string * Z,
    @Mfa.generateTOTP Sample.tables (set_clock w' 1111111109) "GEZDGNBVGY3TQOJQ" 30 = Ok v /\
    @Mfa.GenerateMFA Sample.tables Sample.mfa_json "google" "a@b" (set_clock w' 1111111109)
    = (Ok v, set_clock w' 1111111109).
Proof.
  intros w'.
  assert (Hrun : @Mfa.SetupMFA Sample.tables Sample.mfa_json "google" "a@b"
                   "GEZDGNBVGY3TQOJQ" 30 Sample.fresh = (Ok tt, w'))
    by (vm_compute; reflexivity).
  split; [exact Hrun|].
  exact (proj2 (@setup_then_generate Sample.tables Sample.mfa_json Sample.fresh w'
                  "google" "a@b" "GEZDGNBVGY3TQOJQ" 30 1111111109 Hrun
                  (fun h f _ _ => sample_mfa_decodes_back (data f)))).
Defined.

Lemma add_then_get_mpin_witness :
  exists w' : World,
    @Mpin.AddMPIN Sample.mpin_json "bank" "me" 4 Sample.fresh = (Ok tt, w') /\
    exists pin : string,
      len pin = 4 /\ Forall is_digit (bytes pin) /\
      @Mpin.GetMPIN Sample.mpin_json "bank" "me" w' = (Ok pin, w').
Proof.
  eexists. split; [vm_compute; reflexivity|].
  destruct (@add_then_get_mpin Sample.mpin_json Sample.fresh _ "bank" "me" 4
              ltac:(vm_compute; reflexivity)
              (fun h f _ _ => sample_mpin_decodes_back (data f)))
    as (pin & Hl & Hd & Hget & _).
  exists pin. split; [exact Hl|]. split; [exact Hd | exact Hget].
Defined.

Lemma add_then_get_password_witness :
  exists w' : World,
    @Pass.AddPassword Sample.pass_json "github" "me" 8 true true true Main.defaultSpecial
      Sample.fresh = (Ok tt, w') /\
    exists (password : string) (entries : list Pass.PasswordEntry) (i : nat),
      len password = 8 /\
      @Pass.GetPasswords Sample.pass_json w' = (Ok entries, w') /\
      entries !! i
      = Some (Pass.mkPasswordEntry "github" "me" password 8
                "lowercase, uppercase, digits, special(!@#$%^&*()_+-=[]{}|;:,.<>?)").
Proof.
  eexists. split; [vm_compute; reflexivity|].
  destruct (@add_then_get_password Sample.pass_json Sample.fresh _
              "github" "me" 8 true true true Main.defaultSpecial
              ltac:(vm_compute; reflexivity)
              (fun h f _ _ => sample_pass_decodes_back (data f)))
    as (password & entries & i & Hl & _ & Hget & Hi & _).
  exists password, entries, i. split; [exact Hl|]. split; [exact Hget | exact Hi].
Defined.

(** ** The three stores do not interfere *)

Lemma append_cancel_l (h x y : string) : h +:+ x = h +:+ y -> x = y.
Proof.
  induction h as [|c h IH]; [intros Hxy; exact Hxy|].
  rewrite !append_String. intros [= Hxy]. apply IH, Hxy.
Qed.

Lemma layout_mfa (h : string) : Layout.mfa h = h +:+ "/.config/mfa/secrets.json".
Proof.
  unfold Layout.mfa, filepath_Join. cbn [strings_Join]. rewrite !append_assoc. reflexivity.
Qed.

Lemma layout_pass (h : string) : Layout.pass h = h +:+ "/.config/pass/passwords.json".
Proof.
  unfold Layout.pass, filepath_Join. cbn [strings_Join]. rewrite !append_assoc. reflexivity.
Qed.

Lemma layout_mpin (h : string) : Layout.mpin h = h +:+ "/.config/mpin/pins.json".
Proof.
  unfold Layout.mpin, filepath_Join. cbn [strings_Join]. rewrite !append_assoc. reflexivity.
Qed.

Lemma layout_distinct (h : string) :
  Layout.mfa h <> Layout.pass h /\ Layout.mfa h <> Layout.mpin h /\
  Layout.pass h <> Layout.mpin h.
Proof.
  rewrite layout_mfa, layout_pass, layout_mpin.
  repeat split; intros Heq; apply append_cancel_l in Heq; discriminate Heq.
Qed.

(** What a load returns depends on the settings and on its own file only. *)
Lemma load_result_same {T : Type} (path : string -> string) (dir readmsg : string)
    (parse : list Z -> outcome T) (empty : T) (w w' : World) :
  same_settings w w' ->
  (forall h, home w = Some h -> fs w' !! path h = fs w !! path h) ->
  (load_result path dir readmsg parse empty w').1
  = (load_result path dir readmsg parse empty w).1.
Proof.
  intros (_ & Hh & Hm & _) Hf. unfold load_result. rewrite Hh, Hm.
  destruct (home w) as [h|]; [|reflexivity].
  destruct (mkdir_ok w); [|reflexivity].
  rewrite (Hf h eq_refl).
  destruct (fs w !! path h) as [f|]; [|reflexivity].
  destruct (readable f); reflexivity.
Qed.

Lemma writes_only_elsewhere {A : Type} (path path' : string -> string) (w : World)
    (r : outcome A * World) :
  writes_only path w r ->
  (forall h, path h <> path' h) ->
  forall h, home w = Some h -> fs r.2 !! path' h = fs w !! path' h.
Proof.
  destruct r as [[a|e|p] w']; unfold writes_only; cbn [fst snd]; intros [Hs Hf] Hne h Hh.
  - destruct Hf as (h0 & d & Hh0 & ->).
    assert (h0 = h) as -> by congruence.
    apply lookup_insert_ne, Hne.
  - destruct Hf as [Hf | (h0 & d & k & Hh0 & _ & _ & Hf)]; rewrite Hf; [reflexivity|].
    assert (h0 = h) as -> by congruence.
    apply lookup_insert_ne, Hne.
  - rewrite Hf. reflexivity.
Qed.

Lemma writes_only_load_same {A T : Type} (path path' : string -> string)
    (dir readmsg : string) (parse : list Z -> outcome T) (empty : T) (w : World)
    (r : outcome A * World) :
  writes_only path w r ->
  (forall h, path h <> path' h) ->
  (load_result path' dir readmsg parse empty r.2).1
  = (load_result path' dir readmsg parse empty w).1.
Proof.
  intros Hw Hne. apply load_result_same; [exact (proj1 Hw)|].
  apply (writes_only_elsewhere path path' w r Hw Hne).
Qed.

Lemma layout_ne (h : string) :
  Layout.mfa h <> Layout.pass h /\ Layout.mfa h <> Layout.mpin h /\
  Layout.pass h <> Layout.mfa h /\ Layout.pass h <> Layout.mpin h /\
  Layout.mpin h <> Layout.mfa h /\ Layout.mpin h <> Layout.pass h.
Proof.
  destruct (layout_distinct h) as (H1 & H2 & H3).
  repeat split; first [assumption | intros Heq; symmetry in Heq; contradiction].
Qed.

Section Independence.
Context {tables : CaseTables} {mfa_codec : JSON Mfa.MFAStorage}
        {pass_codec : JSON Pass.PasswordStorage} {mpin_codec : JSON Mpin.MPINConfig}.

(** X17.  The three stores keep three different files, and a mutating
    operation of one store, whatever it returns, never changes what the
    other two stores load. *)
Theorem stores_do_not_interfere (w : World) :
  (forall h : string,
     Layout.mfa h <> Layout.pass h /\ Layout.mfa h <> Layout.mpin h /\
     Layout.pass h <> Layout.mpin h) /\
  (forall (account name secret : string) (period : Z),
     let w' := (Mfa.SetupMFA account name secret period w).2 in
     (Pass.loadPasswordStorage w').1 = (Pass.loadPasswordStorage w).1 /\
     (Mpin.loadMPINConfig w').1 = (Mpin.loadMPINConfig w).1) /\
  (forall (name account : string) (length_ : Z) (a A d : bool) (s : string),
     let w' := (Pass.AddPassword name account length_ a A d s w).2 in
     (Mfa.loadMFAStorage w').1 = (Mfa.loadMFAStorage w).1 /\
     (Mpin.loadMPINConfig w').1 = (Mpin.loadMPINConfig w).1) /\
  (forall (name account : string) (length_ : Z),
     let w' := (Mpin.AddMPIN name account length_ w).2 in
     (Mfa.loadMFAStorage w').1 = (Mfa.loadMFAStorage w).1 /\
     (Pass.loadPasswordStorage w').1 = (Pass.loadPasswordStorage w).1).
Proof.
  split; [exact layout_distinct|].
  split; [|split].
  - intros account name secret period. cbv zeta.
    rewrite !loadPasswordStorage_eval, !loadMPINConfig_eval.
    generalize (SetupMFA_writes account name secret period w).
    generalize (Mfa.SetupMFA account name secret period w). intros r Hw.
    split; apply (writes_only_load_same Layout.mfa _ _ _ _ _ w r Hw);
      intros h; apply layout_ne.
  - intros name account length_ a A d s. cbv zeta.
    rewrite !loadMFAStorage_eval, !loadMPINConfig_eval.
    generalize (AddPassword_writes name account length_ a A d s w).
    generalize (Pass.AddPassword name account length_ a A d s w). intros r Hw.
    split; apply (writes_only_load_same Layout.pass _ _ _ _ _ w r Hw);
      intros h; apply layout_ne.
  - intros name account length_. cbv zeta.
    rewrite !loadMFAStorage_eval, !loadPasswordStorage_eval.
    generalize (AddMPIN_writes name account length_ w).
    generalize (Mpin.AddMPIN name account length_ w). intros r Hw.
    split; apply (writes_only_load_same Layout.mpin _ _ _ _ _ w r Hw);
      intros h; apply layout_ne.
Qed.

End Independence.

Lemma stores_do_not_interfere_witness :
  Layout.mfa "/home/u" <> Layout.pass "/home/u" /\
  (@Pass.loadPasswordStorage Sample.pass_json
     (@Mfa.SetupMFA Sample.tables Sample.mfa_json "google" "a@b" "GEZDGNBVGY3TQOJQ" 30
        Sample.fresh).2).1
  = (@Pass.loadPasswordStorage Sample.pass_json Sample.fresh).1.
Proof.
  destruct (@stores_do_not_interfere Sample.tables Sample.mfa_json Sample.pass_json
              Sample.mpin_json Sample.fresh) as (H1 & H2 & _).
  split.
  - exact (proj1 (H1 "/home/u")).
  - exact (proj1 (H2 "google" "a@b" "GEZDGNBVGY3TQOJQ" 30)).
Defined.

(** ** The selection of character classes *)

Lemma append_nonempty_l (x y : string) : x <> "" -> x +:+ y <> "".
Proof. destruct x as [|c x]; [congruence|]. rewrite append_String. discriminate. Qed.

Lemma append_nonempty_r (x y : string) : y <> "" -> x +:+ y <> "".
Proof.
  destruct x as [|c x]; [intros Hy; exact Hy|]. rewrite append_String. discriminate.
Qed.

Lemma flagCharset_empty (a A d : bool) (s : string) :
  Pass.flagCharset a A d s = "" <-> a = false /\ A = false /\ d = false /\ s = "".
Proof.
  unfold Pass.flagCharset. cbv zeta. split.
  - intros Hc. case_bool_decide as Hs.
    + exfalso. revert Hc. apply append_nonempty_r, Hs.
    + assert (s = "") as -> by (destruct (decide (s = "")); [assumption | contradiction]).
      destruct a, A, d; try (repeat split; reflexivity); exfalso; revert Hc;
        repeat first [apply append_nonempty_r; discriminate | apply append_nonempty_l].
  - intros (-> & -> & -> & ->). reflexivity.
Qed.

Lemma configDescription_default (a A d : bool) (s : string) :
  Pass.configDescription a A d s = "all (default)"
  <-> a = false /\ A = false /\ d = false /\ s = "".
Proof.
  unfold Pass.configDescription. cbv zeta. split.
  - intros Hc. destruct (decide (s = "")) as [->|Hs].
    + rewrite (bool_decide_eq_false_2 ("" <> "")) in Hc by (intros Hn; apply Hn; reflexivity).
      destruct a, A, d; try (repeat split; reflexivity); exfalso;
        cbn [app strings_Join] in Hc; rewrite ?append_String in Hc;
        rewrite bool_decide_eq_false_2 in Hc by discriminate; discriminate Hc.
    + exfalso. rewrite (bool_decide_eq_true_2 (s <> "")) in Hc by exact Hs.
      destruct a, A, d; cbn [app strings_Join] in Hc; rewrite ?append_String in Hc;
        rewrite bool_decide_eq_false_2 in Hc by discriminate; discriminate Hc.
  - intros (-> & -> & -> & ->). reflexivity.
Qed.

(** X18.  The description stored with a password says "all (default)"
    exactly when the generator fell back to the full alphabet, that is when
    no class is switched on and no special character is given; otherwise
    the generator draws from the characters of the selected classes only.
    The arguments that the handler of add-pass passes on always select
    something, so through the command line the fallback is never taken and
    that description is never stored. *)
Theorem description_matches_charset (a A d : bool) (s : string) :
  (Pass.configDescription a A d s = "all (default)"
   <-> Pass.flagCharset a A d s = "") /\
  (Pass.flagCharset a A d s = ""
   <-> a = false /\ A = false /\ d = false /\ s = "") /\
  (Pass.flagCharset a A d s = "" -> Pass.passwordCharset a A d s = Pass.allCharacters) /\
  (Pass.flagCharset a A d s <> ""
   -> Pass.passwordCharset a A d s = Pass.flagCharset a A d s) /\
  (forall f : Main.AddPassFlags,
     let '(a', A', d', s') := Main.effectiveFlags f in
     Pass.flagCharset a' A' d' s' <> "" /\
     Pass.configDescription a' A' d' s' <> "all (default)").
Proof.
  split; [rewrite configDescription_default, flagCharset_empty; reflexivity|].
  split; [apply flagCharset_empty|].
  split; [|split].
  - intros Hc. unfold Pass.passwordCharset. cbv zeta.
    rewrite bool_decide_eq_true_2 by exact Hc. reflexivity.
  - intros Hc. unfold Pass.passwordCharset. cbv zeta.
    rewrite bool_decide_eq_false_2 by exact Hc. reflexivity.
  - intros f. unfold Main.effectiveFlags. cbv zeta.
    destruct (negb (Main.flag_a f) && negb (Main.flag_A f) && negb (Main.flag_d f)
              && bool_decide (Main.flag_s f = "")) eqn:Hall.
    + rewrite configDescription_default, flagCharset_empty.
      split; intros (Ha & _); discriminate Ha.
    + rewrite configDescription_default, flagCharset_empty.
      assert (Hsel : ~ (Main.flag_a f = false /\ Main.flag_A f = false /\
                        Main.flag_d f = false /\
                        (if bool_decide (Main.flag_s f = "default")
                         then Main.defaultSpecial else Main.flag_s f) = "")).
      { intros (Ha & HA & Hd & Hs). rewrite Ha, HA, Hd in Hall. cbn in Hall.
        case_bool_decide as Hdef; [discriminate Hs|].
        rewrite bool_decide_eq_true_2 in Hall by exact Hs. discriminate Hall. }
      split; exact Hsel.
Qed.

Lemma description_matches_charset_witness :
  Pass.flagCharset false false false "" = "" /\
  Pass.passwordCharset false false false "" = Pass.allCharacters /\
  Pass.configDescription false false false "" = "all (default)" /\
  Pass.flagCharset false false true "#" <> "" /\
  Pass.passwordCharset false false true "#" = "0123456789#".
Proof.
  destruct (description_matches_charset false false false "")
    as (Hdesc & _ & Hall & _ & _).
  destruct (description_matches_charset false false true "#")
    as (_ & _ & _ & Hsel & _).
  assert (He : Pass.flagCharset false false false "" = "") by reflexivity.
  assert (Hn : Pass.flagCharset false false true "#" <> "") by discriminate.
  split; [exact He|]. split; [exact (Hall He)|]. split; [exact (proj2 Hdesc He)|].
  split; [exact Hn|]. exact (Hsel Hn).
Defined.

(** ** The earlier revision of the engine *)

Section Revisions.
Context {tables : CaseTables}.

(** X19.  On a secret that the earlier and the current cleaning turn into
    the same text, and with the clock in the range of a 64-bit integer, the
    earlier [generateTOTP] kept in the repository and the current one agree:
    the same code and remaining seconds, the same panic for the period 0,
    and for a secret that does not decode the same decoder error, wrapped
    with the message of each revision. *)
Theorem revisions_agree (w : World) (secret : string) (period : Z) :
  Legacy.cleanSecret secret = Mfa.cleanSecret secret ->
  is_int64 (clock w) ->
  match base32_DecodeString (Mfa.cleanSecret secret) with
  | Err err =>
      Legacy.generateTOTP w secret period = Err (Errorf "invalid secret key" err) /\
      Mfa.generateTOTP w secret period
      = Err (Errorf "invalid secret key after cleaning" err)
  | _ => Legacy.generateTOTP w secret period = Mfa.generateTOTP w secret period
  end.
Proof.
  intros Hclean Hclock.
  unfold Legacy.generateTOTP, Mfa.generateTOTP, Mfa.generateTOTPWithOffset.
  cbv zeta. rewrite Hclean.
  destruct (base32_DecodeString (Mfa.cleanSecret secret)) as [key|e|p] eqn:Hd;
    [|split; reflexivity|reflexivity].
  unfold time_Now_Unix. rewrite Z.add_0_r, (int64_id _ Hclock).
  unfold Mfa.timeCounter, Mfa.remainingSeconds, quo, rem.
  destruct (period =? 0); [reflexivity|].
  cbn [mbind outcome_bind mret outcome_ret].
  set (hash := hmac_sha1 key _).
  pose proof (length_hmac_sha1 key (PutUint64 (uint64 (int64 (clock w ÷ period))))) as Hlen.
  fold hash in Hlen.
  destruct (dynamicTruncation_digest hash Hlen)
    as (offset & v & Ho & _ & Eo & Hs & Hv & Hdt & _).
  rewrite Hdt. unfold index. rewrite Hlen.
  change ((0 <=? 19) && (19 <? Z.of_nat 20)) with true.
  change (Z.to_nat 19) with 19%nat.
  cbn [mbind outcome_bind mret outcome_ret]. rewrite <- Eo.
  replace (uint8 (offset + 4)) with (offset + 4)
    by (unfold uint8; rewrite Z.mod_small; change (2 ^ 8) with 256; lia).
  rewrite Hs. cbn [mbind outcome_bind mret outcome_ret]. rewrite Hv. reflexivity.
Qed.

End Revisions.

Lemma revisions_agree_witness :
  @Legacy.cleanSecret Sample.tables "gezd gnbv gy3t qojq"
  = @Mfa.cleanSecret Sample.tables "gezd gnbv gy3t qojq" /\
  is_int64 (clock Sample.fresh) /\
  @Legacy.generateTOTP Sample.tables Sample.fresh "gezd gnbv gy3t qojq" 30
  = @Mfa.generateTOTP Sample.tables Sample.fresh "gezd gnbv gy3t qojq" 30.
Proof.
  assert (Hc : @Legacy.cleanSecret Sample.tables "gezd gnbv gy3t qojq"
               = @Mfa.cleanSecret Sample.tables "gezd gnbv gy3t qojq")
    by (vm_compute; reflexivity).
  assert (Hi : is_int64 (clock Sample.fresh)) by (vm_compute; split; discriminate).
  split; [exact Hc|]. split; [exact Hi|].
  exact (@revisions_agree Sample.tables Sample.fresh "gezd gnbv gy3t qojq" 30 Hc Hi).
Defined.

(** ** The order of the steps, seen at a failure *)




Section Failures.
Context {tables : CaseTables} {mfa_codec : JSON Mfa.MFAStorage}
        {pass_codec : JSON Pass.PasswordStorage} {mpin_codec : JSON Mpin.MPINConfig}.

Lemma SetupMFA_step (w : World) (account name secret : string) (period : Z)
    (v : string * Z) :
  Mfa.generateTOTP w secret period = Ok v ->
  Mfa.SetupMFA account name secret period w
  = match Mfa.loadMFAStorage w with
    | (Ok storage, w1) =>
        match list_find (fun x => Mfa.Account x = account /\ Mfa.Name x = name)
                (Mfa.Entries storage) with
        | Some (i, _) =>
            Mfa.saveMFAStorage
              (Mfa.mkMFAStorage
                 (<[i := Mfa.mkMFAEntry account name secret period]> (Mfa.Entries storage))) w1
        | None =>
            Mfa.saveMFAStorage
              (Mfa.mkMFAStorage
                 (Mfa.Entries storage ++ [Mfa.mkMFAEntry account name secret period])) w1
        end
    | (Err e, w1) => (Err e, w1)
    | (Panic p, w1) => (Panic p, w1)
    end.
Proof.
  intros Hg. unfold Mfa.SetupMFA.
  rewrite (IO_bind_Ok _ _ w w (1, "287082"))
    by (unfold lift; rewrite testTOTP_ok; reflexivity).
  rewrite (IO_bind_Ok _ _ w w v) by (apply wrap_Ok; rewrite Hg; reflexivity).
  unfold mbind, IO_bind.
  destruct (Mfa.loadMFAStorage w) as [[storage|e|p] w1]; [|reflexivity..].
  destruct (list_find _ _) as [[i x]|]; reflexivity.
Qed.

Lemma AddMPIN_step (w : World) (name account : string) (length_ : Z)
    (config : Mpin.MPINConfig) :
  name <> "" -> account <> "" -> 0 < length_ ->
  (Z.to_nat length_ <= length (entropy w))%nat ->
  Mpin.loadMPINConfig w = (Ok config, w) ->
  exists new : list Mpin.MPINEntry,
    Mpin.AddMPIN name account length_ w
    = Mpin.saveMPINConfig (Mpin.mkMPINConfig new) (drawn (Z.to_nat length_) w).
Proof.
  intros Hname Hacc Hl Hn Hload. unfold Mpin.AddMPIN.
  rewrite bool_decide_eq_false_2 by tauto.
  replace (length_ <=? 0) with false by blia.
  rewrite (IO_bind_Ok _ _ w w config) by exact Hload.
  pose proof (generateMPIN_eval length_ w Hl) as Hgen.
  rewrite decide_True in Hgen by exact Hn.
  destruct (list_find _ _) as [[i x]|]; rewrite (IO_bind_Ok _ _ _ _ _ Hgen);
    eexists; reflexivity.
Qed.

Lemma AddPassword_step (w : World) (name account : string) (length_ : Z)
    (a A d : bool) (s : string) :
  name <> "" -> account <> "" -> 0 < length_ ->
  (Z.to_nat length_ <= length (entropy w))%nat ->
  Pass.AddPassword name account length_ a A d s w
  = match Pass.loadPasswordStorage (drawn (Z.to_nat length_) w) with
    | (Ok storage, w1) =>
        let newEntry :=
          Pass.mkPasswordEntry name account
            (of_bytes (map (char_of (Pass.passwordCharset a A d s))
                         (take (Z.to_nat length_) (entropy w))))
            length_ (Pass.configDescription a A d s) in
        match list_find (fun x => Pass.Name x = name /\ Pass.Account x = account)
                (Pass.Entries storage) with
        | Some (i, _) =>
            Pass.savePasswordStorage
              (Pass.mkPasswordStorage (<[i := newEntry]> (Pass.Entries storage))) w1
        | None =>
            Pass.savePasswordStorage
              (Pass.mkPasswordStorage (Pass.Entries storage ++ [newEntry])) w1
        end
    | (Err e, w1) => (Err e, w1)
    | (Panic p, w1) => (Panic p, w1)
    end.
Proof.
  intros Hname Hacc Hl Hn. unfold Pass.AddPassword.
  rewrite bool_decide_eq_false_2 by tauto.
  pose proof (generatePassword_eval length_ a A d s w Hl) as Hgen.
  rewrite decide_True in Hgen by exact Hn.
  rewrite (IO_bind_Ok _ _ _ _ _ (wrap_Ok "failed to generate password" _ _ _ _ Hgen)).
  cbv zeta. unfold mbind, IO_bind.
  destruct (Pass.loadPasswordStorage _) as [[storage|e|p] w1]; [|reflexivity..].
  destruct (list_find _ _) as [[i x]|]; reflexivity.
Qed.

(** X20.  The order of the steps, as a failing load shows it.  [SetupMFA]
    checks the secret before it reads the store: a secret that generates no
    code is reported even when the store cannot be loaded, and otherwise the
    error of the load is returned as it is.  [AddMPIN] loads before it
    generates, so a failing load consumes no random value; [AddPassword]
    generates before it loads, so a failing load is reported after the
    random values of the discarded password were consumed. *)
Theorem load_failure_order (w : World) (e : error) :
  (forall (account name secret : string) (period : Z) (err : error),
     Mfa.generateTOTP w secret period = Err err ->
     Mfa.SetupMFA account name secret period w
     = (Err (Errorf "invalid secret key - cannot generate TOTP" err), w)) /\
  (forall (account name secret : string) (period : Z) (v : string * Z),
     Mfa.generateTOTP w secret period = Ok v ->
     Mfa.loadMFAStorage w = (Err e, w) ->
     Mfa.SetupMFA account name secret period w = (Err e, w)) /\
  (forall (name account : string) (length_ : Z),
     name <> "" -> account <> "" -> 0 < length_ ->
     Mpin.loadMPINConfig w = (Err e, w) ->
     Mpin.AddMPIN name account length_ w = (Err e, w)) /\
  (forall (name account : string) (length_ : Z) (a A d : bool) (s : string),
     name <> "" -> account <> "" -> 0 < length_ ->
     (Z.to_nat length_ <= length (entropy w))%nat ->
     Pass.loadPasswordStorage w = (Err e, w) ->
     Pass.AddPassword name account length_ a A d s w
     = (Err e, drawn (Z.to_nat length_) w)).
Proof.
  split; [|split; [|split]].
  - intros account name secret period err Hg. unfold Mfa.SetupMFA.
    rewrite (IO_bind_Ok _ _ w w (1, "287082"))
      by (unfold lift; rewrite testTOTP_ok; reflexivity).
    apply IO_bind_Err. unfold wrap. cbv beta. rewrite Hg. reflexivity.
  - intros account name secret period v Hg Hl.
    rewrite (SetupMFA_step w account name secret period v Hg), Hl. reflexivity.
  - intros name account length_ Hname Hacc Hlen Hl. unfold Mpin.AddMPIN.
    rewrite bool_decide_eq_false_2 by tauto.
    replace (length_ <=? 0) with false by blia.
    apply IO_bind_Err, Hl.
  - intros name account length_ a A d s Hname Hacc Hlen Hn Hl.
    rewrite (AddPassword_step w name account length_ a A d s Hname Hacc Hlen Hn).
    rewrite loadPasswordStorage_eval in Hl |- *.
    rewrite (load_result_drawn _ _ _ _ _ _ _ _ (Z.to_nat length_) Hl). reflexivity.
Qed.





End Failures.

(** An environment without home directory, and one whose files cannot be
    written. *)
Lemma load_failure_order_witness :
  let w := mkWorld 59 [3; 141; 59; 26] None true true None ∅ in
  let e := Errorf "failed to get home directory" (New "$HOME is not defined") in
  @Mfa.SetupMFA Sample.tables Sample.mfa_json "google" "a@b" "abc" 30 w
  = (Err (Errorf "invalid secret key - cannot generate TOTP"
            (Errorf "invalid secret key after cleaning" (CorruptInputError 0))), w) /\
  @Mfa.SetupMFA Sample.tables Sample.mfa_json "google" "a@b" "GEZDGNBVGY3TQOJQ" 30 w
  = (Err e, w) /\
  @Mpin.AddMPIN Sample.mpin_json "bank" "me" 4 w = (Err e, w) /\
  @Pass.AddPassword Sample.pass_json "github" "me" 4 true false false "" w
  = (Err e, drawn 4 w).
Proof.
  intros w e.
  destruct (@load_failure_order Sample.tables Sample.mfa_json Sample.pass_json
              Sample.mpin_json w e) as (H1 & H2 & H3 & H4).
  split; [|split; [|split]].
  - apply H1. vm_compute. reflexivity.
  - apply (H2 _ _ _ _ ("263420", 1)); vm_compute; reflexivity.
  - apply H3; [discriminate | discriminate | reflexivity | vm_compute; reflexivity].
  - apply (H4 "github" "me" 4 true false false "");
      [discriminate | discriminate | reflexivity | vm_compute; lia | vm_compute; reflexivity].
Defined.

